(** * TeddyPlayer: reader/device orchestrator, shallow embedding

    The definitions below are transcribed from the Python sources

      - [server/app/main.py]
      - [server/app/services/transcoding.py]
      - [server/app/services/devices.py]
      - [server/app/services/teddycloud.py]

    Conventions of the embedding.
      - Python [str] is [string] (a sequence of 8-bit characters; the
        case and whitespace tables are the ASCII ones).
      - Python [int] is [Z]; durations, positions and time stamps of the
        reader states, which the sources hold as [int] or [float]
        seconds, are [Z] as well: the reader states are only compared,
        added and subtracted. Where a [float] is formatted, in the time
        strings of [devices.py], it is modelled as such.
      - A [dict] read with [d.get(k, default)] is a record whose fields
        are [option]s, or a [gmap] when the set of keys matters.
      - [async] functions are run to completion one at a time; calls to
        the outside world (ffmpeg, HTTP, devices, the clock) are answered
        by an explicit environment and recorded in a trace. Of the tasks
        that a scan starts with [asyncio.create_task], the one that
        starts the device is run within the scan; the others are named
        where they are left out.
      - An exception that leaves a function is a result of its own
        ([Raises]), also the [NameError] of a name that the module does
        not bind. *)

From Stdlib Require Import ZArith NArith Ascii String List Bool Lia.
From Stdlib Require Import DecimalString Sorting Permutation.
From stdpp Require Import gmap strings list.

Open Scope string_scope.

(** String concatenation computes under [simpl], as a [Fixpoint] does. *)
#[local] Arguments String.append (s1 s2)%_string_scope : simpl nomatch.

(** ** Python string primitives *)

Module Py.

(** [c.upper()] on one ASCII character. *)
Definition upper_ascii (c : ascii) : ascii :=
  let n := nat_of_ascii c in
  if (97 <=? n)%nat && (n <=? 122)%nat then ascii_of_nat (n - 32) else c.

(** [s.upper()]. *)
Fixpoint upper (s : string) : string :=
  match s with
  | EmptyString => EmptyString
  | String c s' => String (upper_ascii c) (upper s')
  end.

(** [sep in s] for a one-character [sep]. *)
Fixpoint contains (sep : ascii) (s : string) : bool :=
  match s with
  | EmptyString => false
  | String c s' => Ascii.eqb c sep || contains sep s'
  end.

(** [s.split(sep)] for a one-character [sep]: always at least one piece. *)
Fixpoint split (sep : ascii) (s : string) : list string :=
  match s with
  | EmptyString => [EmptyString]
  | String c s' =>
      if Ascii.eqb c sep then EmptyString :: split sep s'
      else match split sep s' with
           | [] => [String c EmptyString]
           | p :: ps => String c p :: ps
           end
  end.

(** [s.replace(sep, "")] for a one-character [sep]. *)
Fixpoint remove (sep : ascii) (s : string) : string :=
  match s with
  | EmptyString => EmptyString
  | String c s' =>
      if Ascii.eqb c sep then remove sep s' else String c (remove sep s')
  end.

(** Truthiness of a string: [if p]. *)
Definition truthy (s : string) : bool :=
  match s with EmptyString => false | _ => true end.

(** [sep.join(parts)]. *)
Fixpoint join (sep : string) (parts : list string) : string :=
  match parts with
  | [] => EmptyString
  | [p] => p
  | p :: ps => p +:+ sep +:+ join sep ps
  end.

(** Concatenation of all pieces: ["".join(parts)]. *)
Fixpoint concat (parts : list string) : string :=
  match parts with
  | [] => EmptyString
  | p :: ps => p +:+ concat ps
  end.

(** [s[i:j]] for [0 <= i <= j]. *)
Definition slice (i j : nat) (s : string) : string := substring i (j - i) s.

(** [s[-n:]]: the last [n] characters, the whole string when shorter. *)
Definition last_chars (n : nat) (s : string) : string :=
  substring (String.length s - n) n s.

(** [s.endswith(suf)]. *)
Definition endswith (s suf : string) : bool :=
  (String.length suf <=? String.length s)%nat
  && String.eqb (last_chars (String.length suf) s) suf.

(** [s.startswith(pre)]. *)
Definition startswith (s pre : string) : bool :=
  String.eqb (substring 0 (String.length pre) s) pre
  && (String.length pre <=? String.length s)%nat.

(** Value of a hexadecimal digit, either case. *)
Definition hex_value (c : ascii) : option Z :=
  let n := nat_of_ascii c in
  if (48 <=? n)%nat && (n <=? 57)%nat then Some (Z.of_nat (n - 48))
  else if (65 <=? n)%nat && (n <=? 70)%nat then Some (Z.of_nat (n - 55))
  else if (97 <=? n)%nat && (n <=? 102)%nat then Some (Z.of_nat (n - 87))
  else None.

(** The class [[0-9A-F]] of the regular expression in
    [re.sub(r"[^0-9A-F]", "", raw)]. *)
Definition is_upper_hex (c : ascii) : bool :=
  let n := nat_of_ascii c in
  ((48 <=? n)%nat && (n <=? 57)%nat) || ((65 <=? n)%nat && (n <=? 70)%nat).

Fixpoint keep (p : ascii -> bool) (s : string) : string :=
  match s with
  | EmptyString => EmptyString
  | String c s' => if p c then String c (keep p s') else keep p s'
  end.

(** Characters that [int()] skips around the number. *)
Definition is_space (c : ascii) : bool :=
  let n := nat_of_ascii c in
  ((9 <=? n)%nat && (n <=? 13)%nat) || ((28 <=? n)%nat && (n <=? 32)%nat).

Fixpoint lstrip (s : string) : string :=
  match s with
  | String c s' => if is_space c then lstrip s' else s
  | EmptyString => EmptyString
  end.

Definition strip (s : string) : string :=
  String.rev (lstrip (String.rev (lstrip s))).

(** The digits of [int(s, 16)] after sign and prefix: hexadecimal digits
    with single underscores between them; [pending] says that a digit must
    come next (start of the number, or just after an underscore). *)
Fixpoint hex_digits (acc : Z) (pending : bool) (s : string) : option Z :=
  match s with
  | EmptyString => if pending then None else Some acc
  | String c s' =>
      if Ascii.eqb c "_" then
        if pending then None else hex_digits acc true s'
      else match hex_value c with
           | Some d => hex_digits (16 * acc + d) false s'
           | None => None
           end
  end.

(** After the sign: an optional [0x]/[0X] prefix, which may be followed by
    one underscore, then the digits. *)
Definition hex_unsigned (s : string) : option Z :=
  match s with
  | String "0" (String x rest) =>
      if Ascii.eqb x "x" || Ascii.eqb x "X" then
        match rest with
        | String "_" rest' => hex_digits 0 true rest'
        | _ => hex_digits 0 true rest
        end
      else hex_digits 0 true s
  | _ => hex_digits 0 true s
  end.

(** [int(s, 16)]; [None] stands for [ValueError]. *)
Definition int16 (s : string) : option Z :=
  match strip s with
  | String "-" s' => Z.opp <$> hex_unsigned s'
  | String "+" s' => hex_unsigned s'
  | s' => hex_unsigned s'
  end.

(** [str(n)] for an [int]. *)
Definition str_of_Z (n : Z) : string :=
  NilZero.string_of_int (Z.to_int n).

Fixpoint zeros (n : nat) : string :=
  match n with O => EmptyString | S n' => String "0" (zeros n') end.

(** [f"{n:0{w}d}"]: sign first, then zeros up to the width [w]. *)
Definition format_0d (w : nat) (n : Z) : string :=
  let digits := NilZero.string_of_uint (N.to_uint (Z.abs_N n)) in
  if (n <? 0)%Z
  then String "-" (zeros (w - 1 - String.length digits) +:+ digits)
  else zeros (w - String.length digits) +:+ digits.

End Py.

(** ** Exceptions and unbound names *)

(** The exceptions that leave a function of the model. *)
Inductive PyError :=
| NameError (name : string)
| TypeError
| OverflowError.

(** What a call gives: the value returned, or the exception raised. *)
Inductive Result (A : Type) :=
| Returns (value : A)
| Raises (e : PyError).

Arguments Returns {A} value.
Arguments Raises {A} e.

(** The names that the import statements of [main.py] (l. 1-48) bind.
    No other statement of the module binds a name at module level that
    is missing here and used below: [aiohttp] occurs at l. 178, 180 and
    205 only, and [Response] at l. 3521 only. *)
Definition main_imports : list string :=
  [ "asyncio"; "logging"; "deque"; "asynccontextmanager"; "datetime"; "time";
    "Path"; "os"; "FastAPI"; "HTTPException"; "Request"; "StaticFiles";
    "FileResponse"; "StreamingResponse"; "CORSMiddleware"; "BaseModel";
    "quote"; "transcode_stream"; "get_content_type"; "check_ffmpeg";
    "get_or_serve_cached_mp3"; "get_cache_stats"; "clear_cache";
    "get_encoding_status"; "get_or_encode_tracks"; "get_cached_tracks";
    "get_tonie_cache_dir"; "get_track_cache_path"; "set_encoding_status";
    "get_tonie_cache_key"; "encode_first_track";
    "continue_encoding_remaining_tracks"; "get_settings";
    "get_editable_settings"; "update_settings"; "get_local_ip";
    "get_preferences"; "update_preferences"; "TeddyCloudClient";
    "device_service"; "re"; "unicodedata" ].

(** Whether evaluating a global name of [main.py] that no [def], [class]
    or assignment of the module binds gives a value; otherwise it raises
    [NameError]. *)
Definition imported (name : string) : bool :=
  existsb (String.eqb name) main_imports.

(** ** [main.py]: UID to device tag id *)

(** The four two-character pieces
    [hex_only[i : i + 2] for i in range(len(hex_only) - 8, len(hex_only), 2)]. *)
Definition last_four_pairs (hex_only : string) : list string :=
  let n := String.length hex_only in
  map (fun k => Py.slice (n - 8 + 2 * k) (n - 8 + 2 * k + 2) hex_only) (seq 0 4).

(** [parts[-4:]]. *)
Definition last_four {A} (parts : list A) : list A :=
  drop (length parts - 4) parts.

(** [[f"{int(p, 16):03d}" for p in parts]], [None] on [ValueError]. *)
Fixpoint triplets (parts : list string) : option (list string) :=
  match parts with
  | [] => Some []
  | p :: ps =>
      match Py.int16 p with
      | None => None
      | Some n => cons (Py.format_0d 3 n) <$> triplets ps
      end
  end.

(** [uid_to_espuino_tag_id] ([main.py], l. 134). *)
Definition uid_to_espuino_tag_id (uid : string) : string :=
  if negb (Py.truthy uid) then ""
  else
    let raw := Py.upper uid in
    let parts :=
      if Py.contains ":" raw then
        let parts := filter (fun p => Py.truthy p = true) (Py.split ":" raw) in
        if (4 <=? length parts)%nat then Some (rev (last_four parts)) else None
      else
        let hex_only := Py.keep Py.is_upper_hex raw in
        if (String.length hex_only <? 8)%nat then None
        else Some (rev (last_four_pairs hex_only))
    in
    match parts with
    | None => ""
    | Some parts =>
        match triplets parts with
        | Some ts => Py.concat ts
        | None => ""
        end
    end.

(** *** Well-formed UIDs and the expected tag id

    A UID is a sequence of bytes written as two-digit hexadecimal pairs,
    either joined by colons ([E0:04:03:50:13:16:80:4B]) or run together
    ([E00403501316804B]). *)

Definition hex_digit_char (d : nat) : ascii :=
  match String.get d "0123456789ABCDEF" with
  | Some c => c
  | None => "0"%char
  end.

Definition hex_pair (b : nat) : string :=
  String (hex_digit_char (b / 16)) (String (hex_digit_char (b mod 16)) "").

Definition dec_digit_char (d : nat) : ascii := ascii_of_nat (48 + d).

(** The decimal value of a byte on exactly three digits. *)
Definition dec3 (b : nat) : string :=
  String (dec_digit_char (b / 100))
    (String (dec_digit_char (b / 10 mod 10))
       (String (dec_digit_char (b mod 10)) "")).

Definition colon_form (bs : list nat) : string := Py.join ":" (map hex_pair bs).
Definition plain_form (bs : list nat) : string := Py.concat (map hex_pair bs).

(** Facts about single bytes are checked on all 256 of them. *)
Definition byte_facts (b : nat) : bool :=
  bool_decide (Py.int16 (hex_pair b) = Some (Z.of_nat b))
  && bool_decide (Py.format_0d 3 (Z.of_nat b) = dec3 b)
  && negb (Py.contains ":" (hex_pair b))
  && bool_decide (Py.keep Py.is_upper_hex (hex_pair b) = hex_pair b).

(** *** Liveness probe

    What [GET http://{ip}/settings] gave: a network error or time-out, a
    status other than 200, or the decoded body, of which only
    [data.get("current", {}).get("rfidTagId", "")] is read. *)
Inductive SettingsReply :=
| Unreachable
| BadStatus (code : Z)
| Settings (rfidTagId : option string).

(** [check_espuino_active_tag] ([main.py], l. 159). By its docstring it
    returns [True] when the device plays the expected tag, [False] on
    another tag or none, and [None] when nothing can be said.

    The [try] block starts with [aiohttp.ClientSession()] (l. 178), and
    [main.py] does not import [aiohttp]: the name raises [NameError]
    before any request is sent. Of the handlers, [asyncio.TimeoutError]
    (l. 202) does not match it, and the next one, [aiohttp.ClientError]
    (l. 205), raises [NameError] again while it is evaluated, so that
    [except Exception] (l. 208) is never tried and the exception leaves
    the function. *)
Definition check_espuino_active_tag
    (ip expected_uid : string) (reply : SettingsReply) : Result (option bool) :=
  if negb (Py.truthy ip) || negb (Py.truthy expected_uid) then Returns None
  else
    let expected_tag_id := uid_to_espuino_tag_id expected_uid in
    if negb (Py.truthy expected_tag_id) then Returns None
    else if negb (imported "aiohttp") then Raises (NameError "aiohttp")
    else match reply with
         | Unreachable => Returns None
         | BadStatus _ => Returns None
         | Settings tag =>
             let active_tag_id := default "" tag in
             if negb (Py.truthy active_tag_id) then Returns (Some false)
             else Returns (Some (String.eqb active_tag_id expected_tag_id))
         end.

(** ** [teddycloud.py]: tag lookup *)

(** A track as the encoder reads it: a [dict] with the optional keys
    ["name"], ["duration"] and ["start"]. *)
Record Track := mkTrack {
  name : option string;
  duration : option Z;
  start : option Z;
}.

(** The [tonieInfo] object of a tag. *)
Record TonieInfo := mkTonieInfo {
  ti_model : option string;
  ti_series : option string;
  ti_episode : option string;
  ti_title : option string;
  ti_picture : option string;
  ti_tracks : list string;
}.

(** An entry of the tag index ([getTagIndex]). *)
Record TagRecord := mkTagRecord {
  tag_uid : option string;
  tag_source : option string;
  tag_audioUrl : option string;
  tag_valid : option bool;
  tag_exists : option bool;
  tag_trackSeconds : list Z;
  tag_tonieInfo : option TonieInfo;
}.

(** What [find_tonie_by_uid] returns: the [dict] built from a tag, or an
    entry of the catalog ([toniesJson] and [toniesCustomJson]) as it is.
    Every key is read with [.get], hence optional. *)
Record Tonie := mkTonie {
  t_uid : option string;
  t_model : option string;
  t_source : option string;
  t_audio_path : option string;
  t_series : option string;
  t_episode : option string;
  t_episodes : option string;
  t_title : option string;
  t_picture : option string;
  t_duration : option Z;
  t_num_tracks : option Z;
  t_tracks : option (list Track);
}.

(** [uid.replace(":", "").upper()]. *)
Definition normalize_uid (uid : string) : string := Py.upper (Py.remove ":" uid).

(** [tag_uid == normalized_uid or tag_uid.endswith(normalized_uid)]. *)
Definition uid_matches (tag_uid normalized_uid : string) : bool :=
  String.eqb tag_uid normalized_uid || Py.endswith tag_uid normalized_uid.

(** [f"Track {i + 1}"]. *)
Definition default_track_name (i : nat) : string :=
  "Track " +:+ Py.str_of_Z (Z.of_nat i + 1).

(** [max(0, len(track_seconds) - 1) if track_seconds else 0]. *)
Definition num_tracks_of (track_seconds : list Z) : nat :=
  length track_seconds - 1.

(** [track_seconds[-1] if track_seconds else 0]. *)
Definition duration_of (track_seconds : list Z) : Z :=
  List.last track_seconds 0%Z.

(** The track list built from the cumulative [trackSeconds]
    ([teddycloud.py], l. 130). *)
Definition build_tracks (track_seconds : list Z) (track_names : list string)
  : list Track :=
  map (fun i =>
         let track_start := nth i track_seconds 0%Z in
         let track_end :=
           if (i + 1 <? length track_seconds)%nat
           then nth (i + 1) track_seconds 0%Z
           else duration_of track_seconds in
         let track_name :=
           if (i <? length track_names)%nat
           then nth i track_names ""
           else default_track_name i in
         {| name := Some track_name;
            duration := Some (track_end - track_start)%Z;
            start := Some track_start |})
      (seq 0 (num_tracks_of track_seconds)).

(** The [result] dict built for a matching tag. [tag_tonieInfo] is [None]
    when the [tonieInfo] object is absent or empty ([if tonie_info:]). *)
Definition tonie_of_tag (uid : string) (tag : TagRecord) : Tonie :=
  let track_seconds := tag_trackSeconds tag in
  let info := tag_tonieInfo tag in
  {| t_uid := Some uid;
     t_model := info ≫= (fun i => Some (default "" (ti_model i)));
     t_source := Some (default "" (tag_source tag));
     t_audio_path := Some (default "" (tag_audioUrl tag));
     t_series := info ≫= (fun i => Some (default "" (ti_series i)));
     t_episode := info ≫= (fun i => Some (default "" (ti_episode i)));
     t_episodes := None;
     t_title := info ≫= (fun i => Some (default "" (ti_title i)));
     t_picture := info ≫= (fun i => Some (default "" (ti_picture i)));
     t_duration := Some (duration_of track_seconds);
     t_num_tracks := Some (Z.of_nat (num_tracks_of track_seconds));
     t_tracks :=
       Some (build_tracks track_seconds
               (from_option ti_tracks [] info)) |}.

(** The first loop: the tag index. *)
Fixpoint find_in_tags (uid : string) (tags : list TagRecord) : option Tonie :=
  match tags with
  | [] => None
  | tag :: rest =>
      if uid_matches (normalize_uid (default "" (tag_uid tag))) (normalize_uid uid)
      then Some (tonie_of_tag uid tag)
      else find_in_tags uid rest
  end.

(** The second loop: the catalog, by UID and then by model. *)
Fixpoint find_in_catalog (uid : string) (tonies : list Tonie) : option Tonie :=
  match tonies with
  | [] => None
  | tonie :: rest =>
      if uid_matches (normalize_uid (default "" (t_uid tonie))) (normalize_uid uid)
      then Some tonie
      else if uid_matches (Py.upper (default "" (t_model tonie))) (normalize_uid uid)
      then Some tonie
      else find_in_catalog uid rest
  end.

(** [find_tonie_by_uid] ([teddycloud.py], l. 89); [tags] and [tonies] are
    what [get_tag_index] and [get_tonies] returned ([[]] on any error). *)
Definition find_tonie_by_uid
    (uid : string) (tags : list TagRecord) (tonies : list Tonie) : option Tonie :=
  match find_in_tags uid tags with
  | Some t => Some t
  | None => find_in_catalog uid tonies
  end.

(** ** [main.py]: pseudo-tracks *)

(** [play_tonie_for_reader], l. 725-736: [tonie_tracks] is
    [tonie.get("tracks", [])] and [duration] is [tonie.get("duration", 0)]. *)
Definition scan_tracks (tonie_tracks : list Track) (duration : Z) : list Track :=
  match tonie_tracks with
  | [] =>
      let full_duration := if (duration >? 0)%Z then duration else 7200%Z in
      [ {| name := Some "Full Audio";
           duration := Some full_duration;
           start := Some 0%Z |} ]
  | _ => tonie_tracks
  end.

(** The same for a resolved tonie. *)
Definition tonie_scan_tracks (tonie : Tonie) : list Track :=
  scan_tracks (default [] (t_tracks tonie)) (default 0%Z (t_duration tonie)).

(** [play_tonie_for_reader], l. 1678-1681: library items and unknown tags. *)
Definition library_tracks (override_tracks : option (list Track)) : list Track :=
  match default [] override_tracks with
  | [] => [ {| name := Some "Full Audio";
               duration := Some 7200%Z;
               start := Some 0%Z |} ]
  | lib_tracks => lib_tracks
  end.

(** [transcode_audio], l. 3369-3372: [duration or 3600], and no ["start"]. *)
Definition transcode_tracks (tracks : list Track) (duration : Z) : list Track :=
  match tracks with
  | [] =>
      [ {| name := Some "Full Audio";
           duration := Some (if (duration =? 0)%Z then 3600%Z else duration);
           start := None |} ]
  | _ => tracks
  end.

(** ** [main.py]: per-reader playback state *)

(** A device descriptor, [{"type": ..., "id": ...}]. *)
Record Device := mkDevice {
  dev_type : string;
  dev_id : string;
}.

(** [state["resume"]]. *)
Record Resume := mkResume {
  r_uid : string;
  r_position : Z;
  r_device : Device;
  r_paused : bool;
}.

(** [state["current_tag"]]. Each of the places that build one stores a
    [str] under ["playback_url"]. *)
Record TagSnapshot := mkSnapshot {
  snap_uid : string;
  snap_series : option string;
  snap_episode : option string;
  snap_title : option string;
  snap_picture : option string;
  snap_audio_url : string;
  snap_playback_url : string;
  snap_placed_at : Z;
  snap_start_position : Z;
  (** The key ["duration"]: absent in the snapshot of a library item or
      an unknown tag, and [Some None] where the snapshot of a tonie holds
      [None]. *)
  snap_duration : option (option Z);
  snap_tracks : list Track;
  snap_track_count : nat;
}.

(** One entry of [reader_states]; the last three keys are absent until
    [handle_tonie] sets them. *)
Record ReaderState := mkReaderState {
  current_tag : option TagSnapshot;
  current_started_at : option Z;
  current_offset : Z;
  resume : option Resume;
  last_reported_position : Z;
  current_device : option Device;
  mode : option string;
  target_device : option Device;
  espuino_ip : option string;
}.

(** One entry of [connected_readers]. *)
Record ReaderInfo := mkReaderInfo {
  first_seen : Z;
  last_seen : Z;
  scan_count : nat;
  reader_name : string;
}.

(** The module-level dictionaries of [main.py]. *)
Record Server := mkServer {
  reader_states : gmap string ReaderState;
  connected_readers : gmap string ReaderInfo;
}.

(** [TonieResponse]. *)
Record TonieResponse := mkResponse {
  resp_uid : string;
  resp_series : option string;
  resp_episode : option string;
  resp_title : option string;
  resp_picture : option string;
  resp_found : bool;
  resp_playback_started : bool;
  resp_encoding : bool;
  resp_playback_url : option string;
  resp_playlist_url : option string;
  resp_track_count : nat;
  resp_target : option string;
}.

(** [TonieResponse(uid=..., found=...)]: the other fields at their
    defaults. *)
Definition default_response (uid : string) (found : bool) : TonieResponse :=
  {| resp_uid := uid; resp_series := None; resp_episode := None;
     resp_title := None; resp_picture := None; resp_found := found;
     resp_playback_started := false; resp_encoding := false;
     resp_playback_url := None; resp_playlist_url := None;
     resp_track_count := 1; resp_target := None |}.

(** Calls made to the device adapter [device_service], in order; the
    title that the calls which start playback take as well is left out.
    [StartPlayback] is [play_on_device] with [start_position], and
    [PlayOnDevice] is [play_on_device] without it. *)
Inductive DeviceCall :=
| GetPosition (d : Device)
| PauseDevice (d : Device)
| ResumeDevice (d : Device)
| StopDevice (d : Device)
| IsPlaying (d : Device)
| SeekDevice (d : Device) (position : Z)
| StartPlayback (d : Device) (url : string) (start_position : Z)
| PlayOnDevice (d : Device) (url : string)
| PlayPlaylistOnSonos (ip : string) (track_urls : list string)
| PlayPlaylistOnChromecast (device_id : string) (track_urls : list string)
| CheckEspuinoSdReady (ip folder_path : string) (expected_tracks : nat)
| PlayEspuinoFromSd (ip folder_path : string).

(** What the outside world answers during one request. *)
Record Env := mkEnv {
  (** [time.time()], and [datetime.now()] as seconds. *)
  now : Z;
  (** [device_service.get_device_for_reader]. *)
  device_for_reader : string -> Device;
  (** [device_service.get_device_position]. *)
  device_position : Device -> option Z;
  (** The result of [device_service.resume_device]. *)
  resume_ok : Device -> bool;
  (** The name given to a reader that is seen for the first time. *)
  display_name : string -> string;
  (** Whether [teddycloud_client] is initialized. *)
  client_ready : bool;
  (** What [get_tag_index] and [get_tonies] return. *)
  tag_index : list TagRecord;
  catalog : list Tonie;
  (** [build_audio_url] and [build_playback_url], which read the settings. *)
  audio_url_for : option Tonie -> string -> string;
  playback_url_for : string -> string -> string;
  (** [build_playlist_url] with the number of cached tracks. *)
  playlist_for : string -> option (string * nat);
  (** Whether [metadata.json] exists in the cache directory of an audio
      URL, and whether [encode_first_track] gives the path of a first
      track for it. *)
  is_cached : string -> bool;
  first_track_ready : string -> bool;
  (** [f"{server_base}/tracks/{cache_key}/01.mp3"] for an audio URL. *)
  first_track_url_for : string -> string;
  (** [device_service.get_sonos_ip_from_uid]. *)
  sonos_ip_of : string -> option string;
  (** The folder of [build_espuino_dest_path(uid, series, episode)]. *)
  dest_folder_for : string -> string -> string -> string;
  (** [ready] in the answer of [device_service.check_espuino_sd_ready]. *)
  sd_ready : string -> string -> nat -> bool;
  (** The result of [device_service.play_on_device]. *)
  play_on_device_ok : Device -> string -> Z -> bool;
  (** [device_service.get_reader_device_override]. *)
  device_override_for : string -> option Device;
  (** The results of [is_device_playing], [pause_device], [stop_device] and
      [seek_device]. *)
  is_playing : Device -> bool;
  pause_ok : Device -> bool;
  stop_ok : Device -> bool;
  seek_ok : Device -> Z -> bool;
}.

(** The state a reader starts with. *)
Definition initial_reader_state : ReaderState :=
  {| current_tag := None; current_started_at := None; current_offset := 0;
     resume := None; last_reported_position := 0; current_device := None;
     mode := None; target_device := None; espuino_ip := None |}.

(** [get_reader_state] ([main.py], l. 354): the entry is created on first
    use. *)
Definition get_reader_state (reader_ip : string) (states : gmap string ReaderState)
  : gmap string ReaderState * ReaderState :=
  match states !! reader_ip with
  | Some st => (states, st)
  | None => (<[reader_ip := initial_reader_state]> states, initial_reader_state)
  end.

(** [_is_virtual_reader] ([main.py], l. 77). *)
Definition _is_virtual_reader (reader_ip : string) : bool :=
  String.eqb reader_ip "manual-stream" || String.eqb reader_ip "browser-session"
  || Py.startswith reader_ip "web-".

(** [state.get("current_device") or get_device_for_reader(reader_ip)]. *)
Definition device_of (env : Env) (reader_ip : string) (st : ReaderState) : Device :=
  match current_device st with
  | Some d => d
  | None => device_for_reader env reader_ip
  end.

(** [get_resume_position] ([main.py], l. 480), with the calls it makes. *)
Definition get_resume_position (env : Env) (st : ReaderState) (device : Device)
  : Z * list DeviceCall :=
  if String.eqb (dev_type device) "browser"
  then (Z.max 0 (last_reported_position st), [])
  else
    let time_based :=
      match current_started_at st with
      | Some t0 => Z.max 0 (current_offset st + (now env - t0))
      | None => 0%Z
      end in
    match device_position env device with
    | Some position =>
        if (position >? 0)%Z then (position, [GetPosition device])
        else (time_based, [GetPosition device])
    | None => (time_based, [GetPosition device])
    end.

(** Assignments to single keys of a reader state. *)
Definition set_resume (r : option Resume) (st : ReaderState) : ReaderState :=
  {| current_tag := current_tag st;
     current_started_at := current_started_at st;
     current_offset := current_offset st;
     resume := r;
     last_reported_position := last_reported_position st;
     current_device := current_device st;
     mode := mode st;
     target_device := target_device st;
     espuino_ip := espuino_ip st |}.

Definition set_current_tag (t : option TagSnapshot) (st : ReaderState) : ReaderState :=
  {| current_tag := t;
     current_started_at := current_started_at st;
     current_offset := current_offset st;
     resume := resume st;
     last_reported_position := last_reported_position st;
     current_device := current_device st;
     mode := mode st;
     target_device := target_device st;
     espuino_ip := espuino_ip st |}.

(** The four assignments that follow a new [current_tag]. *)
Definition set_playing
    (t : TagSnapshot) (started_at offset reported : Z) (d : Device)
    (st : ReaderState) : ReaderState :=
  {| current_tag := Some t;
     current_started_at := Some started_at;
     current_offset := offset;
     resume := resume st;
     last_reported_position := reported;
     current_device := Some d;
     mode := mode st;
     target_device := target_device st;
     espuino_ip := espuino_ip st |}.

(** The five assignments of a full stop. *)
Definition clear_playing (st : ReaderState) : ReaderState :=
  {| current_tag := None;
     current_started_at := None;
     current_offset := 0;
     resume := resume st;
     last_reported_position := 0;
     current_device := None;
     mode := mode st;
     target_device := target_device st;
     espuino_ip := espuino_ip st |}.

Definition set_stream_mode
    (m : option string) (target : option Device) (ip : option string)
    (st : ReaderState) : ReaderState :=
  {| current_tag := current_tag st;
     current_started_at := current_started_at st;
     current_offset := current_offset st;
     resume := resume st;
     last_reported_position := last_reported_position st;
     current_device := current_device st;
     mode := m;
     target_device := target;
     espuino_ip := ip |}.

(** [stop_reader_playback] ([main.py], l. 511). *)
Definition stop_reader_playback
    (env : Env) (reader_ip : string) (save_resume pause_only : bool)
    (states : gmap string ReaderState)
  : gmap string ReaderState * list DeviceCall :=
  let '(states, st) := get_reader_state reader_ip states in
  match current_tag st with
  | None => (states, [])
  | Some current =>
      let device := device_of env reader_ip st in
      let '(st1, calls1) :=
        if save_resume then
          let '(position, calls) := get_resume_position env st device in
          (set_resume (Some {| r_uid := snap_uid current;
                               r_position := position;
                               r_device := device;
                               r_paused := pause_only |}) st, calls)
        else (st, []) in
      if pause_only then
        (<[reader_ip := st1]> states, (calls1 ++ [PauseDevice device])%list)
      else
        (<[reader_ip := clear_playing st1]> states,
         (calls1 ++ [StopDevice device])%list)
  end.

(** The optional metadata of a request ([metadata_override]). *)
Record Overrides := mkOverrides {
  ov_title : option string;
  ov_series : option string;
  ov_episode : option string;
  ov_picture : option string;
  ov_tracks : option (list Track);
  ov_audio_url : option string;
}.

(** [a or b] on optional strings: [None] and [""] are false. *)
Definition str_or (a b : option string) : option string :=
  match a with
  | Some x => if Py.truthy x then a else b
  | None => b
  end.

(** The outcome of a request handler: a response or an [HTTPException]. *)
Inductive Outcome :=
| Ok (r : TonieResponse)
| HttpError (status : Z).

(** Upsert of [connected_readers] at the head of [play_tonie_for_reader]. *)
Definition touch_reader (env : Env) (reader_ip : string)
    (readers : gmap string ReaderInfo) : gmap string ReaderInfo :=
  match readers !! reader_ip with
  | None =>
      <[reader_ip := {| first_seen := now env; last_seen := now env;
                        scan_count := 0; reader_name := display_name env reader_ip |}]>
        readers
  | Some info =>
      <[reader_ip := {| first_seen := first_seen info; last_seen := now env;
                        scan_count := scan_count info;
                        reader_name := reader_name info |}]> readers
  end.

(** The answer to a re-scan of the tag that is already current. *)
Definition snapshot_response (uid : string) (current : TagSnapshot)
    (playback_started : bool) : TonieResponse :=
  {| resp_uid := uid;
     resp_series := snap_series current;
     resp_episode := snap_episode current;
     resp_title := snap_title current;
     resp_picture := snap_picture current;
     resp_found := true;
     resp_playback_started := playback_started;
     resp_encoding := false;
     resp_playback_url := Some (snap_playback_url current);
     resp_playlist_url := None;
     resp_track_count := 1;
     resp_target := None |}.

(** [resume and resume.get("uid") == uid and resume.get("paused")]. *)
Definition paused_for (uid : string) (r : option Resume) : bool :=
  match r with
  | Some r => String.eqb (r_uid r) uid && r_paused r
  | None => false
  end.

(** [metadata_override or {}]: nothing is overridden. *)
Definition empty_overrides : Overrides :=
  {| ov_title := None; ov_series := None; ov_episode := None;
     ov_picture := None; ov_tracks := None; ov_audio_url := None |}.

(** [should_resume and same_device] ([main.py], l. 690-695), read from
    [state["resume"]] before it is cleared. *)
Definition resume_on_same_device
    (uid : string) (reader_device : Device) (r : option Resume) : bool :=
  paused_for uid r
  && match r with
     | Some r =>
         String.eqb (dev_type (r_device r)) (dev_type reader_device)
         && String.eqb (dev_id (r_device r)) (dev_id reader_device)
     | None => false
     end.

(** [resume_device], and [play_on_device] with the start position when
    the device did not resume (l. 943-951, 1641-1649): the calls and the
    result. *)
Definition resume_or_play
    (env : Env) (reader_device : Device) (playback_url : string)
    (start_position : Z) : list DeviceCall * bool :=
  if resume_ok env reader_device then ([ResumeDevice reader_device], true)
  else ([ResumeDevice reader_device;
         StartPlayback reader_device playback_url start_position],
        play_on_device_ok env reader_device playback_url start_position).

(** The device calls of the closure [encode_and_play] ([main.py],
    l. 807-1624), which starts a network device for a tonie. It runs
    before the answer when the album is cached and as a task of its own
    otherwise. The two tasks that it starts in turn are not part of the
    model: [encode_remaining], which encodes the other tracks and queues
    each track that it encodes on a multi-room speaker or a cast device
    ([queue_track_on_device]), and [upload_to_sd], which mirrors the
    album to the SD card of the reader after a successful start. *)
Definition encode_and_play
    (env : Env) (reader_device : Device)
    (uid audio_url playback_url series episode : string)
    (tonie_tracks : list Track) (start_position : Z) (resume_same : bool)
  : list DeviceCall :=
  if negb (first_track_ready env audio_url) then []
  else
    let device_type := dev_type reader_device in
    let first_track_url := first_track_url_for env audio_url in
    if String.eqb device_type "sonos" then
      match sonos_ip_of env (dev_id reader_device) with
      | Some sonos_ip =>
          if Py.truthy sonos_ip
          then [PlayPlaylistOnSonos sonos_ip [first_track_url]]
          else []
      | None => []
      end
    else if String.eqb device_type "chromecast" then
      [PlayPlaylistOnChromecast (dev_id reader_device) [first_track_url]]
    else if String.eqb device_type "espuino" then
      let espuino_ip := dev_id reader_device in
      let dest_folder := dest_folder_for env uid series episode in
      CheckEspuinoSdReady espuino_ip dest_folder (length tonie_tracks)
      :: (if sd_ready env espuino_ip dest_folder (length tonie_tracks)
          then [PlayEspuinoFromSd espuino_ip dest_folder]
          else [StartPlayback reader_device playback_url start_position])
    else if resume_same then
      (resume_or_play env reader_device playback_url start_position).1
    else [StartPlayback reader_device playback_url start_position].

(** The device calls of the closure [encode_and_play_lib] ([main.py],
    l. 1755-1843), for a library item or an unknown tag; it runs as a
    task of its own. The task [encode_remaining_lib] that it starts is
    not part of the model. *)
Definition encode_and_play_lib
    (env : Env) (reader_device : Device) (audio_url : string)
  : list DeviceCall :=
  if negb (first_track_ready env audio_url) then []
  else
    let device_type := dev_type reader_device in
    let first_track_url := first_track_url_for env audio_url in
    if String.eqb device_type "sonos" then
      match sonos_ip_of env (dev_id reader_device) with
      | Some sonos_ip =>
          if Py.truthy sonos_ip
          then [PlayPlaylistOnSonos sonos_ip [first_track_url]]
          else []
      | None => []
      end
    else if String.eqb device_type "chromecast" then
      [PlayPlaylistOnChromecast (dev_id reader_device) [first_track_url]]
    else [PlayOnDevice reader_device first_track_url].

(** [device_type in ["sonos", "airplay", "chromecast", "espuino"]]. *)
Definition is_network_device (device_type : string) : bool :=
  String.eqb device_type "sonos" || String.eqb device_type "airplay"
  || String.eqb device_type "chromecast" || String.eqb device_type "espuino".

(** How [play_tonie_for_reader] starts the device for a tonie
    (l. 754-1660): the device calls, [playback_started] and
    [response.encoding]. *)
Definition start_tonie
    (env : Env) (reader_device : Device)
    (uid audio_url playback_url series episode : string)
    (tonie_tracks : list Track) (start_position : Z) (resume_same : bool)
  : list DeviceCall * bool * bool :=
  let device_type := dev_type reader_device in
  if String.eqb device_type "browser" then ([], true, false)
  else if is_network_device device_type then
    (encode_and_play env reader_device uid audio_url playback_url
       series episode tonie_tracks start_position resume_same,
     true, negb (is_cached env audio_url))
  else if resume_same then
    (resume_or_play env reader_device playback_url start_position, false)
  else
    ([StartPlayback reader_device playback_url start_position],
     play_on_device_ok env reader_device playback_url start_position,
     false).

(** The same for a library item or an unknown tag (l. 1709-1850): the
    device calls and [playback_started]. *)
Definition start_library
    (env : Env) (reader_device : Device) (audio_url : string)
  : list DeviceCall * bool :=
  let device_type := dev_type reader_device in
  if String.eqb device_type "browser" then ([], true)
  else if String.eqb device_type "sonos" || String.eqb device_type "airplay"
          || String.eqb device_type "chromecast"
  then (encode_and_play_lib env reader_device audio_url, true)
  else ([], false).

(** [play_tonie_for_reader] from l. 639 on: the tag is not the current
    one. The reader state is written up to l. 746 (l. 1702 for library
    items and unknown tags); what follows starts the device and fills
    [playback_started], [encoding] and [target] without writing the
    reader state. The encoding itself, the encoding status and the scan
    log are left out. *)
Definition play_fresh
    (env : Env) (reader_ip uid : string)
    (device_override : option Device) (metadata_override : option Overrides)
    (states : gmap string ReaderState) (readers : gmap string ReaderInfo)
    (calls : list DeviceCall)
  : Server * Outcome * list DeviceCall :=
  if negb (client_ready env) then
    ({| reader_states := states; connected_readers := readers |},
     HttpError 503, calls)
  else
    let tonie := find_tonie_by_uid uid (tag_index env) (catalog env) in
    let overrides := default empty_overrides metadata_override in
    let series := str_or (ov_series overrides) (tonie ≫= t_series) in
    let episode :=
      str_or (ov_episode overrides)
        (tonie ≫= (fun t => str_or (t_episodes t) (t_episode t))) in
    let title := str_or (ov_title overrides) (tonie ≫= t_title) in
    let picture := str_or (ov_picture overrides) (tonie ≫= t_picture) in
    let audio_url := audio_url_for env tonie uid in
    let reader_device :=
      match device_override with
      | Some d => d
      | None => device_for_reader env reader_ip
      end in
    let device_type := dev_type reader_device in
    let playback_url := playback_url_for env audio_url device_type in
    let '(playlist_url, track_count) :=
      if String.eqb device_type "espuino" then (None, 1%nat)
      else match playlist_for env audio_url with
           | Some (u, n) => (Some u, n)
           | None => (None, 1%nat)
           end in
    let st := default initial_reader_state (states !! reader_ip) in
    let resume_same := resume_on_same_device uid reader_device (resume st) in
    let '(start_position, st) :=
      match resume st with
      | Some r =>
          if String.eqb (r_uid r) uid
          then (r_position r, set_resume None st)
          else (0%Z, st)
      | None => (0%Z, st)
      end in
    let reported :=
      if String.eqb device_type "browser" then start_position else 0%Z in
    match tonie with
    | Some t =>
        let tonie_tracks := tonie_scan_tracks t in
        let snap :=
          {| snap_uid := uid; snap_series := series; snap_episode := episode;
             snap_title := title; snap_picture := t_picture t;
             snap_audio_url := audio_url; snap_playback_url := playback_url;
             snap_placed_at := now env; snap_start_position := start_position;
             snap_duration := Some (t_duration t); snap_tracks := tonie_tracks;
             snap_track_count := length tonie_tracks |} in
        let st' := set_playing snap (now env) start_position reported reader_device st in
        let started :=
          start_tonie env reader_device uid audio_url playback_url
            (default "" (t_series t)) (default "" (t_episode t))
            tonie_tracks start_position resume_same in
        ({| reader_states := <[reader_ip := st']> states;
            connected_readers := readers |},
         Ok {| resp_uid := uid; resp_series := series; resp_episode := episode;
               resp_title := title; resp_picture := picture; resp_found := true;
               resp_playback_started := started.1.2;
               resp_encoding := started.2;
               resp_playback_url := Some playback_url;
               resp_playlist_url := playlist_url;
               resp_track_count := length tonie_tracks;
               resp_target := Some (dev_id reader_device) |},
         (calls ++ started.1.1)%list)
    | None =>
        let final_series := str_or series (ov_series overrides) in
        let final_title :=
          str_or (str_or (str_or title (ov_title overrides)) final_series)
            (Some "Unknown Tag") in
        let cover_url :=
          str_or picture
            match metadata_override with
            | Some given => ov_picture given
            | None => Some ""
            end in
        let lib_tracks := library_tracks (ov_tracks overrides) in
        let snap :=
          {| snap_uid := uid; snap_series := final_series;
             snap_episode := str_or episode (ov_episode overrides);
             snap_title := final_title; snap_picture := cover_url;
             snap_audio_url := audio_url; snap_playback_url := playback_url;
             snap_placed_at := now env; snap_start_position := start_position;
             snap_duration := None; snap_tracks := lib_tracks;
             snap_track_count := length lib_tracks |} in
        let st' := set_playing snap (now env) start_position reported reader_device st in
        let started := start_library env reader_device audio_url in
        ({| reader_states := <[reader_ip := st']> states;
            connected_readers := readers |},
         Ok {| resp_uid := uid; resp_series := series; resp_episode := episode;
               resp_title := title; resp_picture := picture; resp_found := false;
               resp_playback_started := started.2;
               resp_encoding := false;
               resp_playback_url := Some playback_url;
               resp_playlist_url := playlist_url;
               resp_track_count := track_count;
               resp_target := Some (dev_id reader_device) |},
         (calls ++ started.1)%list)
    end.

(** [play_tonie_for_reader] ([main.py], l. 557); [metadata_override] is
    [None] when the caller gives none. The write-through to the
    persistent reader cache ([update_reader_cache]) is left out. *)
Definition play_tonie_for_reader
    (env : Env) (reader_ip uid : string)
    (device_override : option Device) (metadata_override : option Overrides)
    (srv : Server)
  : Server * Outcome * list DeviceCall :=
  let readers := touch_reader env reader_ip (connected_readers srv) in
  let '(states, st) := get_reader_state reader_ip (reader_states srv) in
  match current_tag st with
  | Some current =>
      if String.eqb (snap_uid current) uid then
        if paused_for uid (resume st) then
          let device := device_of env reader_ip st in
          let resumed := resume_ok env device in
          let st' := if resumed then set_resume None st else st in
          ({| reader_states := <[reader_ip := st']> states;
              connected_readers := readers |},
           Ok (snapshot_response uid current resumed),
           [ResumeDevice device])
        else
          ({| reader_states := states; connected_readers := readers |},
           Ok (snapshot_response uid current false), [])
      else
        let '(states, calls) :=
          stop_reader_playback env reader_ip false false states in
        play_fresh env reader_ip uid device_override metadata_override
          states readers calls
  | None =>
      play_fresh env reader_ip uid device_override metadata_override
        states readers []
  end.
(** [TonieRequest]; [espuino_ip] has been resolved into the reader's
    address by the caller. *)
Record TonieRequest := mkRequest {
  req_uid : option string;
  req_mode : string;
  req_target_device : option Device;
  req_overrides : Overrides;
}.

(** [connected_readers[reader_ip]["scan_count"] += 1]. *)
Definition count_scan (reader_ip : string) (readers : gmap string ReaderInfo)
  : gmap string ReaderInfo :=
  alter (fun info => {| first_seen := first_seen info; last_seen := last_seen info;
                        scan_count := S (scan_count info);
                        reader_name := reader_name info |}) reader_ip readers.

(** [handle_tonie] ([main.py], l. 2074), the [POST /tonie] endpoint. *)
Definition handle_tonie
    (env : Env) (reader_ip : string) (request : TonieRequest) (srv : Server)
  : Server * Outcome * list DeviceCall :=
  let readers := touch_reader env reader_ip (connected_readers srv) in
  match req_uid request with
  | None =>
      let '(states, calls) :=
        stop_reader_playback env reader_ip true true (reader_states srv) in
      ({| reader_states := states; connected_readers := readers |},
       Ok (default_response "" false), calls)
  | Some uid =>
      let readers := count_scan reader_ip readers in
      let reader_configured_device := device_override_for env reader_ip in
      let is_espuino_reader :=
        match reader_configured_device with
        | None => true
        | Some d => String.eqb (dev_type d) "espuino"
        end in
      let device_override :=
        match req_target_device request with
        | Some target =>
            if String.eqb (req_mode request) "stream" then Some target
            else if String.eqb (req_mode request) "local" && is_espuino_reader
            then Some {| dev_type := "espuino"; dev_id := reader_ip |}
            else reader_configured_device
        | None =>
            if String.eqb (req_mode request) "local" && is_espuino_reader
            then Some {| dev_type := "espuino"; dev_id := reader_ip |}
            else reader_configured_device
        end in
      let '(states, st) := get_reader_state reader_ip (reader_states srv) in
      let st :=
        set_stream_mode (Some (req_mode request))
          (if String.eqb (req_mode request) "stream" then device_override else None)
          (Some reader_ip) st in
      play_tonie_for_reader env reader_ip uid device_override
        (Some (req_overrides request))
        {| reader_states := <[reader_ip := st]> states;
           connected_readers := readers |}
  end.

(** The answer of [handle_control_command], or the exception that leaves
    it. *)
Inductive ControlOutcome :=
| ControlDone (success : bool)
| ControlError (error : string)
| ControlRaised (e : PyError).

(** [handle_control_command] ([main.py], l. 3939), the [POST /control]
    endpoint; [action] is [request.action.lower()]. *)
Definition handle_control_command
    (env : Env) (reader_ip action : string) (states : gmap string ReaderState)
  : gmap string ReaderState * ControlOutcome * list DeviceCall :=
  let '(states, st) := get_reader_state reader_ip states in
  match current_tag st with
  | None => (states, ControlError "No active stream", [])
  | Some current =>
      let device :=
        match target_device st with
        | Some d => d
        | None => device_of env reader_ip st
        end in
      if negb (Py.truthy (dev_type device))
      then (states, ControlError "No device configured", [])
      else if String.eqb action "play" then
        if is_playing env device
        then (states, ControlDone (pause_ok env device),
              [IsPlaying device; PauseDevice device])
        else (states, ControlDone (resume_ok env device),
              [IsPlaying device; ResumeDevice device])
      else if String.eqb action "pause" then
        (states, ControlDone (pause_ok env device), [PauseDevice device])
      else if String.eqb action "stop" then
        (<[reader_ip :=
             set_stream_mode (Some "local") None (espuino_ip st)
               (set_current_tag None st)]> states,
         ControlDone (stop_ok env device), [StopDevice device])
      else if String.eqb action "skip" then
        let current_pos := last_reported_position st in
        match default (Some 0%Z) (snap_duration current) with
        | None =>
            (* [None > 0] at l. 3989 *)
            (states, ControlRaised TypeError, [])
        | Some duration =>
            if (duration >? 0)%Z then
              let new_pos := Z.min (current_pos + 60) (duration - 1) in
              if seek_ok env device new_pos then
                (<[reader_ip :=
                     {| current_tag := current_tag st;
                        current_started_at := current_started_at st;
                        current_offset := current_offset st;
                        resume := resume st;
                        last_reported_position := new_pos;
                        current_device := current_device st;
                        mode := mode st;
                        target_device := target_device st;
                        espuino_ip := espuino_ip st |}]> states,
                 ControlDone true, [SeekDevice device new_pos])
              else (states, ControlDone false, [SeekDevice device new_pos])
            else (states, ControlDone false, [])
        end
      else if String.eqb action "prev" then
        let new_pos := Z.max (last_reported_position st - 60) 0 in
        if seek_ok env device new_pos then
          (<[reader_ip :=
               {| current_tag := current_tag st;
                  current_started_at := current_started_at st;
                  current_offset := current_offset st;
                  resume := resume st;
                  last_reported_position := new_pos;
                  current_device := current_device st;
                  mode := mode st;
                  target_device := target_device st;
                  espuino_ip := espuino_ip st |}]> states,
           ControlDone true, [SeekDevice device new_pos])
        else (states, ControlDone false, [SeekDevice device new_pos])
      else if String.eqb action "volume_up" || String.eqb action "volume_down"
      then (states, ControlDone true, [])
      else (states, ControlError ("Unknown action: " +:+ action), [])
  end.

(** The stale-stream check inside [get_streams] ([main.py], l. 2215-2239),
    for one reader: an SD-player stream of a physical reader not seen for
    more than 180 seconds loses its [current_tag]. *)
Definition reap_stale_reader
    (env : Env) (readers : gmap string ReaderInfo)
    (reader_ip : string) (st : ReaderState) : ReaderState :=
  match current_tag st with
  | None => st
  | Some _ =>
      let device := device_of env reader_ip st in
      if String.eqb (dev_type device) "espuino"
         && negb (_is_virtual_reader reader_ip)
      then match readers !! reader_ip with
           | Some info =>
               if (now env - last_seen info >? 180)%Z
               then set_current_tag None st
               else st
           | None => st
           end
      else st
  end.

(** The effect of [get_streams] ([GET /streams]) on the server state. *)
Definition get_streams (env : Env) (srv : Server) : Server :=
  {| reader_states :=
       map_imap (fun ip st => Some (reap_stale_reader env (connected_readers srv) ip st))
         (reader_states srv);
     connected_readers := connected_readers srv |}.

(** [reader_playback_pause] ([main.py], l. 3810). *)
Definition reader_playback_pause
    (env : Env) (reader_ip : string) (states : gmap string ReaderState)
  : gmap string ReaderState * list DeviceCall :=
  let '(states, st) := get_reader_state reader_ip states in
  let device := device_of env reader_ip st in
  match current_tag st with
  | Some current =>
      let '(position, calls) := get_resume_position env st device in
      (<[reader_ip :=
           {| current_tag := current_tag st;
              current_started_at := None;
              current_offset := position;
              resume := Some {| r_uid := snap_uid current; r_position := position;
                                r_device := device; r_paused := true |};
              last_reported_position := position;
              current_device := current_device st;
              mode := mode st;
              target_device := target_device st;
              espuino_ip := espuino_ip st |}]> states,
       (calls ++ [PauseDevice device])%list)
  | None => (states, [PauseDevice device])
  end.

(** [reader_playback_stop] ([main.py], l. 3838). *)
Definition reader_playback_stop
    (env : Env) (reader_ip : string) (states : gmap string ReaderState)
  : gmap string ReaderState * list DeviceCall :=
  stop_reader_playback env reader_ip true false states.

(** *** Requests as events

    The requests that write the reader states, as labelled transitions of
    the server. *)
Inductive Event :=
| PostTonie (reader_ip : string) (request : TonieRequest)
| PlaybackPause (reader_ip : string)
| PlaybackStop (reader_ip : string)
| Control (reader_ip action : string)
| GetStreams.

Definition apply_event (env : Env) (ev : Event) (srv : Server) : Server :=
  match ev with
  | PostTonie ip request => (handle_tonie env ip request srv).1.1
  | PlaybackPause ip =>
      {| reader_states := (reader_playback_pause env ip (reader_states srv)).1;
         connected_readers := connected_readers srv |}
  | PlaybackStop ip =>
      {| reader_states := (reader_playback_stop env ip (reader_states srv)).1;
         connected_readers := connected_readers srv |}
  | Control ip action =>
      {| reader_states :=
           (handle_control_command env ip action (reader_states srv)).1.1;
         connected_readers := connected_readers srv |}
  | GetStreams => get_streams env srv
  end.

Definition initial_server : Server :=
  {| reader_states := ∅; connected_readers := ∅ |}.

(** States reachable from the empty server through events that satisfy
    [allowed]. *)
Inductive reachable (allowed : Env -> Event -> Prop) : Server -> Prop :=
| reachable_init : reachable allowed initial_server
| reachable_step srv env ev :
    reachable allowed srv -> allowed env ev ->
    reachable allowed (apply_event env ev srv).

(** Every event. *)
Definition any_event (env : Env) (ev : Event) : Prop := True.

(** The events that keep a paused tag displayed: everything but the
    [stop] command of [POST /control], the stale-stream check of
    [GET /streams], and a scan answered by 503 for want of a content
    client. *)
Definition keeps_paused_tag (env : Env) (ev : Event) : Prop :=
  match ev with
  | PostTonie _ request => req_uid request = None \/ client_ready env = true
  | PlaybackPause _ | PlaybackStop _ => True
  | Control _ action => action <> "stop"
  | GetStreams => False
  end.

(** [resume.paused = true] implies that [current_tag] is set. *)
Definition paused_has_tag (st : ReaderState) : Prop :=
  forall r, resume st = Some r -> r_paused r = true -> is_Some (current_tag st).

(** The [current_tag] of a reader, [None] also when it has no state yet. *)
Definition current_tag_of (srv : Server) (reader_ip : string)
  : option TagSnapshot :=
  reader_states srv !! reader_ip ≫= current_tag.

(** The state of a reader as [get_reader_state] shows it. *)
Definition state_of (states : gmap string ReaderState) (reader_ip : string)
  : ReaderState :=
  (get_reader_state reader_ip states).2.

(** The invariant on all readers, and on all readers but one. *)
Definition all_paused_have_tag (states : gmap string ReaderState) : Prop :=
  forall k st, states !! k = Some st -> paused_has_tag st.

Definition others_paused_have_tag (ip : string)
    (states : gmap string ReaderState) : Prop :=
  forall k st, k <> ip -> states !! k = Some st -> paused_has_tag st.

(** ** [transcoding.py]: the multi-track cache

    [_encoding_status] is not modelled: its [progress] field is computed in
    floating point. Progress notifications to the reader and the
    [on_track_complete] callback are left out as well; neither writes to
    the cache directory. *)

Module TrackInfo.
(** The dataclass [TrackInfo] ([transcoding.py], l. 122). *)
Record t := mk {
  index : nat;
  name : string;
  start_seconds : Z;
  duration_seconds : Z;
  filename : string;
}.
End TrackInfo.

Module TonieMetadata.
(** The dataclass [TonieMetadata] ([transcoding.py], l. 136), which is also
    the content of [metadata.json]. *)
Record t := mk {
  title : string;
  artist : string;
  album : string;
  year : string;
  tracks : list TrackInfo.t;
  source_url : string;
  total_duration : Z;
}.
End TonieMetadata.

(** What [stat()] tells about a file. *)
Record FileStat := mkStat {
  st_size : Z;
  st_atime : Z;
}.

(** A fingerprint directory: its files other than [metadata.json], by
    name, and the decoded [metadata.json] when it exists. *)
Record Folder := mkFolder {
  files : gmap string FileStat;
  metadata : option TonieMetadata.t;
}.

(** An entry of [CACHE_DIR]: a fingerprint directory or a loose file. *)
Inductive CacheItem :=
| IsDir (d : Folder)
| IsFile (s : FileStat).

(** The module state of [transcoding.py] with the cache directory:
    [cache] lists [CACHE_DIR] in the order of [iterdir()], and [held] is the
    set of keys of [_encoding_locks] whose lock is taken. *)
Record Transcoding := mkTranscoding {
  cache : list (string * CacheItem);
  held : gset string;
}.

(** The answers of the outside world to the encoder. *)
Record EncoderEnv := mkEncoderEnv {
  (** [encode_track_to_mp3] for track [i]: the file it moved into place, or
      [None] when it returned [False]. *)
  ffmpeg : nat -> option FileStat;
  (** [int(total_duration / 60 * 10 * 1024 * 1024)], a float computation. *)
  estimated_size : Z -> Z;
  (** [settings.audio_cache_max_mb * 1024 * 1024]. *)
  max_bytes : Z;
  (** What [GET cover_url] gives in [fetch_cover_image]: nothing usable
      (an exception, a status other than 200, a content type that is not
      an image), or the image: whether its content type contains [png],
      and the file that [write_bytes] leaves, of size [len(data)]. *)
  cover_download : string -> option (bool * FileStat);
  (** [has_embedded_cover] on a track file of the directory. *)
  has_embedded_cover : string -> bool;
}.

(** [glob("*.mp3")], [rglob("*.mp3")] and [suffix == ".mp3"] on the
    names that the cache holds: directories named by a cache key, a
    digest in hexadecimal, and their files, and loose files
    [{key}.mp3]. On these the three tests are the test for the ending
    [.mp3], and no directory passes it. *)
Definition is_mp3 (fname : string) : bool := Py.endswith fname ".mp3".

(** [f"{i + 1:02d}.mp3"]. *)
Definition track_filename (i : nat) : string :=
  Py.format_0d 2 (Z.of_nat i + 1) +:+ ".mp3".

(** [list(item.glob("*.mp3"))] with the [stat()] of each. *)
Definition mp3s_of (d : Folder) : list (string * FileStat) :=
  List.filter (fun '(fname, _) => is_mp3 fname) (map_to_list (files d)).

Definition sum_sizes (l : list (string * FileStat)) : Z :=
  fold_right (fun '(_, s) acc => (st_size s + acc)%Z) 0%Z l.

(** [min(f.stat().st_atime for f in mp3s)] on a non-empty list. *)
Definition min_atime (first : FileStat) (rest : list (string * FileStat)) : Z :=
  fold_right (fun '(_, s) acc => Z.min (st_atime s) acc) (st_atime first) rest.

(** The number of bytes an entry counts for in [get_cache_size]. *)
Definition entry_size (entry : string * CacheItem) : Z :=
  match entry with
  | (_, IsDir d) => sum_sizes (mp3s_of d)
  | (fname, IsFile s) => if is_mp3 fname then st_size s else 0%Z
  end.

(** [get_cache_size] ([transcoding.py], l. 234). *)
Definition get_cache_size (c : list (string * CacheItem)) : Z :=
  fold_right (fun entry acc => (entry_size entry + acc)%Z) 0%Z c.

(** An element of [items] in [cleanup_cache]:
    [(item, oldest_time, item_size, is_folder)]. *)
Record EvictItem := mkItem {
  item_name : string;
  item_atime : Z;
  item_size : Z;
  is_folder : bool;
}.

(** The first loop of [cleanup_cache]: directories with at least one MP3,
    and loose MP3 files. *)
Fixpoint collect_items (c : list (string * CacheItem)) : list EvictItem :=
  match c with
  | [] => []
  | (fname, IsDir d) :: rest =>
      match mp3s_of d with
      | [] => collect_items rest
      | (_, s) :: more =>
          {| item_name := fname; item_atime := min_atime s more;
             item_size := sum_sizes (mp3s_of d); is_folder := true |}
          :: collect_items rest
      end
  | (fname, IsFile s) :: rest =>
      if is_mp3 fname then
        {| item_name := fname; item_atime := st_atime s;
           item_size := st_size s; is_folder := false |}
        :: collect_items rest
      else collect_items rest
  end.

(** [items.sort(key=lambda x: x[1])]: a stable sort by access time. *)
Fixpoint insert_item (x : EvictItem) (l : list EvictItem) : list EvictItem :=
  match l with
  | [] => [x]
  | y :: l' =>
      if (item_atime x <=? item_atime y)%Z then x :: l
      else y :: insert_item x l'
  end.

Definition sort_items (l : list EvictItem) : list EvictItem :=
  fold_right insert_item [] l.

(** [shutil.rmtree(item)] or [item.unlink()]. *)
Definition remove_entry (fname : string) (c : list (string * CacheItem))
  : list (string * CacheItem) :=
  List.filter (fun entry => negb (String.eqb (fst entry) fname)) c.

(** The [while current_size > target_bytes and items] loop: the cache and
    the names evicted, in order. *)
Fixpoint evict_loop (current_size target_bytes : Z) (items : list EvictItem)
    (c : list (string * CacheItem)) : list (string * CacheItem) * list string :=
  match items with
  | [] => (c, [])
  | item :: rest =>
      if (current_size >? target_bytes)%Z then
        let '(c', evicted) :=
          evict_loop (current_size - item_size item) target_bytes rest
            (remove_entry (item_name item) c) in
        (c', item_name item :: evicted)
      else (c, [])
  end.

(** [cleanup_cache] ([transcoding.py], l. 371), with the names it evicted
    instead of the number of bytes freed. *)
Definition cleanup_cache (target_bytes : Z) (st : Transcoding)
  : Transcoding * list string :=
  let items := sort_items (collect_items (cache st)) in
  let '(c', evicted) :=
    evict_loop (get_cache_size (cache st)) target_bytes items (cache st) in
  ({| cache := c'; held := held st |}, evicted).

(** [ensure_cache_space] ([transcoding.py], l. 412). *)
Definition ensure_cache_space (env : EncoderEnv) (needed_bytes : Z)
    (st : Transcoding) : Transcoding * list string :=
  if (get_cache_size (cache st) + needed_bytes >? max_bytes env)%Z
  then cleanup_cache (max_bytes env - needed_bytes) st
  else (st, []).



(** *** Reading and writing the cache directory *)

Fixpoint lookup_entry (key : string) (c : list (string * CacheItem))
  : option CacheItem :=
  match c with
  | [] => None
  | (k, item) :: rest => if String.eqb k key then Some item else lookup_entry key rest
  end.

Definition folder_of (key : string) (c : list (string * CacheItem))
  : option Folder :=
  match lookup_entry key c with
  | Some (IsDir d) => Some d
  | _ => None
  end.

Definition empty_folder : Folder := {| files := ∅; metadata := None |}.

(** [cache_dir.mkdir(parents=True, exist_ok=True)]; where a new directory
    shows up in [iterdir()] is the file system's choice, here the end. *)
Definition mkdir (key : string) (c : list (string * CacheItem))
  : list (string * CacheItem) :=
  match lookup_entry key c with
  | Some _ => c
  | None => (c ++ [(key, IsDir empty_folder)])%list
  end.

Fixpoint update_folder (key : string) (f : Folder -> Folder)
    (c : list (string * CacheItem)) : list (string * CacheItem) :=
  match c with
  | [] => []
  | (k, item) :: rest =>
      if String.eqb k key then
        match item with
        | IsDir d => (k, IsDir (f d)) :: rest
        | IsFile _ => (k, item) :: rest
        end
      else (k, item) :: update_folder key f rest
  end.

(** The end of a successful [encode_track_to_mp3]: the parent directory
    is made again if needed and the temporary file moved into place. *)
Definition write_track (key fname : string) (s : FileStat)
    (c : list (string * CacheItem)) : list (string * CacheItem) :=
  update_folder key
    (fun d => {| files := <[fname := s]> (files d); metadata := metadata d |})
    (mkdir key c).

(** [with open(metadata_path, "w") as f: json.dump(...)]: [None] stands for
    the [FileNotFoundError] raised when the directory is gone. *)
Definition write_metadata (key : string) (m : TonieMetadata.t)
    (c : list (string * CacheItem)) : option (list (string * CacheItem)) :=
  match folder_of key c with
  | Some _ =>
      Some (update_folder key
              (fun d => {| files := files d; metadata := Some m |}) c)
  | None => None
  end.

(** [path.exists() and path.stat().st_size > 0] for a file of a directory. *)
Definition exists_nonempty (key fname : string) (c : list (string * CacheItem))
  : bool :=
  match folder_of key c ≫= (fun d => files d !! fname) with
  | Some s => (st_size s >? 0)%Z
  | None => false
  end.

(** [path.exists()]. *)
Definition file_exists (key fname : string) (c : list (string * CacheItem))
  : bool :=
  match folder_of key c ≫= (fun d => files d !! fname) with
  | Some _ => true
  | None => false
  end.

(** *** The cover image *)

(** The names under which [fetch_cover_image] looks for a cover. *)
Definition cover_candidates : list string :=
  ["cover.jpg"; "cover.jpeg"; "cover.png"].

(** [fetch_cover_image] ([transcoding.py], l. 64) on the directory of
    [key]: the cache afterwards and the name of the cover file, if
    any. *)
Definition fetch_cover_image
    (env : EncoderEnv) (cover_url key : string) (c : list (string * CacheItem))
  : list (string * CacheItem) * option string :=
  if negb (Py.truthy cover_url) then (c, None)
  else
    let c := mkdir key c in
    match List.find (fun fname => exists_nonempty key fname c) cover_candidates with
    | Some fname => (c, Some fname)
    | None =>
        match cover_download env cover_url with
        | None => (c, None)
        | Some (png, data) =>
            if (st_size data =? 0)%Z || (st_size data >? 5 * 1024 * 1024)%Z
            then (c, None)
            else
              let fname := if png then "cover.png" else "cover.jpg" in
              (update_folder key
                 (fun d => {| files := <[fname := data]> (files d);
                              metadata := metadata d |}) c,
               Some fname)
        end
    end.

(** *** The encoders *)

(** [album] and [artist] of the ID3 tags. *)
Definition album_of (series episode : string) : string :=
  if Py.truthy series && Py.truthy episode then series +:+ " - " +:+ episode
  else if Py.truthy episode then episode
  else if Py.truthy series then series
  else "Unknown".

Definition artist_of (series : string) : string :=
  if Py.truthy series then series else "Tonie".

(** [sum(t.get("duration", 0) for t in tracks)]. *)
Definition total_duration_of (tracks : list Track) : Z :=
  fold_right (fun t acc => (default 0 (duration t) + acc)%Z) 0%Z tracks.

(** [enumerate(tracks)], from [first]. *)
Definition enumerate_from {A} (first : nat) (l : list A) : list (nat * A) :=
  combine (seq first (length l)) l.

(** How an encoder call ends: with metadata, with [None], with an
    exception, or waiting for a lock that another call holds. *)
Inductive EncodeResult :=
| Encoded (m : TonieMetadata.t)
| ReturnedNone
| Raised
| Waiting.

Definition track_info_of (i : nat) (track : Track) : TrackInfo.t :=
  {| TrackInfo.index := i;
     TrackInfo.name := default (default_track_name i) (name track);
     TrackInfo.start_seconds := default 0%Z (start track);
     TrackInfo.duration_seconds := default 0%Z (duration track);
     TrackInfo.filename := track_filename i |}.

(** The loop [for i, track in enumerate(tracks)] of [encode_tonie_tracks]
    ([transcoding.py], l. 697-761); [None] when a track failed. *)
Fixpoint encode_all (env : EncoderEnv) (key : string)
    (its : list (nat * Track)) (track_infos : list TrackInfo.t)
    (c : list (string * CacheItem))
  : list (string * CacheItem) * option (list TrackInfo.t) :=
  match its with
  | [] => (c, Some track_infos)
  | (i, track) :: rest =>
      if (default 0 (duration track) <=? 0)%Z
      then encode_all env key rest track_infos c
      else match ffmpeg env i with
           | None => (c, None)
           | Some s =>
               encode_all env key rest
                 (track_infos ++ [track_info_of i track])%list
                 (write_track key (track_filename i) s c)
           end
  end.

(** The input positions of the tracks that the encoder does not skip. *)
Definition kept_positions (its : list (nat * Track)) : list nat :=
  map fst (List.filter (fun it => (0 <? default 0 (duration (snd it)))%Z) its).

(** [encode_tonie_tracks] from the cache check (l. 615) on, for a
    track list that is not empty. The lock is held from the second cache
    check to the return. *)
Definition encode_album
    (env : EncoderEnv) (key source_url : string) (tracks : list Track)
    (series episode year : string) (st : Transcoding)
  : Transcoding * EncodeResult :=
  match tracks with
  | [] => (st, ReturnedNone)
  | _ =>
      match folder_of key (cache st) ≫= metadata with
      | Some m => (st, Encoded m)
      | None =>
          if decide (key ∈ held st) then (st, Waiting)
          else
            let st1 := {| cache := mkdir key (cache st);
                          held := {[key]} ∪ held st |} in
            let total_duration := total_duration_of tracks in
            let '(st2, _) :=
              ensure_cache_space env (estimated_size env total_duration) st1 in
            let album := album_of series episode in
            let artist := artist_of series in
            let '(c3, encoded) :=
              encode_all env key (enumerate_from 0 tracks) [] (cache st2) in
            let release c := {| cache := c; held := held st2 ∖ {[key]} |} in
            match encoded with
            | None => (release c3, ReturnedNone)
            | Some track_infos =>
                let m :=
                  {| TonieMetadata.title := album;
                     TonieMetadata.artist := artist;
                     TonieMetadata.album := album;
                     TonieMetadata.year := year;
                     TonieMetadata.tracks := track_infos;
                     TonieMetadata.source_url := source_url;
                     TonieMetadata.total_duration := total_duration |} in
                match write_metadata key m c3 with
                | Some c4 => (release c4, Encoded m)
                | None => (release c3, Raised)
                end
            end
      end
  end.

(** [encode_tonie_tracks] ([transcoding.py], l. 580); [key] is
    [get_tonie_cache_key(source_url)]. The cover is fetched (l. 612)
    before the cache is looked at. *)
Definition encode_tonie_tracks
    (env : EncoderEnv) (key source_url : string) (tracks : list Track)
    (series episode year cover_url : string) (st : Transcoding)
  : Transcoding * EncodeResult :=
  match tracks with
  | [] => (st, ReturnedNone)
  | _ =>
      let '(c, cover_path) := fetch_cover_image env cover_url key (cache st) in
      encode_album env key source_url tracks series episode year
        {| cache := c; held := held st |}
  end.

(** How [encode_first_track] ends: with the path of the first track, with
    [None], or waiting for the lock. *)
Inductive FirstTrackResult :=
| FirstReady
| FirstFailed
| FirstWaiting.

(** [encode_first_track] from the check of the first track (l. 866)
    on. *)
Definition encode_first_file
    (env : EncoderEnv) (key : string) (tracks : list Track) (st : Transcoding)
  : Transcoding * FirstTrackResult :=
  match tracks with
  | [] => (st, FirstFailed)
  | first_track :: _ =>
      if exists_nonempty key (track_filename 0) (cache st) then (st, FirstReady)
      else if decide (key ∈ held st) then (st, FirstWaiting)
      else
        let st1 := {| cache := mkdir key (cache st);
                      held := {[key]} ∪ held st |} in
        let '(st2, _) :=
          ensure_cache_space env
            (estimated_size env (default 60%Z (duration first_track))) st1 in
        let release c := {| cache := c; held := held st2 ∖ {[key]} |} in
        match ffmpeg env 0 with
        | None => (release (cache st2), FirstFailed)
        | Some s =>
            (release (write_track key (track_filename 0) s (cache st2)),
             FirstReady)
        end
  end.

(** [encode_first_track] ([transcoding.py], l. 837). The cover is fetched
    (l. 863) before the first track is looked for. *)
Definition encode_first_track
    (env : EncoderEnv) (key : string) (tracks : list Track)
    (cover_url : string) (st : Transcoding)
  : Transcoding * FirstTrackResult :=
  match tracks with
  | [] => (st, FirstFailed)
  | _ =>
      let '(c, cover_path) := fetch_cover_image env cover_url key (cache st) in
      encode_first_file env key tracks {| cache := c; held := held st |}
  end.

(** The loop [for i in range(1, len(tracks))] of
    [continue_encoding_remaining_tracks] ([transcoding.py], l. 1056-1156). *)
Fixpoint encode_rest (env : EncoderEnv) (key : string) (cover_path : bool)
    (its : list (nat * Track)) (track_infos : list TrackInfo.t)
    (c : list (string * CacheItem))
  : list (string * CacheItem) * option (list TrackInfo.t) :=
  match its with
  | [] => (c, Some track_infos)
  | (i, track) :: rest =>
      if (default 0 (duration track) <=? 0)%Z
      then encode_rest env key cover_path rest track_infos c
      else if exists_nonempty key (track_filename i) c
              && negb (cover_path
                       && negb (has_embedded_cover env (track_filename i)))
      then encode_rest env key cover_path rest
             (track_infos ++ [track_info_of i track])%list c
      else match ffmpeg env i with
           | None => (c, None)
           | Some s =>
               encode_rest env key cover_path rest
                 (track_infos ++ [track_info_of i track])%list
                 (write_track key (track_filename i) s c)
           end
  end.

(** The entry for the first track, which is taken as encoded. *)
Definition first_track_info (first_track : Track) : TrackInfo.t :=
  {| TrackInfo.index := 0;
     TrackInfo.name := default "Track 1" (name first_track);
     TrackInfo.start_seconds := default 0%Z (start first_track);
     TrackInfo.duration_seconds := default 0%Z (duration first_track);
     TrackInfo.filename := "01.mp3" |}.

(** [continue_encoding_remaining_tracks] ([transcoding.py], l. 961).
    With more than one track the cover is fetched first (l. 1024). *)
Definition continue_encoding_remaining_tracks
    (env : EncoderEnv) (key source_url : string) (tracks : list Track)
    (series episode year cover_url : string) (st : Transcoding)
  : Transcoding * EncodeResult :=
  let album := album_of series episode in
  let artist := artist_of series in
  match tracks with
  | [] => (st, Raised)
  | [first_track] =>
      let m :=
        {| TonieMetadata.title := album;
           TonieMetadata.artist := artist;
           TonieMetadata.album := album;
           TonieMetadata.year := year;
           TonieMetadata.tracks := [first_track_info first_track];
           TonieMetadata.source_url := source_url;
           TonieMetadata.total_duration := default 0%Z (duration first_track) |} in
      match write_metadata key m (cache st) with
      | Some c => ({| cache := c; held := held st |}, Encoded m)
      | None => (st, Raised)
      end
  | first_track :: others =>
      let '(c, cover_path) := fetch_cover_image env cover_url key (cache st) in
      let st := {| cache := c; held := held st |} in
      let lock := key +:+ "_remaining" in
      if decide (lock ∈ held st) then (st, Waiting)
      else
        let '(c, encoded) :=
          encode_rest env key (bool_decide (is_Some cover_path))
            (enumerate_from 1 others)
            [first_track_info first_track] (cache st) in
        match encoded with
        | None => ({| cache := c; held := held st |}, ReturnedNone)
        | Some track_infos =>
            let m :=
              {| TonieMetadata.title := album;
                 TonieMetadata.artist := artist;
                 TonieMetadata.album := album;
                 TonieMetadata.year := year;
                 TonieMetadata.tracks := track_infos;
                 TonieMetadata.source_url := source_url;
                 TonieMetadata.total_duration := total_duration_of tracks |} in
            match write_metadata key m c with
            | Some c' => ({| cache := c'; held := held st |}, Encoded m)
            | None => ({| cache := c; held := held st |}, Raised)
            end
        end
  end.

(** The loop of [get_concatenated_mp3_path] ([transcoding.py], l. 1249)
    that collects the track files by position in the metadata; [None] when
    one is missing. *)
Fixpoint collect_track_files (key : string) (c : list (string * CacheItem))
    (its : list (nat * TrackInfo.t)) : option (list string) :=
  match its with
  | [] => Some []
  | (i, _) :: rest =>
      if file_exists key (track_filename i) c
      then cons (track_filename i) <$> collect_track_files key c rest
      else None
  end.

Definition concat_track_files (key : string) (c : list (string * CacheItem))
  : option (list string) :=
  match folder_of key c ≫= metadata with
  | Some m =>
      collect_track_files key c (enumerate_from 0 (TonieMetadata.tracks m))
  | None => None
  end.

(** ** [main.py]: the M3U playlist *)

(** The values found in a decoded track entry of [metadata.json]. *)
Inductive PyVal :=
| PInt (n : Z)
| PStr (s : string)
| PNone.

(** [str(v)], as an f-string formats it. *)
Definition py_str (v : PyVal) : string :=
  match v with
  | PInt n => Py.str_of_Z n
  | PStr s => s
  | PNone => "None"
  end.

(** [TrackInfo.to_dict], that is [asdict(self)]: the keys are the field
    names of the dataclass. *)
Definition to_dict (t : TrackInfo.t) : gmap string PyVal :=
  {[ "index" := PInt (Z.of_nat (TrackInfo.index t));
     "name" := PStr (TrackInfo.name t);
     "start_seconds" := PInt (TrackInfo.start_seconds t);
     "duration_seconds" := PInt (TrackInfo.duration_seconds t);
     "filename" := PStr (TrackInfo.filename t) ]}.

(** The ["tracks"] list of [metadata.json] as [json.load] returns it. *)
Definition metadata_tracks_json (m : TonieMetadata.t) : list (gmap string PyVal) :=
  map to_dict (TonieMetadata.tracks m).

(** How an endpoint that serves text ends: with a body, with an
    [HTTPException], or with another exception that leaves the handler,
    which the framework answers with status 500 and no body of the
    handler. *)
Inductive TextResponse :=
| Content (body : string)
| Failure (status : Z)
| Unhandled (e : PyError).

Definition newline : string := String (ascii_of_nat 10) "".

(** The two lines of one track, [None] when [track.get("index", 0) + 1]
    raises because the index is not a number. *)
Definition m3u_track_lines (server_base cache_key : string)
    (track : gmap string PyVal) : option (list string) :=
  match default (PInt 0) (track !! "index") with
  | PInt index =>
      let track_num := (index + 1)%Z in
      let track_name :=
        default (PStr ("Track " +:+ Py.str_of_Z track_num)) (track !! "name") in
      let duration := default (PInt (-1)) (track !! "duration") in
      Some [ "#EXTINF:" +:+ py_str duration +:+ "," +:+ py_str track_name;
             server_base +:+ "/tracks/" +:+ cache_key +:+ "/"
               +:+ Py.format_0d 2 track_num +:+ ".mp3" ]
  | _ => None
  end.

Fixpoint m3u_lines (server_base cache_key : string)
    (tracks : list (gmap string PyVal)) : option (list string) :=
  match tracks with
  | [] => Some []
  | track :: rest =>
      match m3u_track_lines server_base cache_key track with
      | Some ls =>
          app ls <$> m3u_lines server_base cache_key rest
      | None => None
      end
  end.

(** [m3u_content] as l. 3507-3519 build it, [None] when a track entry
    raises [TypeError]. *)
Definition m3u_content (server_base cache_key : string)
    (tracks : list (gmap string PyVal)) : option string :=
  (fun ls => Py.join newline ("#EXTM3U" :: ls) +:+ newline)
  <$> m3u_lines server_base cache_key tracks.

(** [get_playlist_m3u] ([main.py], l. 3476); [server_base] is
    [str(request.base_url).rstrip("/")]. The content is handed to
    [Response] (l. 3521), a name that [main.py] does not import. *)
Definition get_playlist_m3u (server_base cache_key : string)
    (c : list (string * CacheItem)) : TextResponse :=
  match folder_of cache_key c ≫= metadata with
  | None => Failure 404
  | Some m =>
      match metadata_tracks_json m with
      | [] => Failure 404
      | tracks =>
          match m3u_content server_base cache_key tracks with
          | Some body =>
              if imported "Response" then Content body
              else Unhandled (NameError "Response")
          | None => Unhandled TypeError
          end
      end
  end.

(** The playlist that the specification describes: the duration of each
    track after [#EXTINF:]. *)
Definition expected_m3u_lines (server_base cache_key : string)
    (tracks : list TrackInfo.t) : list string :=
  "#EXTM3U"
  :: flat_map (fun t =>
       [ "#EXTINF:" +:+ Py.str_of_Z (TrackInfo.duration_seconds t) +:+ ","
           +:+ TrackInfo.name t;
         server_base +:+ "/tracks/" +:+ cache_key +:+ "/"
           +:+ Py.format_0d 2 (Z.of_nat (TrackInfo.index t) + 1) +:+ ".mp3" ])
       tracks.

(** The playlist that is served: [-1] after [#EXTINF:]. *)
Definition served_m3u_lines (server_base cache_key : string)
    (tracks : list TrackInfo.t) : list string :=
  "#EXTM3U"
  :: flat_map (fun t =>
       [ "#EXTINF:-1," +:+ TrackInfo.name t;
         server_base +:+ "/tracks/" +:+ cache_key +:+ "/"
           +:+ Py.format_0d 2 (Z.of_nat (TrackInfo.index t) + 1) +:+ ".mp3" ])
       tracks.

(** ** [devices.py]: upload to an SD-capable device *)

(** How one [POST] of the file ends. *)
Inductive AttemptOutcome :=
| Status200
| StatusOther (status : Z) (text : string)
| TimedOut
| TaskCancelled
| OtherError (message : string).

(** The answers of the outside world during one upload: whether the file
    exists, [_should_cancel_upload(ip)] before the loop, at the head of
    attempt [k] and in the handler of [CancelledError] of attempt [k], and
    how attempt [k] ends. *)
Record UploadEnv := mkUploadEnv {
  source_exists : bool;
  cancel_before_start : bool;
  cancel_at : nat -> bool;
  cancel_seen_after : nat -> bool;
  outcome : nat -> AttemptOutcome;
}.

(** What the upload does, in order. *)
Inductive UploadEvent :=
| SetStatus (status : string)
| EnsureDir
| Sleep (seconds : Z)
| Post (attempt : nat).

(** [{"success": ..., "error": ...}]. *)
Record UploadResult := mkUploadResult {
  success : bool;
  error : option string;
}.

(** [5 * (2 ** (attempt - 1))]. *)
Definition retry_delay (attempt : nat) : Z := (5 * 2 ^ (Z.of_nat attempt - 1))%Z.

(** The retry loop [for attempt in range(max_retries)]
    ([devices.py], l. 2130-2321) over the attempts still to make. *)
Fixpoint retry_loop (env : UploadEnv) (attempts : list nat)
    (last_error : option string) : UploadResult * list UploadEvent :=
  match attempts with
  | [] =>
      ({| success := false; error := last_error |}, [SetStatus "error"])
  | attempt :: rest =>
      if cancel_at env attempt then
        ({| success := false; error := Some "Cancelled by user" |},
         [SetStatus "error"])
      else
        let before :=
          if (0 <? attempt)%nat
          then [SetStatus "retrying"; Sleep (retry_delay attempt)]
          else [] in
        let posting := (before ++ [SetStatus "uploading"; Post attempt])%list in
        match outcome env attempt with
        | Status200 =>
            ({| success := true; error := None |},
             (posting ++ [SetStatus "complete"])%list)
        | StatusOther status text =>
            let '(r, evs) :=
              retry_loop env rest
                (Some ("HTTP " +:+ Py.str_of_Z status +:+ ": " +:+ text)) in
            (r, (posting ++ evs)%list)
        | TimedOut =>
            let '(r, evs) := retry_loop env rest (Some "Timeout") in
            (r, (posting ++ evs)%list)
        | TaskCancelled =>
            let last_error :=
              if cancel_seen_after env attempt then "Cancelled by user"
              else "Stalled: no progress for 10s" in
            ({| success := false; error := Some last_error |},
             (posting ++ [SetStatus "error"])%list)
        | OtherError message =>
            let '(r, evs) := retry_loop env rest (Some message) in
            (r, (posting ++ evs)%list)
        end
  end.

(** [upload_to_espuino] ([devices.py], l. 2034). *)
Definition upload_to_espuino (env : UploadEnv) (max_retries : nat)
  : UploadResult * list UploadEvent :=
  if negb (source_exists env) then
    ({| success := false; error := Some "File not found" |}, [])
  else if cancel_before_start env then
    ({| success := false; error := Some "Cancelled by user" |},
     [SetStatus "error"])
  else
    let '(r, evs) := retry_loop env (seq 0 max_retries) None in
    (r, (SetStatus "uploading" :: EnsureDir :: evs)%list).

(** The default of the parameter [max_retries]. *)
Definition default_max_retries : nat := 3.

(** The back-off delays and the attempts of a run. *)
Definition sleeps (evs : list UploadEvent) : list Z :=
  omap (fun ev => match ev with Sleep d => Some d | _ => None end) evs.

Definition posts (evs : list UploadEvent) : list nat :=
  omap (fun ev => match ev with Post k => Some k | _ => None end) evs.

(** ** More Python string primitives *)

Module PyStr.

(** [s.replace(a, b)] for one-character [a] and [b]. *)
Fixpoint replace_char (a b : ascii) (s : string) : string :=
  match s with
  | EmptyString => EmptyString
  | String c s' =>
      String (if Ascii.eqb c a then b else c) (replace_char a b s')
  end.

(** [c.lower()] on one ASCII character, and [s.lower()]. *)
Definition lower_ascii (c : ascii) : ascii :=
  let n := nat_of_ascii c in
  if (65 <=? n)%nat && (n <=? 90)%nat then ascii_of_nat (n + 32) else c.

Fixpoint lower (s : string) : string :=
  match s with
  | EmptyString => EmptyString
  | String c s' => String (lower_ascii c) (lower s')
  end.

(** Value of a decimal digit. *)
Definition dec_value (c : ascii) : option Z :=
  let n := nat_of_ascii c in
  if (48 <=? n)%nat && (n <=? 57)%nat then Some (Z.of_nat (n - 48)) else None.

(** The digits of [int(s)] after the sign: decimal digits with single
    underscores between them; [pending] says that a digit must come
    next. *)
Fixpoint dec_digits (acc : Z) (pending : bool) (s : string) : option Z :=
  match s with
  | EmptyString => if pending then None else Some acc
  | String c s' =>
      if Ascii.eqb c "_" then
        if pending then None else dec_digits acc true s'
      else match dec_value c with
           | Some d => dec_digits (10 * acc + d) false s'
           | None => None
           end
  end.

(** The number of decimal digits in a string. *)
Fixpoint count_digits (s : string) : nat :=
  match s with
  | EmptyString => 0
  | String c s' =>
      match dec_value c with
      | Some _ => S (count_digits s')
      | None => count_digits s'
      end
  end.

(** [int(s)]; [None] stands for [ValueError]. [max_str_digits] is
    [sys.get_int_max_str_digits()], [0] on an interpreter without the
    limit: with a limit, a string of more than 640 digits that exceeds it
    is refused. *)
Definition int10 (max_str_digits : nat) (s : string) : option Z :=
  let digits := count_digits s in
  if (640 <? digits)%nat && (0 <? max_str_digits)%nat
     && (max_str_digits <? digits)%nat
  then None
  else
    match Py.strip s with
    | String "-" s' => Z.opp <$> dec_digits 0 true s'
    | String "+" s' => dec_digits 0 true s'
    | s' => dec_digits 0 true s'
    end.

End PyStr.

(** ** [main.py]: the UID mapping file of an SD player *)

(** [_uid_suffix_from_uid] ([main.py], l. 110). *)
Definition _uid_suffix_from_uid (uid : string) : string :=
  if negb (Py.truthy uid) then ""
  else
    let raw := Py.upper uid in
    let fallback :=
      let hex_only := Py.keep Py.is_upper_hex raw in
      if (8 <=? String.length hex_only)%nat then
        let tail := Py.last_chars 8 hex_only in
        Py.join "-" (map (fun i => Py.slice i (i + 2) tail) [0; 2; 4; 6]%nat)
      else "" in
    if Py.contains ":" raw then
      let parts := filter (fun p => Py.truthy p = true) (Py.split ":" raw) in
      if (4 <=? length parts)%nat then Py.join "-" (last_four parts)
      else fallback
    else fallback.

(** [build_espuino_uid_map_path] ([main.py], l. 127). *)
Definition build_espuino_uid_map_path (uid : string) : string :=
  let suffix := _uid_suffix_from_uid uid in
  let safe_uid :=
    if Py.truthy suffix then suffix
    else PyStr.replace_char ":" "-"
           (Py.upper (if Py.truthy uid then uid else "unknown")) in
  "/teddycloud/uids/" +:+ safe_uid +:+ ".json".

(** ** [main.py]: further endpoints of a reader *)

Definition set_position
    (started_at : option Z) (offset reported : Z) (r : option Resume)
    (st : ReaderState) : ReaderState :=
  {| current_tag := current_tag st;
     current_started_at := started_at;
     current_offset := offset;
     resume := r;
     last_reported_position := reported;
     current_device := current_device st;
     mode := mode st;
     target_device := target_device st;
     espuino_ip := espuino_ip st |}.

(** [update_reader_position] ([main.py], l. 3155), the
    [POST /readers/{reader_ip}/position] endpoint of the browser player,
    with the ["status"] it answers. *)
Definition update_reader_position
    (reader_ip uid : string) (position : Z) (states : gmap string ReaderState)
  : gmap string ReaderState * string :=
  let '(states, st) := get_reader_state reader_ip states in
  match current_tag st with
  | None => (states, "ignored")
  | Some current =>
      if negb (String.eqb (snap_uid current) uid) then (states, "ignored")
      else
        (<[reader_ip :=
             set_position (current_started_at st) (current_offset st)
               (Z.max 0 position) (resume st) st]> states,
         "ok")
  end.

(** The test [should_resume] of [reader_playback_play]. *)
Definition should_resume (st : ReaderState) (device : Device) : bool :=
  match current_tag st, resume st with
  | Some current, Some r =>
      String.eqb (r_uid r) (snap_uid current)
      && r_paused r
      && (String.eqb (dev_type (r_device r)) (dev_type device)
          && String.eqb (dev_id (r_device r)) (dev_id device))
  | _, _ => false
  end.

(** [reader_playback_play] ([main.py], l. 3758), with [success];
    [play_ok] is the answer of [device_service.play_on_device], to which
    the title goes as well. *)
Definition reader_playback_play
    (env : Env) (play_ok : Device -> string -> Z -> bool)
    (reader_ip : string) (states : gmap string ReaderState)
  : gmap string ReaderState * bool * list DeviceCall :=
  let '(states, st) := get_reader_state reader_ip states in
  let device := device_of env reader_ip st in
  match current_tag st, resume st with
  | Some current, Some r =>
      if should_resume st device then
        let '(success, calls) :=
          if resume_ok env device then (true, [ResumeDevice device])
          else
            (play_ok device (snap_playback_url current) (r_position r),
             [ResumeDevice device;
              StartPlayback device (snap_playback_url current) (r_position r)]) in
        if success then
          (<[reader_ip :=
               set_position (Some (now env)) (r_position r) (r_position r)
                 None st]> states,
           true, calls)
        else (states, false, calls)
      else (states, resume_ok env device, [ResumeDevice device])
  | _, _ => (states, resume_ok env device, [ResumeDevice device])
  end.

(** [reader_playback_seek] ([main.py], l. 3848), with [success]. *)
Definition reader_playback_seek
    (env : Env) (reader_ip : string) (position : Z)
    (states : gmap string ReaderState)
  : gmap string ReaderState * bool * list DeviceCall :=
  let '(states, st) := get_reader_state reader_ip states in
  let device := device_of env reader_ip st in
  if String.eqb (dev_type device) "browser" then (states, true, [])
  else if seek_ok env device position then
    (<[reader_ip :=
         set_position (Some (now env)) position position (resume st) st]> states,
     true, [SeekDevice device position])
  else (states, false, [SeekDevice device position]).

(** *** The liveness probe of SD players *)

(** [connected_readers[ip]["last_seen"] = ...]. *)
Definition set_last_seen (t : Z) (info : ReaderInfo) : ReaderInfo :=
  {| first_seen := first_seen info; last_seen := t;
     scan_count := scan_count info; reader_name := reader_name info |}.

(** The body of the loop of [smart_ping_espuino_readers]
    ([main.py], l. 229-258) for one reader; [settings_of] is what
    [GET /settings] gives on each address. An exception of the probe
    leaves the loop body. *)
Definition smart_ping_reader
    (env : Env) (settings_of : string -> SettingsReply)
    (ip : string) (st : ReaderState) (readers : gmap string ReaderInfo)
  : Result (gmap string ReaderInfo) :=
  match current_tag st with
  | None => Returns readers
  | Some current =>
      if _is_virtual_reader ip then Returns readers
      else
        let device := device_of env ip st in
        if negb (String.eqb (dev_type device) "espuino") then Returns readers
        else
          let uid := snap_uid current in
          if negb (Py.truthy uid) then Returns readers
          else
            match check_espuino_active_tag ip uid (settings_of ip) with
            | Raises e => Raises e
            | Returns (Some true) =>
                match readers !! ip with
                | Some info =>
                    Returns (<[ip := set_last_seen (now env) info]> readers)
                | None => Returns readers
                end
            | Returns _ => Returns readers
            end
  end.

(** The loop [for ip, state in list(reader_states.items())] of one pass:
    an exception ends the pass in the handler [except Exception]
    (l. 262), which logs it; what was written before stays. *)
Fixpoint smart_ping_loop
    (env : Env) (settings_of : string -> SettingsReply)
    (items : list (string * ReaderState)) (readers : gmap string ReaderInfo)
  : gmap string ReaderInfo :=
  match items with
  | [] => readers
  | (ip, st) :: rest =>
      match smart_ping_reader env settings_of ip st readers with
      | Returns readers => smart_ping_loop env settings_of rest readers
      | Raises _ => readers
      end
  end.

(** One pass of [smart_ping_espuino_readers] ([main.py], l. 217) over the
    reader states. The code visits them in the order of insertion, which
    the map of the model does not keep; [smart_ping_loop] is stated for
    any order. *)
Definition smart_ping_espuino_readers
    (env : Env) (settings_of : string -> SettingsReply) (srv : Server) : Server :=
  {| reader_states := reader_states srv;
     connected_readers :=
       smart_ping_loop env settings_of (map_to_list (reader_states srv))
         (connected_readers srv) |}.

(** No position of a reader state is negative. *)
Definition positions_nonneg (st : ReaderState) : Prop :=
  (0 <= current_offset st)%Z
  /\ (0 <= last_reported_position st)%Z
  /\ (forall r, resume st = Some r -> (0 <= r_position r)%Z)
  /\ (forall t, current_tag st = Some t -> (0 <= snap_start_position t)%Z).

Definition all_positions_nonneg (states : gmap string ReaderState) : Prop :=
  forall k st, states !! k = Some st -> positions_nonneg st.

(** ** [transcoding.py]: reading and clearing the cache *)

(** [is_first_track_ready] ([transcoding.py], l. 831). *)
Definition is_first_track_ready (key : string) (c : list (string * CacheItem))
  : bool :=
  exists_nonempty key (track_filename 0) c.

(** [get_cached_tracks] ([transcoding.py], l. 1200): the decoded
    [metadata.json] of the directory, if there is one. *)
Definition get_cached_tracks (key : string) (c : list (string * CacheItem))
  : option TonieMetadata.t :=
  folder_of key c ≫= metadata.

(** [is_track_cached] ([transcoding.py], l. 1224). *)
Definition is_track_cached (key : string) (track_index : nat)
    (c : list (string * CacheItem)) : bool :=
  file_exists key (track_filename track_index) c.

(** [clear_cache] ([transcoding.py], l. 428): every directory goes, and
    every loose MP3 file; the result is the number of directories. *)
Definition clear_cache (st : Transcoding) : Transcoding * nat :=
  let folders :=
    List.filter (fun entry => match snd entry with IsDir _ => true | IsFile _ => false end)
      (cache st) in
  ({| cache :=
        List.filter
          (fun entry =>
             match snd entry with
             | IsDir _ => false
             | IsFile _ => negb (is_mp3 (fst entry))
             end)
          (cache st);
      held := held st |},
   length folders).

(** No loose file of the cache directory bears the name [key]. *)
Definition no_loose_file (key : string) (c : list (string * CacheItem)) : Prop :=
  forall s, ~ In (key, IsFile s) c.

(** ** [devices.py]: attempts of an upload *)

(** The outcomes after which [upload_to_espuino] goes on to the next
    attempt: a status other than 200, a time-out, or an exception other
    than [CancelledError]. *)
Definition retryable (o : AttemptOutcome) : bool :=
  match o with
  | StatusOther _ _ | TimedOut | OtherError _ => true
  | Status200 | TaskCancelled => false
  end.

(** The [last_error] that an attempt leaves when the loop goes on
    ([devices.py], l. 2291, 2299 and 2320): the status with the text of
    the answer, ["Timeout"], or [str(e)]. *)
Definition last_error_of (o : AttemptOutcome) : option string :=
  match o with
  | StatusOther status text =>
      Some ("HTTP " +:+ Py.str_of_Z status +:+ ": " +:+ text)
  | TimedOut => Some "Timeout"
  | OtherError message => Some message
  | Status200 | TaskCancelled => None
  end.

(** An attempt that is made and fails in a way that allows another one. *)
Definition soft_failure (env : UploadEnv) (attempt : nat) : Prop :=
  cancel_at env attempt = false /\ retryable (outcome env attempt) = true.

(** The seconds slept in all. *)
Definition total_sleep (evs : list UploadEvent) : Z :=
  fold_right Z.add 0%Z (sleeps evs).

(** ** [devices.py]: time strings of a multi-room speaker *)

(** A [float]: the finite ones are the numbers [mantissa * 2 ^ exponent],
    with a negative exponent where there is a fractional part. *)
Inductive PyFloat :=
| Finite (mantissa exponent : Z)
| Infinite
| NaN.

(** [float(n)] for an [int]: the nearest number of 53 significant bits,
    the even one of two that are as near; [OverflowError] from
    [2 ^ 1024] on. *)
Definition float_of_int (n : Z) : Result PyFloat :=
  let a := Z.abs n in
  let shift := (Z.log2 a + 1 - 53)%Z in
  if (shift <=? 0)%Z then Returns (Finite n 0)
  else
    let q := Z.shiftr a shift in
    let r := Z.land a (Z.ones shift) in
    let half := Z.shiftl 1 (shift - 1) in
    let q :=
      if (half <? r)%Z || ((r =? half)%Z && Z.odd q) then (q + 1)%Z else q in
    let rounded := Z.shiftl q shift in
    if (2 ^ 1024 <=? rounded)%Z then Raises OverflowError
    else Returns (Finite (Z.sgn n * rounded) 0).

(** [_parse_time_to_seconds] ([devices.py], l. 1263); the three-way
    assignment raises [ValueError] as well when there are not three
    parts. *)
Definition _parse_time_to_seconds (max_str_digits : nat) (position : string)
  : Result PyFloat :=
  if negb (Py.truthy position) then Returns (Finite 0 0)
  else
    let parts := Py.split ":" position in
    let parts := if (length parts =? 2)%nat then "0" :: parts else parts in
    match parts with
    | [hours; minutes; seconds] =>
        match PyStr.int10 max_str_digits hours,
              PyStr.int10 max_str_digits minutes,
              PyStr.int10 max_str_digits seconds with
        | Some hours, Some minutes, Some seconds =>
            float_of_int (hours * 3600 + minutes * 60 + seconds)
        | _, _, _ => Returns (Finite 0 0)
        end
    | _ => Returns (Finite 0 0)
    end.

(** The seconds that [time.gmtime] makes of a [float]: its floor. *)
Definition float_floor (mantissa exponent : Z) : Z := Z.shiftl mantissa exponent.

(** [time.strftime("%H:%M:%S", ...)] of the instant [seconds] after the
    epoch: its time of day. *)
Definition time_of_day_string (seconds : Z) : string :=
  Py.format_0d 2 ((seconds / 3600) mod 24)
  +:+ ":" +:+ Py.format_0d 2 ((seconds / 60) mod 60)
  +:+ ":" +:+ Py.format_0d 2 (seconds mod 60).

(** The [seek_target] of [seek_sonos] ([devices.py], l. 1327):
    [time.strftime("%H:%M:%S", time.gmtime(position))]. [gmtime_ok] says
    which seconds the [gmtime] of the platform accepts; on the others,
    and on a [float] that is not finite, [time.gmtime] raises, and
    [seek_sonos] returns [False] without a call of the speaker: [None]. *)
Definition seek_target (gmtime_ok : Z -> bool) (position : PyFloat)
  : option string :=
  match position with
  | Finite mantissa exponent =>
      let seconds := float_floor mantissa exponent in
      if gmtime_ok seconds then Some (time_of_day_string seconds) else None
  | Infinite | NaN => None
  end.

(** Facts about two-digit fields are checked on all 100 of them. *)
Definition field_facts (n : nat) : bool :=
  bool_decide (PyStr.int10 0 (Py.format_0d 2 (Z.of_nat n)) = Some (Z.of_nat n))
  && bool_decide (PyStr.count_digits (Py.format_0d 2 (Z.of_nat n)) = 2%nat)
  && negb (Py.contains ":" (Py.format_0d 2 (Z.of_nat n))).

(** ** [devices.py]: what is on the SD card of a player *)

(** The scan for the end of the JSON array in the answer of
    [GET /explorer] ([devices.py], l. 1900-1909 and 2525-2534): the index
    after the bracket that closes the first array, [0] when there is
    none. *)
Fixpoint scan_json_end (bracket_count : Z) (i : nat) (raw_text : string) : nat :=
  match raw_text with
  | EmptyString => 0
  | String char rest =>
      if Ascii.eqb char "[" then scan_json_end (bracket_count + 1) (S i) rest
      else if Ascii.eqb char "]" then
        if (bracket_count - 1 =? 0)%Z then S i
        else scan_json_end (bracket_count - 1) (S i) rest
      else scan_json_end bracket_count (S i) rest
  end.

Definition json_end (raw_text : string) : nat := scan_json_end 0 0 raw_text.

(** The text that is given to [json.loads]. *)
Definition listing_text (raw_text : string) : string :=
  if (0 <? json_end raw_text)%nat then Py.slice 0 (json_end raw_text) raw_text
  else raw_text.

(** An entry of the decoded directory listing. *)
Record SdFile := mkSdFile {
  sd_name : option string;
  sd_size : option Z;
}.

(** What [check_espuino_sd_ready] returns. *)
Record SdReady := mkSdReady {
  ready : bool;
  folder_exists : bool;
  tracks_complete : nat;
  tracks_total : Z;
  play_path : option string;
}.

(** [check_espuino_sd_ready] ([devices.py], l. 1859); [files] is the
    decoded listing, [None] when the request or the decoding failed. *)
Definition check_espuino_sd_ready
    (folder_path : string) (expected_tracks : Z) (files : option (list SdFile))
  : SdReady :=
  match files with
  | None =>
      {| ready := false; folder_exists := false; tracks_complete := 0;
         tracks_total := expected_tracks; play_path := None |}
  | Some files =>
      let mp3_count :=
        length (List.filter
                  (fun f => Py.endswith (PyStr.lower (default "" (sd_name f))) ".mp3")
                  files) in
      let is_ready :=
        if (expected_tracks >? 0)%Z then (Z.of_nat mp3_count >=? expected_tracks)%Z
        else (0 <? mp3_count)%nat in
      {| ready := is_ready; folder_exists := true; tracks_complete := mp3_count;
         tracks_total := expected_tracks;
         play_path := if is_ready then Some folder_path else None |}
  end.

(** A track of the metadata that an upload is verified against. *)
Record MetaTrack := mkMetaTrack {
  mt_file : option string;
  mt_size : option Z;
  mt_index : option Z;
}.

(** An entry of ["files"] in a UID mapping file. *)
Record MapFile := mkMapFile {
  mf_index : option Z;
  mf_name : option string;
  mf_size : option Z;
}.

(** The tracks recovered from a UID mapping file
    ([devices.py], l. 2580-2589). *)
Definition uid_map_tracks (files : list MapFile) : list MetaTrack :=
  imap (fun i f =>
          {| mt_file := Some (default "" (mf_name f));
             mt_size := Some (default 0%Z (mf_size f));
             mt_index := Some (default (Z.of_nat i) (mf_index f)) |})
       files.

(** What [verify_espuino_upload] returns, without the metadata itself. *)
Record Verification := mkVerification {
  complete : bool;
  total_tracks : nat;
  verified_tracks : nat;
  missing_tracks : list Z;
  size_mismatch : list Z;
}.

(** [{f.get("name"): f for f in files}]: of two entries of one name the
    later one stays. *)
Definition file_index (files : list SdFile) : gmap (option string) SdFile :=
  fold_left (fun index f => <[sd_name f := f]> index) files ∅.

(** The body of the loop over the tracks
    ([devices.py], l. 2607-2619). *)
Definition verify_track (index : gmap (option string) SdFile)
    (result : Verification) (track : MetaTrack) : Verification :=
  let track_file := mt_file track in
  let expected_size := default 0%Z (mt_size track) in
  let track_index := default 0%Z (mt_index track) in
  match index !! track_file with
  | None =>
      {| complete := complete result; total_tracks := total_tracks result;
         verified_tracks := verified_tracks result;
         missing_tracks := (missing_tracks result ++ [track_index])%list;
         size_mismatch := size_mismatch result |}
  | Some f =>
      let actual_size := default 0%Z (sd_size f) in
      if (expected_size >? 0)%Z && negb (actual_size =? expected_size)%Z then
        {| complete := complete result; total_tracks := total_tracks result;
           verified_tracks := verified_tracks result;
           missing_tracks := missing_tracks result;
           size_mismatch := (size_mismatch result ++ [track_index])%list |}
      else
        {| complete := complete result; total_tracks := total_tracks result;
           verified_tracks := S (verified_tracks result);
           missing_tracks := missing_tracks result;
           size_mismatch := size_mismatch result |}
  end.

(** [verify_espuino_upload] ([devices.py], l. 2448) from the point where
    the listing [files] and the [tracks] of the metadata are at hand. *)
Definition verify_espuino_upload (files : list SdFile) (tracks : list MetaTrack)
  : Verification :=
  let result :=
    fold_left (verify_track (file_index files)) tracks
      {| complete := false; total_tracks := length tracks; verified_tracks := 0;
         missing_tracks := []; size_mismatch := [] |} in
  {| complete :=
       (verified_tracks result =? total_tracks result)%nat
       && (length (missing_tracks result) =? 0)%nat
       && (length (size_mismatch result) =? 0)%nat;
     total_tracks := total_tracks result;
     verified_tracks := verified_tracks result;
     missing_tracks := missing_tracks result;
     size_mismatch := size_mismatch result |}.

(** A track is in place when the listing has a file of its name and, if the
    metadata knows a size, of that size. *)
Definition track_in_place (files : list SdFile) (track : MetaTrack) : Prop :=
  exists f,
    file_index files !! mt_file track = Some f
    /\ ((0 < default 0 (mt_size track))%Z ->
        default 0%Z (sd_size f) = default 0%Z (mt_size track)).

(** ** [devices.py]: which device plays *)

Module DeviceService.

(** The module state of [devices.py] that device resolution reads, with
    [settings.reader_devices]; a key that a stored device lacks reads as
    the empty string. *)
Record t := mk {
  default_device : Device;
  current_device : option Device;
  reader_current_devices : gmap string Device;
  reader_devices : gmap string Device;
}.

(** [get_active_device] ([devices.py], l. 884). *)
Definition get_active_device (s : t) : Device :=
  match current_device s with
  | Some device => device
  | None => default_device s
  end.

(** [get_reader_device_override] ([devices.py], l. 891). *)
Definition get_reader_device_override (reader_ip : string) (s : t)
  : option Device :=
  match reader_devices s !! reader_ip with
  | Some device =>
      if Py.truthy (dev_type device) && Py.truthy (dev_id device)
      then Some device else None
  | None => None
  end.

(** [get_device_for_reader] ([devices.py], l. 903). *)
Definition get_device_for_reader (reader_ip : string) (s : t) : Device :=
  match reader_current_devices s !! reader_ip with
  | Some device => device
  | None =>
      match get_reader_device_override reader_ip s with
      | Some override => override
      | None => get_active_device s
      end
  end.

(** [set_reader_current_device] and [clear_reader_current_device]
    ([devices.py], l. 948 and 957). *)
Definition set_reader_current_device
    (reader_ip device_type device_id : string) (s : t) : t :=
  {| default_device := default_device s;
     current_device := current_device s;
     reader_current_devices :=
       <[reader_ip := {| dev_type := device_type; dev_id := device_id |}]>
         (reader_current_devices s);
     reader_devices := reader_devices s |}.

Definition clear_reader_current_device (reader_ip : string) (s : t) : t * bool :=
  match reader_current_devices s !! reader_ip with
  | Some _ =>
      ({| default_device := default_device s;
          current_device := current_device s;
          reader_current_devices := delete reader_ip (reader_current_devices s);
          reader_devices := reader_devices s |},
       true)
  | None => (s, false)
  end.

(** [set_reader_device] and [clear_reader_device]
    ([devices.py], l. 922 and 935), which rewrite the settings. *)
Definition set_reader_device
    (reader_ip device_type device_id : string) (s : t) : t :=
  {| default_device := default_device s;
     current_device := current_device s;
     reader_current_devices := reader_current_devices s;
     reader_devices :=
       <[reader_ip := {| dev_type := device_type; dev_id := device_id |}]>
         (reader_devices s) |}.

Definition clear_reader_device (reader_ip : string) (s : t) : t * bool :=
  match reader_devices s !! reader_ip with
  | Some _ =>
      ({| default_device := default_device s;
          current_device := current_device s;
          reader_current_devices := reader_current_devices s;
          reader_devices := delete reader_ip (reader_devices s) |},
       true)
  | None => (s, false)
  end.

(** [set_default_device], [set_current_device] and [clear_current_device]
    ([devices.py], l. 846, 869 and 877). *)
Definition set_default_device (device_type device_id : string) (s : t) : t :=
  {| default_device := {| dev_type := device_type; dev_id := device_id |};
     current_device := current_device s;
     reader_current_devices := reader_current_devices s;
     reader_devices := reader_devices s |}.

Definition set_current_device (device_type device_id : string) (s : t) : t :=
  {| default_device := default_device s;
     current_device := Some {| dev_type := device_type; dev_id := device_id |};
     reader_current_devices := reader_current_devices s;
     reader_devices := reader_devices s |}.

Definition clear_current_device (s : t) : t :=
  {| default_device := default_device s;
     current_device := None;
     reader_current_devices := reader_current_devices s;
     reader_devices := reader_devices s |}.

End DeviceService.

(** The device that a scan of a reader without a current tag is played
    on: the target of a stream request, the reader itself for a local
    request of an SD player, the device saved for the reader, the
    temporary device of the reader, the temporary device of the server, or
    the default device, in this order. *)
Definition scan_device (reg : DeviceService.t) (reader_ip : string)
    (request : TonieRequest) : Device :=
  let saved := DeviceService.get_reader_device_override reader_ip reg in
  let is_sd_player :=
    match saved with
    | None => true
    | Some d => String.eqb (dev_type d) "espuino"
    end in
  match req_target_device request with
  | Some target =>
      if String.eqb (req_mode request) "stream" then target
      else if String.eqb (req_mode request) "local" && is_sd_player
      then {| dev_type := "espuino"; dev_id := reader_ip |}
      else match saved with
           | Some d => d
           | None =>
               match DeviceService.reader_current_devices reg !! reader_ip with
               | Some d => d
               | None => DeviceService.get_active_device reg
               end
           end
  | None =>
      if String.eqb (req_mode request) "local" && is_sd_player
      then {| dev_type := "espuino"; dev_id := reader_ip |}
      else match saved with
           | Some d => d
           | None =>
               match DeviceService.reader_current_devices reg !! reader_ip with
               | Some d => d
               | None => DeviceService.get_active_device reg
               end
           end
  end.

(** What it means that a call of the device adapter is made for a
    device: a call that takes the descriptor has this one; a multi-room
    speaker is called by the address that [get_sonos_ip_from_uid] gives
    for its id, and a cast device and an SD player by their id. *)
Definition made_for (env : Env) (d : Device) (c : DeviceCall) : Prop :=
  match c with
  | GetPosition d' | PauseDevice d' | ResumeDevice d' | StopDevice d'
  | IsPlaying d' | SeekDevice d' _ | StartPlayback d' _ _ | PlayOnDevice d' _ =>
      d' = d
  | PlayPlaylistOnSonos ip _ =>
      dev_type d = "sonos" /\ sonos_ip_of env (dev_id d) = Some ip
  | PlayPlaylistOnChromecast device_id _ =>
      dev_type d = "chromecast" /\ device_id = dev_id d
  | CheckEspuinoSdReady ip _ _ | PlayEspuinoFromSd ip _ =>
      dev_type d = "espuino" /\ ip = dev_id d
  end.

(** Facts about single characters are checked on all 256 of them: an
    upper-case hexadecimal digit is one of the sixteen digits of
    [hex_pair], is not a colon and is its own upper case. *)
Definition hex_char_facts (n : nat) : bool :=
  let c := ascii_of_nat n in
  implb (Py.is_upper_hex c)
    (existsb (fun d => Ascii.eqb c (hex_digit_char d)) (seq 0 16)
     && negb (Ascii.eqb c ":")
     && Ascii.eqb (Py.upper_ascii c) c).

(** The branch of [uid_to_espuino_tag_id] for a UID without colons, as a
    function of its hexadecimal digits. *)
Definition tag_id_of_hex_digits (hex_only : string) : string :=
  if (String.length hex_only <? 8)%nat then ""
  else match triplets (rev (last_four_pairs hex_only)) with
       | Some ts => Py.concat ts
       | None => ""
       end.

(** ** Sample data for the closed examples *)

(** *** A reader environment and requests *)

Definition sample_env_at (time : Z) : Env :=
  {| now := time;
     device_for_reader := fun _ => {| dev_type := "sonos"; dev_id := "RINCON_1" |};
     device_position := fun _ => Some 42%Z;
     resume_ok := fun _ => true;
     display_name := fun ip => ip;
     client_ready := true;
     tag_index :=
       [ {| tag_uid := Some "E0:04:03:50:13:16:80:4B"; tag_source := None;
            tag_audioUrl := Some "/content/E00403501316804B";
            tag_valid := Some true; tag_exists := Some true;
            tag_trackSeconds := [0; 100; 250]%Z; tag_tonieInfo := None |} ];
     catalog := [];
     audio_url_for := fun _ uid => "http://tc/content/" +:+ uid;
     playback_url_for := fun url _ => "http://srv:8754/transcode.mp3?url=" +:+ url;
     playlist_for := fun _ => None;
     is_cached := fun _ => true;
     first_track_ready := fun _ => true;
     first_track_url_for := fun _ => "http://srv:8754/tracks/k/01.mp3";
     sonos_ip_of := fun _ => Some "192.0.2.20";
     dest_folder_for := fun _ _ _ => "/teddycloud/Series_Episode";
     sd_ready := fun _ _ _ => false;
     play_on_device_ok := fun _ _ _ => true;
     device_override_for := fun _ => None;
     is_playing := fun _ => true;
     pause_ok := fun _ => true;
     stop_ok := fun _ => true;
     seek_ok := fun _ _ => true |}.

Definition sample_env : Env := sample_env_at 100.

Definition no_overrides : Overrides :=
  {| ov_title := None; ov_series := None; ov_episode := None;
     ov_picture := None; ov_tracks := None; ov_audio_url := None |}.

Definition scan_request (uid : string) : TonieRequest :=
  {| req_uid := Some uid; req_mode := "stream";
     req_target_device := Some {| dev_type := "sonos"; dev_id := "RINCON_1" |};
     req_overrides := no_overrides |}.

(** A scan in local mode: the SD player plays the tag itself. *)
Definition local_scan_request (uid : string) : TonieRequest :=
  {| req_uid := Some uid; req_mode := "local"; req_target_device := None;
     req_overrides := no_overrides |}.

Definition removal_request : TonieRequest :=
  {| req_uid := None; req_mode := "stream"; req_target_device := None;
     req_overrides := no_overrides |}.

Definition sample_snapshot : TagSnapshot :=
  {| snap_uid := "E0:04:03:50:13:16:80:4B";
     snap_series := Some "Series"; snap_episode := Some "Episode";
     snap_title := Some "Title"; snap_picture := None;
     snap_audio_url := "http://tc/content/E00403501316804B";
     snap_playback_url :=
       "http://srv:8754/transcode.mp3?url=http://tc/content/E00403501316804B";
     snap_placed_at := 90; snap_start_position := 0;
     snap_duration := Some (Some 250%Z);
     snap_tracks := build_tracks [0; 100; 250]%Z [];
     snap_track_count := 2 |}.

(** A reader that plays the sample tag on a multi-room device. *)
Definition sample_playing : ReaderState :=
  set_playing sample_snapshot 90 0 0
    {| dev_type := "sonos"; dev_id := "RINCON_1" |} initial_reader_state.

Definition sample_playing_server : Server :=
  {| reader_states := {[ "192.0.2.10" := sample_playing ]};
     connected_readers := ∅ |}.

(** *** Encoders, caches and uploads *)

(** Every track encodes to 1000 bytes, and the cache may hold 500 MB. *)
Definition sample_encoder : EncoderEnv :=
  {| ffmpeg := fun i => Some {| st_size := 1000; st_atime := Z.of_nat i |};
     estimated_size := fun d => (d * 10485760 / 60)%Z;
     max_bytes := 524288000;
     cover_download := fun _ => None;
     has_embedded_cover := fun _ => false |}.

Definition empty_transcoding : Transcoding := {| cache := []; held := ∅ |}.

(** The tracks of a tag whose cumulative [trackSeconds] are
    [[0, 100, 100, 250]]: the second one has duration 0. *)
Definition tracks_with_gap : list Track := build_tracks [0; 100; 100; 250]%Z [].

(** A fully cached album of two tracks, of 100 and 150 seconds. *)
Definition two_track_album : Transcoding :=
  (encode_tonie_tracks sample_encoder "k" "http://tc/content/x"
     (build_tracks [0; 100; 250]%Z ["Intro"; "Story"]) "Series" "Episode" "" ""
     empty_transcoding).1.

(** Three tracks of 100 seconds each. *)
Definition three_tracks : list Track := build_tracks [0; 100; 200; 300]%Z [].

(** An encoder environment with room for 1000 bytes only, and a cache
    with one partial directory whose encoding lock is held. *)
Definition tight_encoder : EncoderEnv :=
  {| ffmpeg := fun i => Some {| st_size := 400; st_atime := 50 |};
     estimated_size := fun d => d;
     max_bytes := 1000;
     cover_download := fun _ => None;
     has_embedded_cover := fun _ => false |}.


(** An upload on which every attempt is answered by status 500. *)
Definition always_500 : UploadEnv :=
  {| source_exists := true;
     cancel_before_start := false;
     cancel_at := fun _ => false;
     cancel_seen_after := fun _ => false;
     outcome := fun _ => StatusOther 500 "Internal Server Error" |}.

(** A reader that plays the sample tag in the browser. *)
Definition sample_browser_playing : ReaderState :=
  set_playing sample_snapshot 90 0 0
    {| dev_type := "browser"; dev_id := "web" |} initial_reader_state.

(** An upload whose attempts all run into the time-out. *)
Definition always_timeout : UploadEnv :=
  {| source_exists := true;
     cancel_before_start := false;
     cancel_at := fun _ => false;
     cancel_seen_after := fun _ => false;
     outcome := fun _ => TimedOut |}.

(** An upload that stalls on its first attempt. *)
Definition stalls_at_once : UploadEnv :=
  {| source_exists := true;
     cancel_before_start := false;
     cancel_at := fun _ => false;
     cancel_seen_after := fun _ => false;
     outcome := fun _ => TaskCancelled |}.

(** The listing of a folder on the SD card with two tracks, and the tracks
    that its metadata names; the size of the second one is not known. *)
Definition sample_listing : list SdFile :=
  [ {| sd_name := Some "01_Intro.mp3"; sd_size := Some 1000%Z |};
    {| sd_name := Some "02_Story.MP3"; sd_size := Some 2000%Z |};
    {| sd_name := Some "metadata.json"; sd_size := Some 300%Z |} ].

Definition sample_meta_tracks : list MetaTrack :=
  [ {| mt_file := Some "01_Intro.mp3"; mt_size := Some 1000%Z; mt_index := Some 0%Z |};
    {| mt_file := Some "02_Story.MP3"; mt_size := None; mt_index := Some 1%Z |} ].

(** A device registry with a default device, a device saved for one reader
    and a temporary device for the same reader. *)
Definition sample_registry : DeviceService.t :=
  {| DeviceService.default_device := {| dev_type := "sonos"; dev_id := "RINCON_1" |};
     DeviceService.current_device := None;
     DeviceService.reader_current_devices :=
       {[ "192.0.2.10" := {| dev_type := "chromecast"; dev_id := "cc-1" |} ]};
     DeviceService.reader_devices :=
       {[ "192.0.2.10" := {| dev_type := "airplay"; dev_id := "ap-1" |} ]} |}.

(** The reader environment whose devices are resolved by the registry. *)
Definition registry_env : Env :=
  {| now := 100;
     device_for_reader := fun ip => DeviceService.get_device_for_reader ip sample_registry;
     device_position := fun _ => None;
     resume_ok := fun _ => true;
     display_name := fun ip => ip;
     client_ready := true;
     tag_index := tag_index sample_env;
     catalog := [];
     audio_url_for := audio_url_for sample_env;
     playback_url_for := playback_url_for sample_env;
     playlist_for := fun _ => None;
     is_cached := fun _ => true;
     first_track_ready := fun _ => true;
     first_track_url_for := fun _ => "http://srv:8754/tracks/k/01.mp3";
     sonos_ip_of := fun _ => Some "192.0.2.20";
     dest_folder_for := fun _ _ _ => "/teddycloud/Series_Episode";
     sd_ready := fun _ _ _ => false;
     play_on_device_ok := fun _ _ _ => true;
     device_override_for :=
       fun ip => DeviceService.get_reader_device_override ip sample_registry;
     is_playing := fun _ => false;
     pause_ok := fun _ => true;
     stop_ok := fun _ => true;
     seek_ok := fun _ _ => true |}.

(** A scan in stream mode that names no target. *)
Definition untargeted_scan_request (uid : string) : TonieRequest :=
  {| req_uid := Some uid; req_mode := "stream"; req_target_device := None;
     req_overrides := no_overrides |}.


(** An encoder environment whose cover download gives a PNG image of 2000
    bytes. *)
Definition cover_encoder : EncoderEnv :=
  {| ffmpeg := fun i => Some {| st_size := 400; st_atime := 50 |};
     estimated_size := fun d => d;
     max_bytes := 1000;
     cover_download :=
       fun _ => Some (true, {| st_size := 2000; st_atime := 60 |});
     has_embedded_cover := fun _ => false |}.
(** * Properties *)

(** ** UID to device tag id *)

Example tag_id_colons :
  uid_to_espuino_tag_id "E0:04:03:50:13:16:80:4B" = "075128022019".
Proof. reflexivity. Qed.

Example tag_id_plain :
  uid_to_espuino_tag_id "0ef4d7ac" = "172215244014".
Proof. vm_compute. reflexivity. Qed.

Example tag_id_short : uid_to_espuino_tag_id "0E:F4:D7" = "".
Proof. reflexivity. Qed.

Lemma byte_facts_all : forallb byte_facts (seq 0 256) = true.
Proof. vm_compute. reflexivity. Qed.

Lemma byte_facts_lt (b : nat) : (b < 256)%nat -> byte_facts b = true.
Proof.
  intros Hb. pose proof byte_facts_all as Hall.
  rewrite forallb_forall in Hall. apply Hall. apply in_seq. lia.
Qed.

(** Picks one conjunct of [byte_facts b]. *)
Ltac byte_fact Hb :=
  let H := fresh "H" in
  pose proof (byte_facts_lt _ Hb) as H; unfold byte_facts in H;
  repeat (apply andb_prop in H; destruct H as [H ?]);
  repeat match goal with
  | H' : bool_decide _ = true |- _ => apply bool_decide_eq_true in H'
  | H' : negb _ = true |- _ => apply negb_true_iff in H'
  end;
  assumption.

Lemma int16_hex_pair (b : nat) :
  (b < 256)%nat -> Py.int16 (hex_pair b) = Some (Z.of_nat b).
Proof. intros Hb. byte_fact Hb. Qed.

Lemma format_byte (b : nat) :
  (b < 256)%nat -> Py.format_0d 3 (Z.of_nat b) = dec3 b.
Proof. intros Hb. byte_fact Hb. Qed.

Lemma hex_pair_no_colon (b : nat) :
  (b < 256)%nat -> Py.contains ":" (hex_pair b) = false.
Proof. intros Hb. byte_fact Hb. Qed.

Lemma hex_pair_keep (b : nat) :
  (b < 256)%nat -> Py.keep Py.is_upper_hex (hex_pair b) = hex_pair b.
Proof. intros Hb. byte_fact Hb. Qed.

#[local] Arguments hex_pair : simpl never.
#[local] Arguments dec3 : simpl never.

(** Strings: append, length and substrings. *)

Lemma app_length_str (s t : string) :
  String.length (s +:+ t) = (String.length s + String.length t)%nat.
Proof. induction s as [|c s IH]; simpl; [done | by f_equal]. Qed.

Lemma app_assoc_str (s t u : string) : (s +:+ t) +:+ u = s +:+ (t +:+ u).
Proof. induction s as [|c s IH]; simpl; [done | by f_equal]. Qed.

Lemma app_empty_r (s : string) : s +:+ "" = s.
Proof. induction s as [|c s IH]; simpl; [done | by f_equal]. Qed.

Lemma substring_skip (p t : string) (i m : nat) :
  substring (String.length p + i) m (p +:+ t) = substring i m t.
Proof. induction p as [|c p IH]; simpl; [done | apply IH]. Qed.

Lemma substring_whole (s : string) : substring 0 (String.length s) s = s.
Proof. induction s as [|c s IH]; simpl; [done | by f_equal]. Qed.

Lemma hex_pair_length (b : nat) : String.length (hex_pair b) = 2%nat.
Proof. reflexivity. Qed.

Lemma upper_empty_inv (s : string) : Py.upper s = "" -> s = "".
Proof. by destruct s. Qed.

(** Splitting and joining. *)

Lemma contains_app (c : ascii) (s t : string) :
  Py.contains c (s +:+ t) = Py.contains c s || Py.contains c t.
Proof.
  induction s as [|a s IH]; simpl; [done |]. by rewrite IH, orb_assoc.
Qed.

Lemma split_no_sep (c : ascii) (s : string) :
  Py.contains c s = false -> Py.split c s = [s].
Proof.
  induction s as [|a s IH]; simpl; [done |].
  intros H. apply orb_false_iff in H as [Ha Hs].
  rewrite Ha, (IH Hs). done.
Qed.

Lemma split_app_sep (c : ascii) (p rest : string) :
  Py.contains c p = false ->
  Py.split c (p +:+ String c rest) = p :: Py.split c rest.
Proof.
  induction p as [|a p IH]; simpl.
  - intros _. by rewrite Ascii.eqb_refl.
  - intros H. apply orb_false_iff in H as [Ha Hp].
    rewrite Ha, (IH Hp). done.
Qed.

Lemma split_join_pairs (bs : list nat) :
  Forall (fun b => (b < 256)%nat) bs -> bs <> [] ->
  Py.split ":" (colon_form bs) = map hex_pair bs.
Proof.
  unfold colon_form.
  induction 1 as [|b bs Hb Hbs IH]; [done |]. intros _.
  destruct bs as [|b' bs'].
  - apply (split_no_sep ":" (hex_pair b)). by apply hex_pair_no_colon.
  - change (Py.join ":" (map hex_pair (b :: b' :: bs')))
      with (hex_pair b +:+ String ":" (Py.join ":" (map hex_pair (b' :: bs')))).
    rewrite split_app_sep by (by apply hex_pair_no_colon).
    rewrite IH by done. done.
Qed.

Lemma contains_colon_form (bs : list nat) :
  (2 <= length bs)%nat -> Py.contains ":" (colon_form bs) = true.
Proof.
  intros Hlen. destruct bs as [|b [|b' bs]]; simpl in Hlen; try lia.
  unfold colon_form.
  change (Py.join ":" (map hex_pair (b :: b' :: bs)))
    with (hex_pair b +:+ String ":" (Py.join ":" (map hex_pair (b' :: bs)))).
  rewrite contains_app. simpl. by rewrite orb_true_r.
Qed.

Lemma contains_plain_form (bs : list nat) :
  Forall (fun b => (b < 256)%nat) bs -> Py.contains ":" (plain_form bs) = false.
Proof.
  unfold plain_form. induction 1 as [|b bs Hb Hbs IH]; [done |].
  change (Py.concat (map hex_pair (b :: bs)))
    with (hex_pair b +:+ Py.concat (map hex_pair bs)).
  rewrite contains_app, IH, hex_pair_no_colon; done.
Qed.

Lemma keep_app (p : ascii -> bool) (s t : string) :
  Py.keep p (s +:+ t) = Py.keep p s +:+ Py.keep p t.
Proof.
  induction s as [|a s IH]; simpl; [done |].
  destruct (p a); simpl; by rewrite IH.
Qed.

Lemma keep_plain_form (bs : list nat) :
  Forall (fun b => (b < 256)%nat) bs ->
  Py.keep Py.is_upper_hex (plain_form bs) = plain_form bs.
Proof.
  unfold plain_form. induction 1 as [|b bs Hb Hbs IH]; [done |].
  change (Py.concat (map hex_pair (b :: bs)))
    with (hex_pair b +:+ Py.concat (map hex_pair bs)).
  rewrite keep_app, IH, hex_pair_keep; done.
Qed.

Lemma plain_form_length (bs : list nat) :
  String.length (plain_form bs) = (2 * length bs)%nat.
Proof.
  unfold plain_form. induction bs as [|b bs IH]; [done |].
  change (Py.concat (map hex_pair (b :: bs)))
    with (hex_pair b +:+ Py.concat (map hex_pair bs)).
  rewrite app_length_str, IH, hex_pair_length. simpl. lia.
Qed.

Lemma plain_form_app (xs ys : list nat) :
  plain_form (xs ++ ys) = plain_form xs +:+ plain_form ys.
Proof.
  unfold plain_form. induction xs as [|x xs IH]; [done |].
  change (Py.concat (map hex_pair ((x :: xs) ++ ys)))
    with (hex_pair x +:+ Py.concat (map hex_pair (xs ++ ys))).
  change (Py.concat (map hex_pair (x :: xs)))
    with (hex_pair x +:+ Py.concat (map hex_pair xs)).
  by rewrite IH, app_assoc_str.
Qed.

Lemma filter_truthy_pairs (bs : list nat) :
  filter (fun p => Py.truthy p = true) (map hex_pair bs) = map hex_pair bs.
Proof.
  induction bs as [|b bs IH]; [done |].
  simpl. rewrite filter_cons_True by done. by rewrite IH.
Qed.

Lemma last_four_map {A B} (f : A -> B) (l : list A) :
  last_four (map f l) = map f (last_four l).
Proof. unfold last_four. by rewrite length_map, <- fmap_drop. Qed.

Lemma last_four_Forall {A} (P : A -> Prop) (l : list A) :
  Forall P l -> Forall P (last_four l).
Proof. unfold last_four. apply Forall_drop. Qed.

Lemma triplets_pairs (bs : list nat) :
  Forall (fun b => (b < 256)%nat) bs ->
  triplets (map hex_pair bs) = Some (map dec3 bs).
Proof.
  induction 1 as [|b bs Hb Hbs IH]; [done |].
  simpl. rewrite (int16_hex_pair b Hb), IH. simpl.
  by rewrite (format_byte b Hb).
Qed.

Lemma last_four_pairs_plain (bs : list nat) :
  (4 <= length bs)%nat ->
  last_four_pairs (plain_form bs) = map hex_pair (last_four bs).
Proof.
  intros Hlen. unfold last_four.
  rewrite <- (take_drop (length bs - 4) bs) at 1.
  set (pre := take (length bs - 4) bs).
  set (tl := drop (length bs - 4) bs).
  assert (Hpre : length pre = (length bs - 4)%nat)
    by (unfold pre; rewrite length_take; lia).
  assert (Htl : length tl = 4%nat)
    by (unfold tl; rewrite length_drop; lia).
  destruct tl as [|b1 [|b2 [|b3 [|b4 [|? ?]]]]]; simpl in Htl; try lia.
  unfold last_four_pairs. rewrite plain_form_app.
  rewrite app_length_str, !plain_form_length, Hpre. simpl length.
  replace (2 * (length bs - 4) + 2 * 4 - 8)%nat
    with (String.length (plain_form pre))
    by (rewrite plain_form_length, Hpre; lia).
  unfold Py.slice. simpl map.
  repeat match goal with
  | |- context [substring (?n + ?k) ?m (_ +:+ _)] =>
      rewrite (substring_skip _ _ k m)
  end.
  repeat match goal with
  | |- context [(?a + 2 - ?a)%nat] => replace (a + 2 - a)%nat with 2%nat by lia
  end.
  reflexivity.
Qed.

Lemma colon_form_nonempty (bs : list nat) : bs <> [] -> colon_form bs <> "".
Proof. by destruct bs as [|b [|b' bs]]. Qed.

Lemma plain_form_nonempty (bs : list nat) : bs <> [] -> plain_form bs <> "".
Proof. by destruct bs as [|b bs]. Qed.

Lemma truthy_of_upper (uid : string) : Py.upper uid <> "" -> Py.truthy uid = true.
Proof. by destruct uid. Qed.

Lemma tag_id_colon_form (uid : string) (bs : list nat) :
  (4 <= length bs)%nat -> Forall (fun b => (b < 256)%nat) bs ->
  Py.upper uid = colon_form bs ->
  uid_to_espuino_tag_id uid = Py.concat (map dec3 (rev (last_four bs))).
Proof.
  intros Hlen Hbs Hup.
  assert (Hne : bs <> []) by (destruct bs; simpl in Hlen; [lia | done]).
  unfold uid_to_espuino_tag_id.
  rewrite truthy_of_upper by (rewrite Hup; by apply colon_form_nonempty).
  cbn [negb]. rewrite Hup.
  rewrite contains_colon_form by lia.
  rewrite split_join_pairs, filter_truthy_pairs by done.
  rewrite length_map.
  destruct (Nat.leb_spec 4 (length bs)) as [_|?]; [|lia].
  rewrite last_four_map, <- map_rev.
  rewrite triplets_pairs; [done |].
  apply Forall_rev. by apply last_four_Forall.
Qed.

Lemma tag_id_plain_form (uid : string) (bs : list nat) :
  (4 <= length bs)%nat -> Forall (fun b => (b < 256)%nat) bs ->
  Py.upper uid = plain_form bs ->
  uid_to_espuino_tag_id uid = Py.concat (map dec3 (rev (last_four bs))).
Proof.
  intros Hlen Hbs Hup.
  assert (Hne : bs <> []) by (destruct bs; simpl in Hlen; [lia | done]).
  unfold uid_to_espuino_tag_id.
  rewrite truthy_of_upper by (rewrite Hup; by apply plain_form_nonempty).
  cbn [negb]. rewrite Hup.
  rewrite contains_plain_form, keep_plain_form by done.
  rewrite plain_form_length.
  destruct (Nat.ltb_spec (2 * length bs) 8) as [?|_]; [lia|].
  rewrite last_four_pairs_plain by done.
  rewrite <- map_rev.
  rewrite triplets_pairs; [done |].
  apply Forall_rev. by apply last_four_Forall.
Qed.

(** C8. For a UID of at least four bytes, written as hexadecimal pairs
    (joined by colons or not, in either case), the derived tag id is the
    concatenation of the decimal values of the last four bytes in reversed
    order, each on exactly three digits. The liveness probe, which is
    written to compare the tag id reported by the device with this
    derived id, never gets there: for every such UID, every address that
    is not empty and every answer of the device it raises [NameError],
    because [main.py] does not import [aiohttp]. *)
Theorem tag_id_reversed_decimal_triplets
    (uid : string) (bs : list nat) (ip : string) (reply : SettingsReply) :
  (4 <= length bs)%nat ->
  Forall (fun b => (b < 256)%nat) bs ->
  Py.upper uid = colon_form bs \/ Py.upper uid = plain_form bs ->
  ip <> "" ->
  uid_to_espuino_tag_id uid = Py.concat (map dec3 (rev (last_four bs)))
  /\ String.length (uid_to_espuino_tag_id uid) = 12%nat
  /\ check_espuino_active_tag ip uid reply = Raises (NameError "aiohttp").
Proof.
  intros Hlen Hbs Hup Hip.
  assert (Hid : uid_to_espuino_tag_id uid
                = Py.concat (map dec3 (rev (last_four bs)))).
  { destruct Hup; [by apply tag_id_colon_form | by apply tag_id_plain_form]. }
  assert (Hfour : length (rev (last_four bs)) = 4%nat).
  { rewrite length_rev. unfold last_four. rewrite length_drop. lia. }
  assert (Hlen12 : String.length (Py.concat (map dec3 (rev (last_four bs))))
                   = 12%nat).
  { destruct (rev (last_four bs)) as [|a [|b [|c [|d [|? ?]]]]];
      simpl in Hfour; try lia. reflexivity. }
  split; [done |]. split; [by rewrite Hid |].
  unfold check_espuino_active_tag. rewrite Hid.
  assert (Huid : Py.truthy uid = true).
  { apply truthy_of_upper. destruct Hup as [-> | ->].
    - apply colon_form_nonempty. destruct bs; simpl in Hlen; [lia | done].
    - apply plain_form_nonempty. destruct bs; simpl in Hlen; [lia | done]. }
  replace (Py.truthy ip) with true by (by destruct ip).
  rewrite Huid. cbn [negb orb].
  destruct (Py.concat (map dec3 (rev (last_four bs)))) eqn:E;
    [simpl in Hlen12; lia |].
  reflexivity.
Qed.

Lemma tag_id_reversed_decimal_triplets_witness :
  uid_to_espuino_tag_id "e0:04:03:50:13:16:80:4b" = "075128022019"
  /\ String.length (uid_to_espuino_tag_id "e0:04:03:50:13:16:80:4b") = 12%nat
  /\ check_espuino_active_tag "192.0.2.10" "e0:04:03:50:13:16:80:4b"
       (Settings (Some "075128022019")) = Raises (NameError "aiohttp").
Proof.
  apply (tag_id_reversed_decimal_triplets
           "e0:04:03:50:13:16:80:4b" [224; 4; 3; 80; 19; 22; 128; 75]%nat
           "192.0.2.10" (Settings (Some "075128022019"))).
  - simpl. lia.
  - repeat constructor; lia.
  - left. reflexivity.
  - discriminate.
Defined.

(** ** Tag lookup *)

Example lookup_by_suffix :
  is_Some (find_tonie_by_uid "13:16:80:4b"
             [mkTagRecord (Some "E0:04:03:50:13:16:80:4B") None None None None [] None] []).
Proof. vm_compute. eauto. Qed.

Example tracks_from_seconds :
  build_tracks [0; 100; 250]%Z ["Intro"]
  = [mkTrack (Some "Intro") (Some 100%Z) (Some 0%Z);
     mkTrack (Some "Track 2") (Some 150%Z) (Some 100%Z)].
Proof. reflexivity. Qed.

Lemma substring_split (s : string) (n : nat) :
  (n <= String.length s)%nat ->
  s = substring 0 n s +:+ substring n (String.length s - n) s.
Proof.
  revert n. induction s as [|c s IH]; intros [|n] Hn; simpl in *; try lia.
  - done.
  - f_equal. symmetry. apply substring_whole.
  - f_equal. apply IH. lia.
Qed.

Lemma endswith_iff (s suf : string) :
  Py.endswith s suf = true <-> exists pre, s = pre +:+ suf.
Proof.
  unfold Py.endswith, Py.last_chars. split.
  - intros H. apply andb_prop in H as [Hlen Heq].
    apply Nat.leb_le in Hlen. apply String.eqb_eq in Heq.
    exists (substring 0 (String.length s - String.length suf) s).
    etransitivity;
      [apply (substring_split s (String.length s - String.length suf)); lia |].
    f_equal.
    replace (String.length s - (String.length s - String.length suf))%nat
      with (String.length suf) by lia.
    exact Heq.
  - intros [pre ->]. rewrite app_length_str.
    apply andb_true_intro. split; [apply Nat.leb_le; lia |].
    apply String.eqb_eq.
    replace (String.length pre + String.length suf - String.length suf)%nat
      with (String.length pre + 0)%nat by lia.
    rewrite substring_skip. apply substring_whole.
Qed.

Lemma uid_matches_iff (tag_uid q : string) :
  uid_matches tag_uid q = true <-> exists pre, tag_uid = pre +:+ q.
Proof.
  unfold uid_matches. rewrite orb_true_iff, endswith_iff, String.eqb_eq.
  split; [|by right]. intros [-> | H]; [by exists "" | done].
Qed.

Lemma last_chars_suffix (pre q : string) :
  Py.last_chars (String.length q) (pre +:+ q) = q.
Proof.
  unfold Py.last_chars. rewrite app_length_str.
  replace (String.length pre + String.length q - String.length q)%nat
    with (String.length pre + 0)%nat by lia.
  rewrite substring_skip. apply substring_whole.
Qed.

Lemma substring_length_le (s : string) (i n : nat) :
  (String.length (substring i n s) <= n)%nat.
Proof.
  revert i n. induction s as [|c s IH]; intros [|i] [|n]; simpl; try lia.
  - specialize (IH 0%nat n). lia.
  - apply IH.
  - apply IH.
Qed.

(** C6 (as amended). A record is found exactly when its normalized UID
    ends with the whole normalized query; for a query of exactly eight
    characters this is equality with the last eight characters of the
    record's UID. *)
Theorem lookup_matches_query_suffix (uid : string) (tag : TagRecord) :
  (is_Some (find_tonie_by_uid uid [tag] [])
   <-> exists pre,
        normalize_uid (default "" (tag_uid tag)) = pre +:+ normalize_uid uid)
  /\ (String.length (normalize_uid uid) = 8%nat ->
      (is_Some (find_tonie_by_uid uid [tag] [])
       <-> Py.last_chars 8 (normalize_uid (default "" (tag_uid tag)))
           = normalize_uid uid)).
Proof.
  assert (Hfind : is_Some (find_tonie_by_uid uid [tag] [])
                  <-> uid_matches (normalize_uid (default "" (tag_uid tag)))
                        (normalize_uid uid) = true).
  { unfold find_tonie_by_uid. simpl.
    destruct (uid_matches _ _); simpl; split; intros H; try done.
    all: try (by destruct H). }
  split.
  - by rewrite Hfind, uid_matches_iff.
  - intros Hlen. rewrite Hfind, uid_matches_iff. split.
    + intros [pre ->]. rewrite <- Hlen. apply last_chars_suffix.
    + intros H.
      set (t := normalize_uid (default "" (tag_uid tag))) in *.
      destruct (Nat.le_gt_cases 8 (String.length t)) as [Hge | Hlt].
      * exists (substring 0 (String.length t - 8) t).
        etransitivity;
          [apply (substring_split t (String.length t - 8)); lia |].
        f_equal.
        replace (String.length t - (String.length t - 8))%nat with 8%nat by lia.
        exact H.
      * exfalso. unfold Py.last_chars in H.
        replace (String.length t - 8)%nat with 0%nat in H by lia.
        assert (Hle : (String.length (normalize_uid uid) <= String.length t)%nat).
        { rewrite <- H. clear. generalize 8%nat. induction t as [|c t IH];
            intros [|n]; simpl; try lia. specialize (IH n). lia. }
        lia.
Qed.

Lemma lookup_matches_query_suffix_witness :
  let tag := mkTagRecord (Some "E0:04:03:50:13:16:80:4B")
               None None None None [] None in
  is_Some (find_tonie_by_uid "13:16:80:4b" [tag] [])
  <-> Py.last_chars 8 (normalize_uid (default "" (tag_uid tag)))
      = normalize_uid "13:16:80:4b".
Proof.
  apply (proj2 (lookup_matches_query_suffix "13:16:80:4b"
                  (mkTagRecord (Some "E0:04:03:50:13:16:80:4B")
                     None None None None [] None))).
  reflexivity.
Defined.

(** C6, the claim as stated fails in both directions: a full-length query
    whose last eight characters agree with the record's is not found when
    an earlier byte differs, and a query shorter than eight characters is
    found although the last eight characters differ. *)
Lemma lookup_not_decided_by_last_eight :
  let tag := mkTagRecord (Some "E0:04:03:50:13:16:80:4B")
               None None None None [] None in
  (find_tonie_by_uid "AA:04:03:50:13:16:80:4B" [tag] [] = None
   /\ Py.last_chars 8 (normalize_uid "E0:04:03:50:13:16:80:4B")
      = Py.last_chars 8 (normalize_uid "AA:04:03:50:13:16:80:4B"))
  /\ (is_Some (find_tonie_by_uid "80:4B" [tag] [])
      /\ Py.last_chars 8 (normalize_uid "E0:04:03:50:13:16:80:4B")
         <> Py.last_chars 8 (normalize_uid "80:4B")).
Proof.
  vm_compute. repeat split; eauto. discriminate.
Qed.

(** ** Pseudo-tracks *)

Example pseudo_track_unknown_duration :
  scan_tracks [] 0 = [mkTrack (Some "Full Audio") (Some 7200%Z) (Some 0%Z)].
Proof. reflexivity. Qed.

Example pseudo_track_transcode :
  transcode_tracks [] 0 = [mkTrack (Some "Full Audio") (Some 3600%Z) None].
Proof. reflexivity. Qed.




(** ** Reader state machine *)

Lemma get_reader_state_present (ip : string) (states : gmap string ReaderState)
    (st : ReaderState) :
  states !! ip = Some st -> get_reader_state ip states = (states, st).
Proof. intros H. unfold get_reader_state. by rewrite H. Qed.

Lemma get_reader_state_lookup (ip : string) (states : gmap string ReaderState) :
  (get_reader_state ip states).1 !! ip = Some (get_reader_state ip states).2.
Proof.
  unfold get_reader_state. destruct (states !! ip) eqn:E; simpl; [done |].
  apply lookup_insert_eq.
Qed.

Lemma get_reader_state_other (ip ip' : string) (states : gmap string ReaderState) :
  ip' <> ip -> (get_reader_state ip states).1 !! ip' = states !! ip'.
Proof.
  intros Hne. unfold get_reader_state.
  destruct (states !! ip) eqn:E; simpl; [done |].
  by apply lookup_insert_ne.
Qed.

Lemma stop_without_current_tag (env : Env) (ip : string) (save pause : bool)
    (states : gmap string ReaderState) :
  current_tag (state_of states ip) = None ->
  stop_reader_playback env ip save pause states
  = ((get_reader_state ip states).1, []).
Proof.
  unfold state_of, stop_reader_playback.
  destruct (get_reader_state ip states) as [states' st]. simpl.
  by intros ->.
Qed.

(** C10. A tag removal on a reader without [current_tag] answers
    [{found: false}], calls no device, records no resume and leaves every
    field of that reader's state, and every other reader's state, as it
    was. *)
Theorem removal_without_current_tag_is_noop
    (env : Env) (ip : string) (request : TonieRequest) (srv : Server) :
  req_uid request = None ->
  current_tag_of srv ip = None ->
  let '(srv', out, calls) := handle_tonie env ip request srv in
  out = Ok (default_response "" false)
  /\ calls = []
  /\ state_of (reader_states srv') ip = state_of (reader_states srv) ip
  /\ resume (state_of (reader_states srv') ip)
     = resume (state_of (reader_states srv) ip)
  /\ (forall ip', ip' <> ip ->
        reader_states srv' !! ip' = reader_states srv !! ip')
  /\ (is_Some (reader_states srv !! ip) ->
      reader_states srv' = reader_states srv).
Proof.
  intros Huid Hcur. unfold handle_tonie. rewrite Huid.
  assert (Hnone : current_tag (state_of (reader_states srv) ip) = None).
  { unfold current_tag_of in Hcur. unfold state_of, get_reader_state.
    destruct (reader_states srv !! ip) as [st|]; simpl in *; done. }
  rewrite (stop_without_current_tag env ip true true _ Hnone). simpl.
  assert (Hsame : state_of (get_reader_state ip (reader_states srv)).1 ip
                  = state_of (reader_states srv) ip).
  { unfold state_of at 1.
    rewrite (get_reader_state_present ip _ _ (get_reader_state_lookup ip _)).
    done. }
  repeat split; try done.
  - by rewrite Hsame.
  - intros ip' Hne. by apply get_reader_state_other.
  - intros [st Hst]. by rewrite (get_reader_state_present ip _ st Hst).
Qed.

Lemma removal_without_current_tag_is_noop_witness :
  let '(srv', out, calls) :=
    handle_tonie sample_env "192.0.2.10" removal_request initial_server in
  out = Ok (default_response "" false)
  /\ calls = []
  /\ state_of (reader_states srv') "192.0.2.10"
     = state_of (reader_states initial_server) "192.0.2.10"
  /\ resume (state_of (reader_states srv') "192.0.2.10")
     = resume (state_of (reader_states initial_server) "192.0.2.10")
  /\ (forall ip', ip' <> "192.0.2.10" ->
        reader_states srv' !! ip' = reader_states initial_server !! ip')
  /\ (is_Some (reader_states initial_server !! "192.0.2.10") ->
      reader_states srv' = reader_states initial_server).
Proof.
  apply (removal_without_current_tag_is_noop sample_env "192.0.2.10"
           removal_request initial_server).
  - reflexivity.
  - reflexivity.
Defined.

(** C4. A second scan of the tag a reader is playing, when that tag is not
    paused for resumption, returns the existing snapshot (series, episode,
    title, picture and the stored playback URL) with
    [playback_started = false], calls no device and leaves the reader
    states as they were. *)
Theorem rescan_same_tag_is_idempotent
    (env : Env) (ip uid : string) (device_override : option Device)
    (overrides : option Overrides) (srv : Server)
    (st : ReaderState) (current : TagSnapshot) :
  reader_states srv !! ip = Some st ->
  current_tag st = Some current ->
  snap_uid current = uid ->
  paused_for uid (resume st) = false ->
  let '(srv', out, calls) :=
    play_tonie_for_reader env ip uid device_override overrides srv in
  reader_states srv' = reader_states srv
  /\ calls = []
  /\ exists resp,
      out = Ok resp
      /\ resp_uid resp = uid
      /\ resp_series resp = snap_series current
      /\ resp_episode resp = snap_episode current
      /\ resp_title resp = snap_title current
      /\ resp_picture resp = snap_picture current
      /\ resp_found resp = true
      /\ resp_playback_started resp = false
      /\ resp_playback_url resp = Some (snap_playback_url current).
Proof.
  intros Hst Hcur Huid Hpaused. unfold play_tonie_for_reader.
  rewrite (get_reader_state_present ip _ st Hst), Hcur.
  rewrite Huid, String.eqb_refl, Hpaused. simpl.
  split; [done |]. split; [done |].
  eexists. split; [reflexivity |]. by repeat split.
Qed.

Lemma rescan_same_tag_is_idempotent_witness :
  let '(srv', out, calls) :=
    play_tonie_for_reader sample_env "192.0.2.10" "E0:04:03:50:13:16:80:4B"
      None (Some no_overrides) sample_playing_server in
  reader_states srv' = reader_states sample_playing_server
  /\ calls = []
  /\ exists resp,
      out = Ok resp
      /\ resp_uid resp = "E0:04:03:50:13:16:80:4B"
      /\ resp_series resp = Some "Series"
      /\ resp_episode resp = Some "Episode"
      /\ resp_title resp = Some "Title"
      /\ resp_picture resp = None
      /\ resp_found resp = true
      /\ resp_playback_started resp = false
      /\ resp_playback_url resp
         = Some "http://srv:8754/transcode.mp3?url=http://tc/content/E00403501316804B".
Proof.
  apply (rescan_same_tag_is_idempotent sample_env "192.0.2.10"
           "E0:04:03:50:13:16:80:4B" None (Some no_overrides) sample_playing_server
           sample_playing sample_snapshot).
  - reflexivity.
  - reflexivity.
  - reflexivity.
  - reflexivity.
Defined.

(** The same re-scan through [POST /tonie]: before the call of
    [play_tonie_for_reader], [handle_tonie] stores the mode, the stream
    target and the reader address of the request in the reader state; the
    playback fields stay as they were and no device is called. *)
Lemma rescan_through_endpoint
    (env : Env) (ip uid : string) (request : TonieRequest) (srv : Server)
    (st : ReaderState) (current : TagSnapshot) :
  req_uid request = Some uid ->
  reader_states srv !! ip = Some st ->
  current_tag st = Some current ->
  snap_uid current = uid ->
  paused_for uid (resume st) = false ->
  let '(srv', out, calls) := handle_tonie env ip request srv in
  calls = []
  /\ out = Ok (snapshot_response uid current false)
  /\ exists m target,
      reader_states srv'
      = <[ip := set_stream_mode m target (Some ip) st]> (reader_states srv).
Proof.
  intros Hreq Hst Hcur Huid Hpaused. unfold handle_tonie. rewrite Hreq.
  rewrite (get_reader_state_present ip _ st Hst).
  unfold play_tonie_for_reader. cbn [reader_states connected_readers].
  match goal with
  | |- context [get_reader_state ip (<[ip := ?x]> ?m)] =>
      rewrite (get_reader_state_present ip (<[ip := x]> m) x
                 (lookup_insert_eq m ip x))
  end.
  cbn [current_tag set_stream_mode resume]. rewrite Hcur, Huid.
  rewrite String.eqb_refl, Hpaused. cbn.
  split; [done |]. split; [done |]. by eexists _, _.
Qed.

(** *** The paused tag stays displayed *)

Lemma paused_has_tag_of_tag (st : ReaderState) :
  is_Some (current_tag st) -> paused_has_tag st.
Proof. by intros H r _ _. Qed.

Lemma paused_has_tag_initial : paused_has_tag initial_reader_state.
Proof. by intros r H. Qed.

Lemma others_of_all (ip : string) (states : gmap string ReaderState) :
  all_paused_have_tag states -> others_paused_have_tag ip states.
Proof. intros H k st _. apply H. Qed.

Lemma others_insert (ip : string) (x : ReaderState)
    (states : gmap string ReaderState) :
  others_paused_have_tag ip states ->
  others_paused_have_tag ip (<[ip := x]> states).
Proof.
  intros H k st Hne. rewrite lookup_insert_ne by done. by apply H.
Qed.

Lemma all_of_others (ip : string) (x : ReaderState)
    (states : gmap string ReaderState) :
  others_paused_have_tag ip states -> paused_has_tag x ->
  all_paused_have_tag (<[ip := x]> states).
Proof.
  intros H Hx k st. destruct (decide (k = ip)) as [-> | Hne].
  - rewrite lookup_insert_eq. by intros [= <-].
  - rewrite lookup_insert_ne by done. by apply H.
Qed.

Lemma others_get_reader_state (ip : string) (states : gmap string ReaderState) :
  others_paused_have_tag ip states ->
  others_paused_have_tag ip (get_reader_state ip states).1.
Proof.
  intros H. unfold get_reader_state.
  destruct (states !! ip); simpl; [done | by apply others_insert].
Qed.

Lemma all_get_reader_state (ip : string) (states : gmap string ReaderState) :
  all_paused_have_tag states ->
  all_paused_have_tag (get_reader_state ip states).1
  /\ paused_has_tag (get_reader_state ip states).2.
Proof.
  intros H. unfold get_reader_state.
  destruct (states !! ip) as [st|] eqn:E; simpl.
  - split; [done | by apply (H ip)].
  - split; [| apply paused_has_tag_initial].
    apply all_of_others; [by apply others_of_all | apply paused_has_tag_initial].
Qed.

Lemma all_insert (ip : string) (x : ReaderState)
    (states : gmap string ReaderState) :
  all_paused_have_tag states -> paused_has_tag x ->
  all_paused_have_tag (<[ip := x]> states).
Proof. intros H. apply all_of_others. by apply others_of_all. Qed.

Lemma stop_reader_playback_others (env : Env) (ip : string) (save pause : bool)
    (states : gmap string ReaderState) :
  others_paused_have_tag ip states ->
  others_paused_have_tag ip (stop_reader_playback env ip save pause states).1.
Proof.
  intros H. unfold stop_reader_playback.
  pose proof (others_get_reader_state ip states H) as H'.
  destruct (get_reader_state ip states) as [states' st]. simpl in H'.
  destruct (current_tag st); [| done].
  destruct save; [destruct (get_resume_position env st _) |];
    destruct pause; simpl; by apply others_insert.
Qed.

Lemma stop_reader_playback_keeps (env : Env) (ip : string) (pause : bool)
    (states : gmap string ReaderState) :
  all_paused_have_tag states ->
  all_paused_have_tag (stop_reader_playback env ip true pause states).1.
Proof.
  intros H. unfold stop_reader_playback.
  destruct (all_get_reader_state ip states H) as [H' Hst].
  destruct (get_reader_state ip states) as [states' st]. simpl in H', Hst.
  destruct (current_tag st) as [current|] eqn:Hcur; [| done].
  destruct (get_resume_position env st _) as [position calls].
  destruct pause; simpl; apply all_insert; try done.
  - apply paused_has_tag_of_tag. simpl. by rewrite Hcur.
  - intros r [= <-]. simpl. discriminate.
Qed.

Lemma play_fresh_keeps (env : Env) (ip uid : string) (dov : option Device)
    (ovr : option Overrides) (states : gmap string ReaderState)
    (readers : gmap string ReaderInfo) (calls : list DeviceCall) :
  client_ready env = true ->
  others_paused_have_tag ip states ->
  all_paused_have_tag
    (reader_states (play_fresh env ip uid dov ovr states readers calls).1.1).
Proof.
  intros Hready H. unfold play_fresh. rewrite Hready. cbn [negb].
  repeat match goal with
  | |- context [let '(_, _) := ?x in _] => destruct x
  end.
  destruct (find_tonie_by_uid _ _ _); simpl;
    (apply all_of_others; [done | by apply paused_has_tag_of_tag]).
Qed.

Lemma play_tonie_for_reader_keeps (env : Env) (ip uid : string)
    (dov : option Device) (ovr : option Overrides) (srv : Server) :
  client_ready env = true ->
  all_paused_have_tag (reader_states srv) ->
  all_paused_have_tag
    (reader_states (play_tonie_for_reader env ip uid dov ovr srv).1.1).
Proof.
  intros Hready H. unfold play_tonie_for_reader.
  destruct (all_get_reader_state ip _ H) as [H' Hst].
  destruct (get_reader_state ip (reader_states srv)) as [states st].
  simpl in H', Hst.
  destruct (current_tag st) as [current|] eqn:Hcur.
  - destruct (String.eqb (snap_uid current) uid).
    + destruct (paused_for uid (resume st)); simpl; [| done].
      apply all_insert; [done |]. apply paused_has_tag_of_tag.
      destruct (resume_ok env _); simpl; by rewrite Hcur.
    + pose proof (stop_reader_playback_others env ip false false states
                    (others_of_all ip _ H')) as Hstop.
      destruct (stop_reader_playback env ip false false states)
        as [states' calls].
      by apply play_fresh_keeps.
  - apply play_fresh_keeps; [done | by apply others_of_all].
Qed.

Lemma handle_tonie_keeps (env : Env) (ip : string) (request : TonieRequest)
    (srv : Server) :
  req_uid request = None \/ client_ready env = true ->
  all_paused_have_tag (reader_states srv) ->
  all_paused_have_tag (reader_states (handle_tonie env ip request srv).1.1).
Proof.
  intros Hready H. unfold handle_tonie.
  destruct (req_uid request) as [uid|].
  - destruct Hready as [? | Hready]; [done |].
    destruct (all_get_reader_state ip _ H) as [H' Hst].
    destruct (get_reader_state ip (reader_states srv)) as [states st].
    simpl in H', Hst.
    apply play_tonie_for_reader_keeps; [done |]. simpl.
    apply all_insert; [done |].
    intros r Hr Hp. simpl in *. by apply (Hst r).
  - pose proof (stop_reader_playback_keeps env ip true _ H) as Hstop.
    by destruct (stop_reader_playback env ip true true (reader_states srv)).
Qed.

Lemma reader_playback_pause_keeps (env : Env) (ip : string)
    (states : gmap string ReaderState) :
  all_paused_have_tag states ->
  all_paused_have_tag (reader_playback_pause env ip states).1.
Proof.
  intros H. unfold reader_playback_pause.
  destruct (all_get_reader_state ip _ H) as [H' Hst].
  destruct (get_reader_state ip states) as [states' st]. simpl in H', Hst.
  destruct (current_tag st) as [current|] eqn:Hcur; [| done].
  destruct (get_resume_position env st _) as [position calls]. simpl.
  apply all_insert; [done |]. apply paused_has_tag_of_tag. simpl.
  rewrite ?Hcur. eauto.
Qed.

Lemma handle_control_command_keeps (env : Env) (ip action : string)
    (states : gmap string ReaderState) :
  action <> "stop" ->
  all_paused_have_tag states ->
  all_paused_have_tag (handle_control_command env ip action states).1.1.
Proof.
  intros Hact H. unfold handle_control_command.
  destruct (all_get_reader_state ip _ H) as [H' Hst].
  destruct (get_reader_state ip states) as [states' st]. simpl in H', Hst.
  destruct (current_tag st) as [current|] eqn:Hcur; [| done].
  destruct (String.eqb action "stop") eqn:Hstop;
    [by apply String.eqb_eq in Hstop |].
  destruct (default (Some 0%Z) (snap_duration current)) as [duration|];
  repeat match goal with
  | |- context [if ?b then _ else _] => destruct b; simpl; try done
  end;
  (apply all_insert;
   [done | apply paused_has_tag_of_tag; simpl; rewrite ?Hcur; eauto]).
Qed.

Lemma reachable_keeps_paused_tag (srv : Server) :
  reachable keeps_paused_tag srv -> all_paused_have_tag (reader_states srv).
Proof.
  induction 1 as [| srv env ev Hreach IH Hallowed].
  - intros k st. simpl. by rewrite lookup_empty.
  - destruct ev as [ip request | ip | ip | ip action |]; simpl in *.
    + by apply handle_tonie_keeps.
    + by apply reader_playback_pause_keeps.
    + by apply stop_reader_playback_keeps.
    + by apply handle_control_command_keeps.
    + done.
Qed.

(** C3 (as amended). A tag removal on a playing reader pauses the device,
    keeps [current_tag] and records
    [resume = {uid of the current tag, computed position, current device,
    paused = true}]; and [resume.paused = true] implies that [current_tag]
    is set in every state reached without the [stop] command of
    [POST /control], the stale-stream check of [GET /streams] and a scan
    answered by 503. *)
Theorem removal_pauses_and_keeps_tag
    (env : Env) (ip : string) (request : TonieRequest) (srv : Server)
    (st : ReaderState) (current : TagSnapshot) :
  req_uid request = None ->
  reader_states srv !! ip = Some st ->
  current_tag st = Some current ->
  (let '(srv', out, calls) := handle_tonie env ip request srv in
   let device := device_of env ip st in
   exists st',
     reader_states srv' !! ip = Some st'
     /\ current_tag st' = Some current
     /\ resume st'
        = Some {| r_uid := snap_uid current;
                  r_position := (get_resume_position env st device).1;
                  r_device := device;
                  r_paused := true |}
     /\ last calls = Some (PauseDevice device)
     /\ out = Ok (default_response "" false))
  /\ (forall srv0, reachable keeps_paused_tag srv0 ->
      forall k st0 r,
        reader_states srv0 !! k = Some st0 ->
        resume st0 = Some r -> r_paused r = true ->
        is_Some (current_tag st0)).
Proof.
  intros Huid Hst Hcur. split.
  - unfold handle_tonie, stop_reader_playback. rewrite Huid.
    rewrite (get_reader_state_present ip _ st Hst), Hcur.
    destruct (get_resume_position env st (device_of env ip st))
      as [position calls] eqn:Hpos.
    simpl. eexists. split; [apply lookup_insert_eq |].
    simpl. repeat split; try done.
    apply last_snoc.
  - intros srv0 Hreach k st0 r Hk Hr Hp.
    by apply (reachable_keeps_paused_tag srv0 Hreach k st0 Hk r).
Qed.

Lemma removal_pauses_and_keeps_tag_witness :
  let '(srv', out, calls) :=
    handle_tonie sample_env "192.0.2.10" removal_request sample_playing_server in
  exists st',
    reader_states srv' !! "192.0.2.10" = Some st'
    /\ current_tag st' = Some sample_snapshot
    /\ resume st'
       = Some {| r_uid := "E0:04:03:50:13:16:80:4B"; r_position := 42;
                 r_device := {| dev_type := "sonos"; dev_id := "RINCON_1" |};
                 r_paused := true |}
    /\ last calls
       = Some (PauseDevice {| dev_type := "sonos"; dev_id := "RINCON_1" |})
    /\ out = Ok (default_response "" false).
Proof.
  apply (proj1 (removal_pauses_and_keeps_tag sample_env "192.0.2.10"
                  removal_request sample_playing_server sample_playing
                  sample_snapshot eq_refl eq_refl eq_refl)).
Defined.

(** C3, the claim as stated fails: after a scan and a tag removal, the
    [stop] command of [POST /control] clears [current_tag] and leaves
    [resume.paused = true]; the stale-stream check of [GET /streams] does
    the same to an SD-player reader last seen more than 180 seconds ago. *)
Lemma paused_without_tag_is_reachable :
  let after_stop :=
    apply_event sample_env (Control "192.0.2.10" "stop")
      (apply_event sample_env (PostTonie "192.0.2.10" removal_request)
         (apply_event sample_env
            (PostTonie "192.0.2.10" (scan_request "E0:04:03:50:13:16:80:4B"))
            initial_server)) in
  let after_reaper :=
    apply_event (sample_env_at 1000) GetStreams
      (apply_event sample_env (PostTonie "192.0.2.10" removal_request)
         (apply_event sample_env
            (PostTonie "192.0.2.10"
               (local_scan_request "E0:04:03:50:13:16:80:4B"))
            initial_server)) in
  (reachable any_event after_stop
   /\ exists st r,
       reader_states after_stop !! "192.0.2.10" = Some st
       /\ resume st = Some r /\ r_paused r = true /\ current_tag st = None)
  /\ (reachable any_event after_reaper
      /\ exists st r,
          reader_states after_reaper !! "192.0.2.10" = Some st
          /\ resume st = Some r /\ r_paused r = true /\ current_tag st = None).
Proof.
  cbv zeta. split; split.
  - repeat (apply reachable_step; [| exact I]). apply reachable_init.
  - eexists _, _. vm_compute. repeat split; reflexivity.
  - repeat (apply reachable_step; [| exact I]). apply reachable_init.
  - eexists _, _. vm_compute. repeat split; reflexivity.
Qed.

(** ** Encoding *)

Example tracks_with_gap_durations :
  map duration tracks_with_gap = [Some 100%Z; Some 0%Z; Some 150%Z].
Proof. reflexivity. Qed.

(** C1, evaluated on a track list with a track of duration 0: the
    metadata file is written, its second entry has index 2 and not 1, and
    the concatenation, which looks the files up by position, misses
    [02.mp3]. The progressive encoder (first track, then the rest) writes
    the same indices. *)
Theorem skipped_track_leaves_index_gap :
  (exists st' m,
      encode_tonie_tracks sample_encoder "k" "http://tc/content/x"
        tracks_with_gap "Series" "Episode" "" "" empty_transcoding
      = (st', Encoded m)
      /\ folder_of "k" (cache st') ≫= metadata = Some m
      /\ map TrackInfo.index (TonieMetadata.tracks m) = [0; 2]%nat
      /\ map TrackInfo.filename (TonieMetadata.tracks m) = ["01.mp3"; "03.mp3"]
      /\ (TrackInfo.index <$> TonieMetadata.tracks m !! 1%nat) = Some 2%nat
      /\ Forall (fun t => exists_nonempty "k" (TrackInfo.filename t) (cache st') = true)
           (TonieMetadata.tracks m)
      /\ concat_track_files "k" (cache st') = None)
  /\ (exists st1 st2 m,
        encode_first_track sample_encoder "k" tracks_with_gap "" empty_transcoding
        = (st1, FirstReady)
        /\ continue_encoding_remaining_tracks sample_encoder "k"
             "http://tc/content/x" tracks_with_gap "Series" "Episode" "" "" st1
           = (st2, Encoded m)
        /\ folder_of "k" (cache st2) ≫= metadata = Some m
        /\ map TrackInfo.index (TonieMetadata.tracks m) = [0; 2]%nat
        /\ concat_track_files "k" (cache st2) = None).
Proof.
  split.
  - eexists _, _. split; [vm_compute; reflexivity |].
    split; [vm_compute; reflexivity |].
    vm_compute. repeat split; try reflexivity.
    repeat constructor.
  - eexists _, _, _. split; [vm_compute; reflexivity |].
    split; [vm_compute; reflexivity |].
    vm_compute. repeat split; reflexivity.
Qed.

(** The index of an entry is the position of its track in the input list:
    the entries are those of the tracks with a positive duration. *)
Lemma encode_all_indices (env : EncoderEnv) (key : string)
    (its : list (nat * Track)) :
  forall (infos infos' : list TrackInfo.t) (c c' : list (string * CacheItem)),
    encode_all env key its infos c = (c', Some infos') ->
    map TrackInfo.index infos'
    = (map TrackInfo.index infos ++ kept_positions its)%list.
Proof.
  unfold kept_positions.
  induction its as [|[i track] rest IH]; intros infos infos' c c' H; simpl in *.
  - injection H as _ <-. by rewrite app_nil_r.
  - destruct (Z.leb_spec (default 0%Z (duration track)) 0) as [Hle | Hgt].
    + destruct (Z.ltb_spec 0 (default 0%Z (duration track))) as [? | _]; [lia |].
      by apply (IH infos infos' c c').
    + destruct (Z.ltb_spec 0 (default 0%Z (duration track))) as [_ | ?]; [| lia].
      destruct (ffmpeg env i) as [s|]; [| done].
      rewrite (IH _ _ _ _ H), map_app. simpl. by rewrite <- app_assoc.
Qed.

Lemma kept_positions_all (first : nat) (tracks : list Track) :
  Forall (fun t => (0 < default 0 (duration t))%Z) tracks ->
  kept_positions (enumerate_from first tracks) = seq first (length tracks).
Proof.
  unfold kept_positions, enumerate_from. revert first.
  induction tracks as [|t tracks IH]; intros first Hall; [done |].
  apply Forall_cons in Hall as [Ht Hall]. simpl.
  destruct (Z.ltb_spec 0 (default 0%Z (duration t))) as [_ | ?]; [| lia].
  simpl. f_equal. by apply IH.
Qed.

(** Without a skipped track, the indices written by the album encoder
    are contiguous from 0. *)
Lemma encode_album_indices_contiguous (env : EncoderEnv) (key url : string)
    (tracks : list Track) (series episode year : string)
    (st st' : Transcoding) (m : TonieMetadata.t) :
  folder_of key (cache st) ≫= metadata = None ->
  Forall (fun t => (0 < default 0 (duration t))%Z) tracks ->
  encode_album env key url tracks series episode year st
  = (st', Encoded m) ->
  map TrackInfo.index (TonieMetadata.tracks m) = seq 0 (length tracks).
Proof.
  intros Hfresh Hpos. unfold encode_album. rewrite Hfresh.
  destruct tracks as [|t0 tracks0] eqn:Etracks; [done |]. rewrite <- Etracks in *.
  destruct (decide (key ∈ held st)); [done |].
  destruct (ensure_cache_space env _ _) as [st2 evicted].
  destruct (encode_all env key (enumerate_from 0 tracks) [] (cache st2))
    as [c3 [infos|]] eqn:Eall; [| done].
  destruct (write_metadata key _ c3); [| done].
  intros [= _ <-]. simpl.
  rewrite (encode_all_indices _ _ _ _ _ _ _ Eall). simpl.
  by apply kept_positions_all.
Qed.

(** An eviction between the two phases of progressive encoding: the first
    track of album [a] is encoded, another album's request for 900 bytes
    evicts the directory, and the second phase writes a [metadata.json]
    whose first entry names a file that is gone. *)
Example metadata_lists_evicted_first_track :
  let st1 :=
    (encode_first_track tight_encoder "a" three_tracks "" empty_transcoding).1 in
  let st2 := (ensure_cache_space tight_encoder 900 st1).1 in
  let '(st3, r) :=
    continue_encoding_remaining_tracks tight_encoder "a" "http://tc/content/x"
      three_tracks "" "" "" "" st2 in
  exists_nonempty "a" "01.mp3" (cache st1) = true
  /\ exists m,
      r = Encoded m
      /\ folder_of "a" (cache st3) ≫= metadata = Some m
      /\ map TrackInfo.filename (TonieMetadata.tracks m)
         = ["01.mp3"; "02.mp3"; "03.mp3"]
      /\ file_exists "a" "01.mp3" (cache st3) = false.
Proof.
  vm_compute. split; [reflexivity |]. eexists. repeat split; reflexivity.
Qed.

(** ** Cache eviction *)




















(** ** Playlist *)

Lemma to_dict_lookups (t : TrackInfo.t) :
  to_dict t !! "index" = Some (PInt (Z.of_nat (TrackInfo.index t)))
  /\ to_dict t !! "name" = Some (PStr (TrackInfo.name t))
  /\ to_dict t !! "duration" = None
  /\ to_dict t !! "duration_seconds" = Some (PInt (TrackInfo.duration_seconds t)).
Proof. unfold to_dict. repeat split; by simplify_map_eq. Qed.

Lemma m3u_lines_of_encoded (server_base key : string) (tracks : list TrackInfo.t) :
  m3u_lines server_base key (map to_dict tracks)
  = Some (tail (served_m3u_lines server_base key tracks)).
Proof.
  induction tracks as [|t tracks IH]; [done |].
  cbn [map m3u_lines]. unfold m3u_track_lines.
  destruct (to_dict_lookups t) as (-> & -> & -> & _).
  cbn [default py_str]. rewrite IH. reflexivity.
Qed.

(** Whatever the durations in the metadata, every [#EXTINF] line of the
    content built for an encoded album carries [-1]. *)
Lemma m3u_content_of_encoded (server_base key : string) (tracks : list TrackInfo.t) :
  m3u_content server_base key (map to_dict tracks)
  = Some (Py.join newline (served_m3u_lines server_base key tracks) +:+ newline).
Proof.
  unfold m3u_content. by rewrite m3u_lines_of_encoded.
Qed.

(** The playlist endpoint answers no request for a cached album: having
    built the content, it raises [NameError]. *)
Lemma playlist_of_encoded_album (server_base key : string)
    (c : list (string * CacheItem)) (m : TonieMetadata.t) :
  folder_of key c ≫= metadata = Some m ->
  TonieMetadata.tracks m <> [] ->
  get_playlist_m3u server_base key c = Unhandled (NameError "Response").
Proof.
  intros Hm Hne. unfold get_playlist_m3u, metadata_tracks_json. rewrite Hm.
  destruct (TonieMetadata.tracks m) as [|t ts] eqn:E; [done |].
  pose proof (m3u_content_of_encoded server_base key (t :: ts)) as H.
  cbn [map] in H |- *. cbv iota. rewrite H. reflexivity.
Qed.

(** C9, evaluated on a fully cached album with tracks of 100 and 150
    seconds. The request for its playlist ends in [NameError], because
    the endpoint hands the content to [Response], which [main.py] does
    not import: no playlist is emitted. The content that the endpoint has
    built by then has the shape that the claim gives, but both [#EXTINF]
    lines carry [-1] instead of the durations of the metadata, because
    the endpoint reads the key ["duration"] and the encoder writes
    ["duration_seconds"]. *)
Theorem playlist_is_not_served :
  exists m,
    folder_of "k" (cache two_track_album) ≫= metadata = Some m
    /\ map TrackInfo.duration_seconds (TonieMetadata.tracks m) = [100; 150]%Z
    /\ get_playlist_m3u "http://srv:8754" "k" (cache two_track_album)
       = Unhandled (NameError "Response")
    /\ m3u_content "http://srv:8754" "k" (metadata_tracks_json m)
       = Some (Py.join newline
                 [ "#EXTM3U";
                   "#EXTINF:-1,Intro"; "http://srv:8754/tracks/k/01.mp3";
                   "#EXTINF:-1,Story"; "http://srv:8754/tracks/k/02.mp3" ]
               +:+ newline)
    /\ expected_m3u_lines "http://srv:8754" "k" (TonieMetadata.tracks m)
       = [ "#EXTM3U";
           "#EXTINF:100,Intro"; "http://srv:8754/tracks/k/01.mp3";
           "#EXTINF:150,Story"; "http://srv:8754/tracks/k/02.mp3" ]
    /\ (forall body,
          get_playlist_m3u "http://srv:8754" "k" (cache two_track_album)
          <> Content body).
Proof.
  eexists. split; [vm_compute; reflexivity |].
  split; [reflexivity |].
  split; [vm_compute; reflexivity |].
  split; [vm_compute; reflexivity |].
  split; [vm_compute; reflexivity |].
  intros body. vm_compute. discriminate.
Qed.

(** ** Upload retries *)

Example retry_delays :
  map retry_delay [1; 2; 3]%nat = [5; 10; 20]%Z.
Proof. reflexivity. Qed.

Lemma sleeps_app (a b : list UploadEvent) : sleeps (a ++ b) = (sleeps a ++ sleeps b)%list.
Proof. unfold sleeps. apply omap_app. Qed.

Lemma posts_app (a b : list UploadEvent) : posts (a ++ b) = (posts a ++ posts b)%list.
Proof. unfold posts. apply omap_app. Qed.

(** The attempts made are the first ones of the list, and a delay is slept
    before each attempt but attempt 0. *)
Lemma retry_loop_trace (env : UploadEnv) (attempts : list nat)
    (last_error : option string) :
  exists n,
    posts (retry_loop env attempts last_error).2 = take n attempts
    /\ sleeps (retry_loop env attempts last_error).2
       = map retry_delay (List.filter (fun k => (0 <? k)%nat) (take n attempts)).
Proof.
  revert last_error. induction attempts as [|k rest IH]; intros last_error.
  - by exists 0%nat.
  - simpl. destruct (cancel_at env k); [by exists 0%nat |].
    assert (Hhead : forall evs,
      posts ((if (0 <? k)%nat
              then [SetStatus "retrying"; Sleep (retry_delay k)] else [])
             ++ [SetStatus "uploading"; Post k] ++ evs)%list = k :: posts evs
      /\ sleeps ((if (0 <? k)%nat
                  then [SetStatus "retrying"; Sleep (retry_delay k)] else [])
                 ++ [SetStatus "uploading"; Post k] ++ evs)%list
         = ((if (0 <? k)%nat then [retry_delay k] else []) ++ sleeps evs)%list).
    { intros evs. by destruct (0 <? k)%nat. }
    assert (Hcont : forall e,
      exists n,
        posts (((if (0 <? k)%nat
                 then [SetStatus "retrying"; Sleep (retry_delay k)] else [])
                ++ [SetStatus "uploading"; Post k])
               ++ (retry_loop env rest e).2)%list = take n (k :: rest)
        /\ sleeps (((if (0 <? k)%nat
                     then [SetStatus "retrying"; Sleep (retry_delay k)] else [])
                    ++ [SetStatus "uploading"; Post k])
                   ++ (retry_loop env rest e).2)%list
           = map retry_delay
               (List.filter (fun k => (0 <? k)%nat) (take n (k :: rest)))).
    { intros e. destruct (IH e) as (n & Hp & Hs). exists (S n).
      rewrite <- !app_assoc. destruct (Hhead (retry_loop env rest e).2) as [-> ->].
      rewrite Hp, Hs. simpl. by destruct (0 <? k)%nat. }
    assert (Hstop : forall last,
      exists n,
        posts (((if (0 <? k)%nat
                 then [SetStatus "retrying"; Sleep (retry_delay k)] else [])
                ++ [SetStatus "uploading"; Post k]) ++ [SetStatus last])%list
        = take n (k :: rest)
        /\ sleeps (((if (0 <? k)%nat
                     then [SetStatus "retrying"; Sleep (retry_delay k)] else [])
                    ++ [SetStatus "uploading"; Post k]) ++ [SetStatus last])%list
           = map retry_delay
               (List.filter (fun k => (0 <? k)%nat) (take n (k :: rest)))).
    { intros last. exists 1%nat. rewrite <- !app_assoc.
      destruct (Hhead [SetStatus last]) as [-> ->]. simpl.
      rewrite take_0. simpl. by destruct (0 <? k)%nat. }
    destruct (outcome env k) as [| status text | | | message]; simpl.
    + apply Hstop.
    + specialize (Hcont (Some ("HTTP " +:+ Py.str_of_Z status +:+ ": " +:+ text))).
      by destruct (retry_loop env rest _).
    + specialize (Hcont (Some "Timeout")). by destruct (retry_loop env rest _).
    + apply Hstop.
    + specialize (Hcont (Some message)). by destruct (retry_loop env rest _).
Qed.

(** C7, evaluated with the default [max_retries = 3]: the file is posted at
    most three times in all, that is retried at most twice, and the delays
    are 5 and 10 seconds; no run sleeps 20 seconds. When every attempt is
    answered by status 500, the three posts and the two delays are followed
    by the error. *)
Theorem default_upload_retries_twice :
  (forall env,
      let evs := (upload_to_espuino env default_max_retries).2 in
      (length (posts evs) <= 3)%nat
      /\ (sleeps evs = [] \/ sleeps evs = [5%Z] \/ sleeps evs = [5; 10]%Z)
      /\ ~ In 20%Z (sleeps evs))
  /\ (let '(r, evs) := upload_to_espuino always_500 default_max_retries in
      r = {| success := false;
             error := Some "HTTP 500: Internal Server Error" |}
      /\ posts evs = [0; 1; 2]%nat
      /\ sleeps evs = [5; 10]%Z).
Proof.
  split.
  - intros env. cbv zeta.
    assert (H : let evs := (upload_to_espuino env default_max_retries).2 in
                (length (posts evs) <= 3)%nat
                /\ (sleeps evs = [] \/ sleeps evs = [5%Z]
                    \/ sleeps evs = [5; 10]%Z)).
    { cbv zeta. unfold upload_to_espuino, default_max_retries.
      destruct (source_exists env); cbn [negb];
        [| cbn; split; [lia | by left]].
      destruct (cancel_before_start env); [cbn; split; [lia | by left] |].
      destruct (retry_loop_trace env [0; 1; 2]%nat None) as (n & Hp & Hs).
      change (seq 0 3) with [0; 1; 2]%nat.
      destruct (retry_loop env [0; 1; 2]%nat None) as [r evs].
      cbn [snd] in *.
      change (posts (SetStatus "uploading" :: EnsureDir :: evs)) with (posts evs).
      change (sleeps (SetStatus "uploading" :: EnsureDir :: evs)) with (sleeps evs).
      rewrite Hp, Hs.
      destruct n as [|[|[|n]]]; simpl; rewrite ?take_nil; simpl;
        (split; [lia |]); auto. }
    cbv zeta in H. destruct H as [Hposts Hsleeps].
    split; [done |]. split; [done |].
    destruct Hsleeps as [-> | [-> | ->]]; simpl; intros Hin;
      repeat destruct Hin as [Hin | Hin]; try done.
  - vm_compute. repeat split; reflexivity.
Qed.

(** * Further properties *)

(** ** [teddycloud.py]: tracks and lookup *)

Lemma total_duration_app (l l' : list Track) :
  total_duration_of (l ++ l')%list
  = (total_duration_of l + total_duration_of l')%Z.
Proof.
  induction l as [| t l IH]; simpl; [done |].
  unfold total_duration_of in *. simpl. rewrite IH. lia.
Qed.

Lemma build_tracks_lookup (ts : list Z) (names : list string) (i : nat) :
  (i + 1 < length ts)%nat ->
  exists n,
    build_tracks ts names !! i
    = Some {| name := Some n;
              duration := Some (nth (i + 1) ts 0 - nth i ts 0)%Z;
              start := Some (nth i ts 0%Z) |}.
Proof.
  intros Hi. unfold build_tracks, num_tracks_of.
  rewrite list_lookup_fmap.
  rewrite lookup_seq_lt by lia. simpl.
  destruct (Nat.ltb_spec (i + 1) (length ts)); [| lia].
  eexists. reflexivity.
Qed.

Lemma build_tracks_length (ts : list Z) (names : list string) :
  length (build_tracks ts names) = (length ts - 1)%nat.
Proof. unfold build_tracks, num_tracks_of. by rewrite length_map, length_seq. Qed.

Lemma total_duration_telescope (ts : list Z) (names : list string) (m k : nat) :
  (k + m < length ts)%nat ->
  total_duration_of (take m (drop k (build_tracks ts names)))
  = (nth (k + m) ts 0 - nth k ts 0)%Z.
Proof.
  revert k. induction m as [| m IH]; intros k Hk.
  - rewrite take_0, Nat.add_0_r. simpl. lia.
  - destruct (build_tracks_lookup ts names k) as [n Hn]; [lia |].
    rewrite (drop_S _ _ _ Hn). rewrite firstn_cons.
    change (total_duration_of (?t :: ?l))
      with (default 0 (duration t) + total_duration_of l)%Z.
    rewrite IH by lia.
    replace (S k + m)%nat with (k + S m)%nat by lia.
    replace (k + 1)%nat with (S k) by lia.
    cbn [duration from_option id]. lia.
Qed.

(** X1. The tracks built from the cumulative [trackSeconds] of a tag are
    one fewer than its entries, each starts where the one before ends, and
    their durations add up to the last entry minus the first. *)
Theorem build_tracks_partition (ts : list Z) (names : list string) :
  length (build_tracks ts names) = (length ts - 1)%nat
  /\ (forall i t t',
        build_tracks ts names !! i = Some t ->
        build_tracks ts names !! S i = Some t' ->
        start t' = Some (default 0 (start t) + default 0 (duration t))%Z)
  /\ total_duration_of (build_tracks ts names) = (duration_of ts - hd 0 ts)%Z.
Proof.
  split; [apply build_tracks_length |]. split.
  - intros i t t' Ht Ht'.
    assert (Hi : (S i < length ts - 1)%nat).
    { rewrite <- (build_tracks_length ts names). by eapply lookup_lt_Some. }
    destruct (build_tracks_lookup ts names i) as [n Hn]; [lia |].
    destruct (build_tracks_lookup ts names (S i)) as [n' Hn']; [lia |].
    rewrite Hn in Ht. rewrite Hn' in Ht'.
    injection Ht as <-. injection Ht' as <-. simpl.
    replace (i + 1)%nat with (S i) by lia. f_equal. lia.
  - destruct ts as [| a ts]; [done |].
    pose proof (total_duration_telescope (a :: ts) names (length ts) 0) as H.
    rewrite drop_0 in H.
    rewrite take_ge in H by (rewrite build_tracks_length; simpl; lia).
    rewrite H by (simpl; lia).
    unfold duration_of. simpl hd.
    replace (List.last (a :: ts) 0%Z) with (nth (0 + length ts) (a :: ts) 0%Z);
      [done |].
    simpl. clear H. revert a. induction ts as [| b ts IH]; intros a; [done |].
    simpl. rewrite <- IH. by destruct ts.
Qed.

Lemma find_in_tags_none (uid : string) (tags : list TagRecord) :
  find_in_tags uid tags = None
  <-> Forall (fun tag =>
        uid_matches (normalize_uid (default "" (tag_uid tag))) (normalize_uid uid)
        = false) tags.
Proof.
  induction tags as [| tag tags IH]; simpl.
  - split; [constructor | done].
  - destruct (uid_matches _ _) eqn:E.
    + split; [done |]. intros H. inversion H; subst. congruence.
    + rewrite IH. split; [by constructor |]. intros H. by inversion H.
Qed.

Lemma find_in_catalog_none (uid : string) (tonies : list Tonie) :
  find_in_catalog uid tonies = None
  <-> Forall (fun tonie =>
        uid_matches (normalize_uid (default "" (t_uid tonie))) (normalize_uid uid)
        = false
        /\ uid_matches (Py.upper (default "" (t_model tonie))) (normalize_uid uid)
           = false) tonies.
Proof.
  induction tonies as [| tonie tonies IH]; simpl.
  - split; [constructor | done].
  - destruct (uid_matches (normalize_uid _) _) eqn:E.
    + split; [done |]. intros H. inversion H as [| ? ? [H1 _]]; subst. congruence.
    + destruct (uid_matches (Py.upper _) _) eqn:E'.
      * split; [done |]. intros H. inversion H as [| ? ? [_ H1]]; subst. congruence.
      * rewrite IH. split; [by constructor |]. intros H. by inversion H.
Qed.

Lemma uid_matches_false_iff (tag_uid q : string) :
  uid_matches tag_uid q = false <-> ~ exists pre, tag_uid = pre +:+ q.
Proof.
  rewrite <- uid_matches_iff. by destruct (uid_matches tag_uid q).
Qed.

(** X2. The lookup finds nothing exactly when no UID of the tag index and
    neither the UID nor the model of any catalog entry (upper-cased, the
    UIDs without colons) ends with the normalized query. *)
Theorem lookup_fails_iff_nothing_matches
    (uid : string) (tags : list TagRecord) (tonies : list Tonie) :
  find_tonie_by_uid uid tags tonies = None
  <-> Forall (fun tag =>
        ~ exists pre,
            normalize_uid (default "" (tag_uid tag)) = pre +:+ normalize_uid uid)
        tags
      /\ Forall (fun tonie =>
           (~ exists pre,
               normalize_uid (default "" (t_uid tonie)) = pre +:+ normalize_uid uid)
           /\ (~ exists pre,
                 Py.upper (default "" (t_model tonie)) = pre +:+ normalize_uid uid))
           tonies.
Proof.
  unfold find_tonie_by_uid.
  transitivity (find_in_tags uid tags = None /\ find_in_catalog uid tonies = None).
  { destruct (find_in_tags uid tags); split; try done; intros [? ?]; done. }
  rewrite find_in_tags_none, find_in_catalog_none.
  rewrite !Forall_forall.
  split; intros [H1 H2]; split; intros x Hx.
  - apply uid_matches_false_iff, H1, Hx.
  - destruct (H2 x Hx) as [Ha Hb]. split; by apply uid_matches_false_iff.
  - apply uid_matches_false_iff, H1, Hx.
  - destruct (H2 x Hx) as [Ha Hb]. split; by apply uid_matches_false_iff.
Qed.

(** X3. The first tag of the index whose UID ends with the query decides
    the lookup: the answer is built from that tag, under the UID as it was
    queried, whatever tags follow and whatever the catalog holds. *)
Theorem first_matching_tag_wins
    (uid : string) (before : list TagRecord) (tag : TagRecord)
    (after : list TagRecord) (tonies : list Tonie) (suffix_of : string) :
  Forall (fun t =>
            ~ exists pre,
                normalize_uid (default "" (tag_uid t)) = pre +:+ normalize_uid uid)
    before ->
  normalize_uid (default "" (tag_uid tag)) = suffix_of +:+ normalize_uid uid ->
  find_tonie_by_uid uid (before ++ tag :: after)%list tonies
  = Some (tonie_of_tag uid tag)
  /\ t_uid (tonie_of_tag uid tag) = Some uid.
Proof.
  intros Hbefore Htag. split; [| done].
  unfold find_tonie_by_uid.
  induction Hbefore as [| t before Ht _ IH]; simpl.
  - assert (E : uid_matches (normalize_uid (default "" (tag_uid tag)))
                  (normalize_uid uid) = true).
    { apply uid_matches_iff. by exists suffix_of. }
    by rewrite E.
  - apply uid_matches_false_iff in Ht. by rewrite Ht.
Qed.

Lemma first_matching_tag_wins_witness :
  find_tonie_by_uid "13:16:80:4b"
    [ mkTagRecord (Some "E0:04:03:50:AA:BB:CC:DD") None None None None [] None;
      mkTagRecord (Some "E0:04:03:50:13:16:80:4B") None None None None
        [0; 100]%Z None;
      mkTagRecord (Some "13:16:80:4B") None None None None [] None ]
    []
  = Some (tonie_of_tag "13:16:80:4b"
            (mkTagRecord (Some "E0:04:03:50:13:16:80:4B") None None None None
               [0; 100]%Z None))
  /\ t_uid (tonie_of_tag "13:16:80:4b"
              (mkTagRecord (Some "E0:04:03:50:13:16:80:4B") None None None None
                 [0; 100]%Z None))
     = Some "13:16:80:4b".
Proof.
  apply (first_matching_tag_wins "13:16:80:4b"
           [ mkTagRecord (Some "E0:04:03:50:AA:BB:CC:DD") None None None None [] None ]
           (mkTagRecord (Some "E0:04:03:50:13:16:80:4B") None None None None
              [0; 100]%Z None)
           [ mkTagRecord (Some "13:16:80:4B") None None None None [] None ]
           [] "E0040350").
  - constructor; [| constructor].
    apply uid_matches_false_iff. vm_compute. reflexivity.
  - vm_compute. reflexivity.
Defined.

(** X4. A query that is empty once its colons are removed matches every
    UID: the lookup answers with the first tag of the index. *)
Theorem empty_query_matches_first_tag
    (uid : string) (tag : TagRecord) (tags : list TagRecord) (tonies : list Tonie) :
  normalize_uid uid = "" ->
  find_tonie_by_uid uid (tag :: tags) tonies = Some (tonie_of_tag uid tag).
Proof.
  intros Hq. unfold find_tonie_by_uid. simpl.
  assert (E : uid_matches (normalize_uid (default "" (tag_uid tag)))
                (normalize_uid uid) = true).
  { apply uid_matches_iff. exists (normalize_uid (default "" (tag_uid tag))).
    rewrite Hq. symmetry. apply app_empty_r. }
  by rewrite E.
Qed.

Lemma empty_query_matches_first_tag_witness :
  find_tonie_by_uid ":"
    [ mkTagRecord (Some "E0:04:03:50:13:16:80:4B") None None None None [] None ] []
  = Some (tonie_of_tag ":"
            (mkTagRecord (Some "E0:04:03:50:13:16:80:4B") None None None None [] None)).
Proof.
  apply (empty_query_matches_first_tag ":"
           (mkTagRecord (Some "E0:04:03:50:13:16:80:4B") None None None None [] None)
           [] []).
  reflexivity.
Defined.

(** ** [main.py]: the UID mapping file *)

Example uid_map_path_of_nothing :
  build_espuino_uid_map_path "" = "/teddycloud/uids/UNKNOWN.json".
Proof. reflexivity. Qed.

Example uid_map_path_short :
  build_espuino_uid_map_path "0e:f4" = "/teddycloud/uids/0E-F4.json".
Proof. reflexivity. Qed.

Lemma last_four_length {A} (l : list A) :
  (4 <= length l)%nat -> length (last_four l) = 4%nat.
Proof. intros H. unfold last_four. rewrite length_drop. lia. Qed.

Lemma last_chars_plain_form (bs : list nat) :
  (4 <= length bs)%nat ->
  Py.last_chars 8 (plain_form bs) = plain_form (last_four bs).
Proof.
  intros Hlen.
  rewrite <- (take_drop (length bs - 4) bs) at 1.
  rewrite plain_form_app. fold (last_four bs).
  pose proof (last_chars_suffix (plain_form (take (length bs - 4) bs))
                (plain_form (last_four bs))) as H.
  rewrite plain_form_length, last_four_length in H by done. exact H.
Qed.

Lemma slices_of_four_pairs (bs : list nat) :
  length bs = 4%nat ->
  map (fun i => Py.slice i (i + 2) (plain_form bs)) [0; 2; 4; 6]%nat
  = map hex_pair bs.
Proof.
  intros Hlen.
  destruct bs as [| a [| b [| c [| d [| e bs]]]]]; simpl in Hlen; try lia.
  unfold plain_form, hex_pair. reflexivity.
Qed.

(** X5. For a UID of at least four bytes written as two-digit hex pairs,
    with or without colons and in either case, the UID suffix is the last
    four bytes joined by dashes, and the mapping file of the tag is named
    after them alone. *)
Theorem uid_suffix_is_last_four_bytes (uid : string) (bs : list nat) :
  (4 <= length bs)%nat ->
  Forall (fun b => (b < 256)%nat) bs ->
  Py.upper uid = colon_form bs \/ Py.upper uid = plain_form bs ->
  _uid_suffix_from_uid uid = Py.join "-" (map hex_pair (last_four bs))
  /\ build_espuino_uid_map_path uid
     = "/teddycloud/uids/" +:+ Py.join "-" (map hex_pair (last_four bs))
       +:+ ".json".
Proof.
  intros Hlen Hbs Hform.
  assert (Hne : bs <> []) by (destruct bs; simpl in Hlen; [lia | done]).
  assert (Huid : Py.truthy uid = true).
  { apply truthy_of_upper.
    destruct Hform as [-> | ->];
      [by apply colon_form_nonempty | by apply plain_form_nonempty]. }
  assert (Hsuffix :
    _uid_suffix_from_uid uid = Py.join "-" (map hex_pair (last_four bs))).
  { unfold _uid_suffix_from_uid. rewrite Huid. cbn [negb].
    destruct Hform as [-> | ->].
    - rewrite contains_colon_form by lia.
      rewrite split_join_pairs by done.
      rewrite filter_truthy_pairs, length_map.
      destruct (Nat.leb_spec 4 (length bs)); [| lia].
      by rewrite last_four_map.
    - rewrite contains_plain_form by done.
      rewrite keep_plain_form by done.
      rewrite plain_form_length.
      destruct (Nat.leb_spec 8 (2 * length bs)); [| lia].
      rewrite last_chars_plain_form by done.
      by rewrite slices_of_four_pairs by (by apply last_four_length). }
  split; [exact Hsuffix |].
  unfold build_espuino_uid_map_path. rewrite Hsuffix.
  pose proof (last_four_length bs Hlen) as H4.
  destruct (last_four bs) as [| a [| b l]]; simpl in H4; try lia.
  reflexivity.
Qed.

Lemma uid_suffix_is_last_four_bytes_witness :
  _uid_suffix_from_uid "e00403501316804b" = "13-16-80-4B"
  /\ build_espuino_uid_map_path "e00403501316804b"
     = "/teddycloud/uids/13-16-80-4B.json".
Proof.
  apply (uid_suffix_is_last_four_bytes "e00403501316804b"
           [224; 4; 3; 80; 19; 22; 128; 75]%nat).
  - simpl. lia.
  - repeat constructor; lia.
  - right. reflexivity.
Defined.

(** ** [main.py]: positions *)

Lemma get_resume_position_nonneg (env : Env) (st : ReaderState) (d : Device) :
  (0 <= (get_resume_position env st d).1)%Z.
Proof.
  unfold get_resume_position.
  destruct (String.eqb (dev_type d) "browser"); simpl; [lia |].
  destruct (device_position env d) as [p|]; simpl.
  - destruct (Z.gtb_spec p 0); simpl; [lia |].
    destruct (current_started_at st); lia.
  - destruct (current_started_at st); simpl; lia.
Qed.

Lemma nonneg_initial : positions_nonneg initial_reader_state.
Proof. repeat split; simpl; try lia; done. Qed.

Lemma all_nonneg_insert (ip : string) (x : ReaderState)
    (states : gmap string ReaderState) :
  all_positions_nonneg states -> positions_nonneg x ->
  all_positions_nonneg (<[ip := x]> states).
Proof.
  intros H Hx k st. destruct (decide (k = ip)) as [-> | Hne].
  - rewrite lookup_insert_eq. by intros [= <-].
  - rewrite lookup_insert_ne by done. by apply H.
Qed.

Lemma all_nonneg_get (ip : string) (states : gmap string ReaderState) :
  all_positions_nonneg states ->
  all_positions_nonneg (get_reader_state ip states).1
  /\ positions_nonneg (get_reader_state ip states).2.
Proof.
  intros H. unfold get_reader_state.
  destruct (states !! ip) as [st|] eqn:E; simpl.
  - split; [done | by apply (H ip)].
  - split; [| apply nonneg_initial].
    apply all_nonneg_insert; [done | apply nonneg_initial].
Qed.

Lemma stop_reader_playback_nonneg (env : Env) (ip : string) (save pause : bool)
    (states : gmap string ReaderState) :
  all_positions_nonneg states ->
  all_positions_nonneg (stop_reader_playback env ip save pause states).1.
Proof.
  intros H. unfold stop_reader_playback.
  destruct (all_nonneg_get ip states H) as [H' Hst].
  destruct (get_reader_state ip states) as [states' st]. simpl in H', Hst.
  destruct (current_tag st) as [current|] eqn:Hcur; [| done].
  destruct Hst as (Ho & Hr & Hres & Htag).
  pose proof (get_resume_position_nonneg env st (device_of env ip st)) as Hpos.
  destruct (get_resume_position env st _) as [position calls]. simpl in Hpos.
  destruct save, pause; simpl; apply all_nonneg_insert; try done;
    repeat split; simpl; try lia; try done;
    try (intros r [= <-]; simpl; lia).
Qed.

Lemma play_fresh_nonneg (env : Env) (ip uid : string) (dov : option Device)
    (ovr : option Overrides) (states : gmap string ReaderState)
    (readers : gmap string ReaderInfo) (calls : list DeviceCall) :
  all_positions_nonneg states ->
  all_positions_nonneg
    (reader_states (play_fresh env ip uid dov ovr states readers calls).1.1).
Proof.
  intros H. unfold play_fresh.
  destruct (client_ready env); cbn [negb]; [| done].
  assert (Hst : positions_nonneg (default initial_reader_state (states !! ip))).
  { destruct (states !! ip) as [st|] eqn:E; simpl;
      [by apply (H ip) | apply nonneg_initial]. }
  destruct Hst as (Ho & Hr & Hres & Htag).
  destruct (resume (default initial_reader_state (states !! ip)))
    as [r|] eqn:Er.
  - pose proof (Hres r eq_refl) as Hrp.
    destruct (String.eqb (r_uid r) uid);
      repeat match goal with
      | |- context [let '(_, _) := ?x in _] => destruct x
      end;
      destruct (find_tonie_by_uid _ _ _); simpl;
      (apply all_nonneg_insert; [done |]);
      repeat split; simpl; try lia; try done;
      try (by destruct (String.eqb _ "browser"); lia);
      try (intros ? [= <-]; simpl; lia);
      try (rewrite Er; intros ? [= <-]; lia).
  - repeat match goal with
    | |- context [let '(_, _) := ?x in _] => destruct x
    end;
    destruct (find_tonie_by_uid _ _ _); simpl;
    (apply all_nonneg_insert; [done |]);
    repeat split; simpl; try lia; try done;
    try (by destruct (String.eqb _ "browser"); lia);
    try (intros ? [= <-]; simpl; lia);
    try (rewrite Er; done).
Qed.

Lemma play_tonie_for_reader_nonneg (env : Env) (ip uid : string)
    (dov : option Device) (ovr : option Overrides) (srv : Server) :
  all_positions_nonneg (reader_states srv) ->
  all_positions_nonneg
    (reader_states (play_tonie_for_reader env ip uid dov ovr srv).1.1).
Proof.
  intros H. unfold play_tonie_for_reader.
  destruct (all_nonneg_get ip _ H) as [H' Hst].
  destruct (get_reader_state ip (reader_states srv)) as [states st].
  simpl in H', Hst.
  destruct (current_tag st) as [current|] eqn:Hcur.
  - destruct (String.eqb (snap_uid current) uid).
    + destruct (paused_for uid (resume st)); simpl; [| done].
      apply all_nonneg_insert; [done |].
      destruct Hst as (Ho & Hr & Hres & Htag).
      destruct (resume_ok env _); repeat split; simpl; try done.
    + pose proof (stop_reader_playback_nonneg env ip false false _ H') as Hstop.
      destruct (stop_reader_playback env ip false false states)
        as [states' calls].
      by apply play_fresh_nonneg.
  - by apply play_fresh_nonneg.
Qed.

Lemma handle_tonie_nonneg (env : Env) (ip : string) (request : TonieRequest)
    (srv : Server) :
  all_positions_nonneg (reader_states srv) ->
  all_positions_nonneg (reader_states (handle_tonie env ip request srv).1.1).
Proof.
  intros H. unfold handle_tonie.
  destruct (req_uid request) as [uid|].
  - destruct (all_nonneg_get ip _ H) as [H' Hst].
    destruct (get_reader_state ip (reader_states srv)) as [states st].
    simpl in H', Hst.
    apply play_tonie_for_reader_nonneg. simpl.
    apply all_nonneg_insert; [done |].
    destruct Hst as (Ho & Hr & Hres & Htag). repeat split; simpl; done.
  - pose proof (stop_reader_playback_nonneg env ip true true _ H) as Hstop.
    by destruct (stop_reader_playback env ip true true (reader_states srv)).
Qed.

Lemma reader_playback_pause_nonneg (env : Env) (ip : string)
    (states : gmap string ReaderState) :
  all_positions_nonneg states ->
  all_positions_nonneg (reader_playback_pause env ip states).1.
Proof.
  intros H. unfold reader_playback_pause.
  destruct (all_nonneg_get ip _ H) as [H' Hst].
  destruct (get_reader_state ip states) as [states' st]. simpl in H', Hst.
  destruct (current_tag st) as [current|] eqn:Hcur; [| done].
  pose proof (get_resume_position_nonneg env st (device_of env ip st)) as Hpos.
  destruct (get_resume_position env st _) as [position calls]. simpl in *.
  apply all_nonneg_insert; [done |].
  destruct Hst as (Ho & Hr & Hres & Htag).
  repeat split; simpl; try lia; [intros r [= <-]; simpl; lia |].
  rewrite ?Hcur. intros t [= <-]. by apply Htag.
Qed.

Lemma handle_control_command_nonneg (env : Env) (ip action : string)
    (states : gmap string ReaderState) :
  all_positions_nonneg states ->
  all_positions_nonneg (handle_control_command env ip action states).1.1.
Proof.
  intros H. unfold handle_control_command.
  destruct (all_nonneg_get ip _ H) as [H' Hst].
  destruct (get_reader_state ip states) as [states' st]. simpl in H', Hst.
  destruct (current_tag st) as [current|] eqn:Hcur; [| done].
  destruct Hst as (Ho & Hr & Hres & Htag).
  destruct (default (Some 0%Z) (snap_duration current)) as [duration|];
    [destruct (Z.gtb_spec duration 0) as [Hd | Hd] |];
  repeat match goal with
  | |- context [if ?b then _ else _] => destruct b; simpl; try done
  end;
  (apply all_nonneg_insert; [done |]);
  repeat split; simpl; try lia; try done;
  rewrite ?Hcur; try done;
  intros t [= <-]; by apply Htag.
Qed.

Lemma get_streams_nonneg (env : Env) (srv : Server) :
  all_positions_nonneg (reader_states srv) ->
  all_positions_nonneg (reader_states (get_streams env srv)).
Proof.
  intros H k st. simpl. rewrite map_lookup_imap.
  destruct (reader_states srv !! k) as [st0|] eqn:E; simpl; [| done].
  intros [= <-]. pose proof (H k st0 E) as Hst0.
  unfold reap_stale_reader.
  destruct (current_tag st0); [| done].
  destruct (_ && _); [| done].
  destruct (connected_readers srv !! k) as [info|]; [| done].
  destruct (_ >? _)%Z; [| done].
  destruct Hst0 as (Ho & Hr & Hres & Htag). by repeat split.
Qed.

Lemma reachable_positions_nonneg (srv : Server) :
  reachable any_event srv -> all_positions_nonneg (reader_states srv).
Proof.
  induction 1 as [| srv env ev Hreach IH Hallowed].
  - intros k st. simpl. by rewrite lookup_empty.
  - destruct ev as [ip request | ip | ip | ip action |]; simpl.
    + by apply handle_tonie_nonneg.
    + by apply reader_playback_pause_nonneg.
    + by apply stop_reader_playback_nonneg.
    + by apply handle_control_command_nonneg.
    + by apply get_streams_nonneg.
Qed.

(** X6. Whatever scans, removals, pauses, stops, control commands and
    stream listings a server has served, no reader holds a negative
    position: neither the offset, nor the reported position, nor a saved
    resume position, nor the start position of the current tag. *)
Theorem positions_are_never_negative
    (srv : Server) (reader_ip : string) (st : ReaderState) :
  reachable any_event srv ->
  reader_states srv !! reader_ip = Some st ->
  (0 <= current_offset st)%Z
  /\ (0 <= last_reported_position st)%Z
  /\ (forall r, resume st = Some r -> (0 <= r_position r)%Z)
  /\ (forall t, current_tag st = Some t -> (0 <= snap_start_position t)%Z).
Proof.
  intros Hreach Hst.
  exact (reachable_positions_nonneg srv Hreach reader_ip st Hst).
Qed.

Lemma positions_are_never_negative_witness :
  let srv :=
    apply_event sample_env (PostTonie "192.0.2.10" removal_request)
      (apply_event sample_env
         (PostTonie "192.0.2.10" (scan_request "E0:04:03:50:13:16:80:4B"))
         initial_server) in
  let st := state_of (reader_states srv) "192.0.2.10" in
  (0 <= current_offset st)%Z
  /\ (0 <= last_reported_position st)%Z
  /\ (forall r, resume st = Some r -> (0 <= r_position r)%Z)
  /\ (forall t, current_tag st = Some t -> (0 <= snap_start_position t)%Z).
Proof.
  intros srv st.
  apply (positions_are_never_negative srv "192.0.2.10" st).
  - apply reachable_step; [| exact I].
    apply reachable_step; [| exact I].
    apply reachable_init.
  - vm_compute. reflexivity.
Defined.

(** ** [main.py]: how the requests of a reader compose *)

Lemma device_of_set_stream_mode (env : Env) (ip : string) (m : option string)
    (target : option Device) (e : option string) (st : ReaderState) :
  device_of env ip (set_stream_mode m target e st) = device_of env ip st.
Proof. done. Qed.

(** X7. Taking the tag off and putting the same tag back resumes the
    paused device instead of starting over: the second scan makes one
    call, [resume_device] on the device of the reader, keeps the current
    tag, and clears the saved resume exactly when the device resumed. *)
Theorem removal_then_rescan_resumes
    (env env' : Env) (ip uid : string) (removal rescan : TonieRequest)
    (srv : Server) (st : ReaderState) (current : TagSnapshot) :
  req_uid removal = None ->
  req_uid rescan = Some uid ->
  reader_states srv !! ip = Some st ->
  current_tag st = Some current ->
  snap_uid current = uid ->
  let srv1 := (handle_tonie env ip removal srv).1.1 in
  let '(srv2, out, calls) := handle_tonie env' ip rescan srv1 in
  let device := device_of env' ip st in
  calls = [ResumeDevice device]
  /\ out = Ok (snapshot_response uid current (resume_ok env' device))
  /\ exists st2,
      reader_states srv2 !! ip = Some st2
      /\ current_tag st2 = Some current
      /\ resume st2
         = if resume_ok env' device then None
           else Some {| r_uid := uid;
                        r_position :=
                          (get_resume_position env st (device_of env ip st)).1;
                        r_device := device_of env ip st;
                        r_paused := true |}.
Proof.
  intros Hremoval Hrescan Hst Hcur Huid. simpl.
  unfold handle_tonie at 2. rewrite Hremoval.
  unfold stop_reader_playback.
  rewrite (get_reader_state_present ip _ st Hst), Hcur.
  destruct (get_resume_position env st (device_of env ip st))
    as [position calls1] eqn:Hpos.
  cbn [fst snd].
  unfold handle_tonie. rewrite Hrescan. cbn [reader_states connected_readers].
  rewrite (get_reader_state_present ip _ _ (lookup_insert_eq _ _ _)).
  unfold play_tonie_for_reader. cbn [reader_states connected_readers].
  rewrite (get_reader_state_present ip _ _ (lookup_insert_eq _ _ _)).
  cbn [current_tag set_stream_mode set_resume resume].
  rewrite Hcur, Huid, String.eqb_refl.
  cbn [paused_for r_uid r_paused]. rewrite String.eqb_refl. cbn [andb].
  rewrite device_of_set_stream_mode.
  change (device_of env' ip (set_resume ?r st)) with (device_of env' ip st).
  split; [done |]. split; [done |].
  eexists. split; [apply lookup_insert_eq |].
  destruct (resume_ok env' (device_of env' ip st)); simpl; by rewrite ?Hcur.
Qed.

Lemma removal_then_rescan_resumes_witness :
  let srv1 :=
    (handle_tonie sample_env "192.0.2.10" removal_request
       sample_playing_server).1.1 in
  let '(srv2, out, calls) :=
    handle_tonie sample_env "192.0.2.10"
      (scan_request "E0:04:03:50:13:16:80:4B") srv1 in
  let device := device_of sample_env "192.0.2.10" sample_playing in
  calls = [ResumeDevice device]
  /\ out = Ok (snapshot_response "E0:04:03:50:13:16:80:4B" sample_snapshot
                 (resume_ok sample_env device))
  /\ exists st2,
      reader_states srv2 !! "192.0.2.10" = Some st2
      /\ current_tag st2 = Some sample_snapshot
      /\ resume st2
         = if resume_ok sample_env device then None
           else Some {| r_uid := "E0:04:03:50:13:16:80:4B";
                        r_position :=
                          (get_resume_position sample_env sample_playing
                             (device_of sample_env "192.0.2.10" sample_playing)).1;
                        r_device := device_of sample_env "192.0.2.10" sample_playing;
                        r_paused := true |}.
Proof.
  apply (removal_then_rescan_resumes sample_env sample_env "192.0.2.10"
           "E0:04:03:50:13:16:80:4B" removal_request
           (scan_request "E0:04:03:50:13:16:80:4B") sample_playing_server
           sample_playing sample_snapshot); reflexivity.
Defined.

(** The calls that start a device: each is made for that device, and
    [play_on_device] gets the playback URL and the start position. A
    browser is not called, and a multi-room speaker or a cast device is
    not started through [play_on_device]. *)
Lemma encode_and_play_calls (env : Env) (d : Device)
    (uid audio_url playback_url series episode : string)
    (tracks : list Track) (start_position : Z) (resume_same : bool) :
  let cs :=
    encode_and_play env d uid audio_url playback_url series episode tracks
      start_position resume_same in
  is_network_device (dev_type d) = true ->
  Forall (made_for env d) cs
  /\ (forall d' url p, In (StartPlayback d' url p) cs ->
        url = playback_url /\ p = start_position)
  /\ (dev_type d = "sonos" \/ dev_type d = "chromecast" ->
      forall d' url p, ~ In (StartPlayback d' url p) cs).
Proof.
  cbn zeta. intros Hnet. unfold encode_and_play, resume_or_play.
  destruct (first_track_ready env audio_url); cbn [negb];
    [| split; [constructor |]; split; [intros ? ? ? [] | intros _ ? ? ? []]].
  destruct (String.eqb_spec (dev_type d) "sonos") as [Hs | Hs].
  { destruct (sonos_ip_of env (dev_id d)) as [sonos_ip|] eqn:Hip;
      [destruct (Py.truthy sonos_ip) |];
      (split; [repeat constructor; done |]);
      (split; [intros ? ? ? H; simpl in H; intuition discriminate |]);
      intros _ ? ? ? H; simpl in H; intuition discriminate. }
  destruct (String.eqb_spec (dev_type d) "chromecast") as [Hc | Hc].
  { split; [repeat constructor; done |].
    split; [intros ? ? ? H; simpl in H; intuition discriminate |].
    intros _ ? ? ? H; simpl in H; intuition discriminate. }
  destruct (String.eqb_spec (dev_type d) "espuino") as [He | He].
  { destruct (sd_ready env _ _ _);
      (split; [repeat constructor; done |]);
      (split; [intros ? ? ? H; simpl in H;
               destruct H as [H | [H | []]]; try discriminate;
               by injection H as _ <- <- |]);
      intros [? | ?]; congruence. }
  destruct resume_same; [destruct (resume_ok env d) |]; cbn [fst];
    (split; [repeat constructor; done |]);
    (split; [intros ? ? ? H; simpl in H;
             repeat destruct H as [H | H]; try discriminate; try done;
             by injection H as _ <- <- |]);
    intros [? | ?]; congruence.
Qed.

Lemma start_tonie_calls (env : Env) (d : Device)
    (uid audio_url playback_url series episode : string)
    (tracks : list Track) (start_position : Z) (resume_same : bool) :
  let cs :=
    (start_tonie env d uid audio_url playback_url series episode tracks
       start_position resume_same).1.1 in
  Forall (made_for env d) cs
  /\ (forall d' url p, In (StartPlayback d' url p) cs ->
        url = playback_url /\ p = start_position)
  /\ (dev_type d = "browser" -> cs = [])
  /\ (dev_type d = "sonos" \/ dev_type d = "chromecast" ->
      forall d' url p, ~ In (StartPlayback d' url p) cs).
Proof.
  cbn zeta. unfold start_tonie.
  destruct (String.eqb_spec (dev_type d) "browser") as [Hb | Hb]; cbn [fst].
  { split; [constructor |]. split; [intros ? ? ? [] |].
    split; [done | intros _ ? ? ? []]. }
  destruct (is_network_device (dev_type d)) eqn:Hnet; cbn [fst].
  { destruct (encode_and_play_calls env d uid audio_url playback_url series
                episode tracks start_position resume_same Hnet)
      as (H1 & H2 & H3).
    split; [done |]. split; [done |]. split; [done | done]. }
  assert (Hno : ~ (dev_type d = "sonos" \/ dev_type d = "chromecast")).
  { unfold is_network_device in Hnet. intros [E | E]; rewrite E in Hnet; done. }
  unfold resume_or_play.
  destruct resume_same; [destruct (resume_ok env d) |]; cbn [fst];
    (split; [repeat constructor; done |]);
    (split; [intros ? ? ? H; simpl in H;
             repeat destruct H as [H | H]; try discriminate; try done;
             by injection H as _ <- <- |]);
    (split; [done | done]).
Qed.

Lemma start_library_calls (env : Env) (d : Device) (audio_url : string) :
  let cs := (start_library env d audio_url).1 in
  Forall (made_for env d) cs
  /\ (forall d' url p, ~ In (StartPlayback d' url p) cs)
  /\ (dev_type d = "browser" -> cs = []).
Proof.
  cbn zeta. unfold start_library.
  destruct (String.eqb_spec (dev_type d) "browser") as [Hb | Hb]; cbn [fst].
  { split; [constructor |]. split; [intros ? ? ? [] | done]. }
  destruct (_ || _); cbn [fst];
    [| split; [constructor |]; split; [intros ? ? ? [] | done]].
  unfold encode_and_play_lib.
  destruct (first_track_ready env audio_url); cbn [negb];
    [| split; [constructor |]; split; [intros ? ? ? [] | done]].
  destruct (String.eqb_spec (dev_type d) "sonos") as [Hs | Hs].
  { destruct (sonos_ip_of env (dev_id d)) as [sonos_ip|] eqn:Hip;
      [destruct (Py.truthy sonos_ip) |];
      (split; [repeat constructor; done |]);
      (split; [intros ? ? ? H; simpl in H; intuition discriminate | done]). }
  destruct (String.eqb_spec (dev_type d) "chromecast") as [Hc | Hc];
    (split; [repeat constructor; done |]);
    (split; [intros ? ? ? H; simpl in H; intuition discriminate | done]).
Qed.

(** A scan of a tag that is not the current one: where it starts, what
    it leaves in the reader state and which calls it adds. *)
Lemma play_fresh_start (env : Env) (ip uid : string) (dov : option Device)
    (ovr : option Overrides) (states : gmap string ReaderState)
    (readers : gmap string ReaderInfo) (calls : list DeviceCall)
    (st : ReaderState) :
  client_ready env = true ->
  states !! ip = Some st ->
  let start_position :=
    match resume st with
    | Some r => if String.eqb (r_uid r) uid then r_position r else 0%Z
    | None => 0%Z
    end in
  let kept :=
    match resume st with
    | Some r => if String.eqb (r_uid r) uid then None else Some r
    | None => None
    end in
  let d := match dov with Some d => d | None => device_for_reader env ip end in
  let '(srv', out, calls') := play_fresh env ip uid dov ovr states readers calls in
  (exists cs,
      calls' = (calls ++ cs)%list
      /\ Forall (made_for env d) cs
      /\ (forall d' url p, In (StartPlayback d' url p) cs -> p = start_position)
      /\ (dev_type d = "browser" -> cs = [])
      /\ (dev_type d = "sonos" \/ dev_type d = "chromecast"
          \/ find_tonie_by_uid uid (tag_index env) (catalog env) = None ->
          forall d' url p, ~ In (StartPlayback d' url p) cs))
  /\ (exists st' t,
        reader_states srv' !! ip = Some st'
        /\ current_tag st' = Some t
        /\ snap_uid t = uid
        /\ snap_start_position t = start_position
        /\ current_offset st' = start_position
        /\ current_started_at st' = Some (now env)
        /\ current_device st' = Some d
        /\ last_reported_position st'
           = (if String.eqb (dev_type d) "browser" then start_position else 0%Z)
        /\ resume st' = kept)
  /\ exists resp, out = Ok resp /\ resp_target resp = Some (dev_id d).
Proof.
  intros Hready Hst. unfold play_fresh. rewrite Hready, Hst. cbn [negb].
  cbn [from_option id].
  set (d := match dov with Some d => d | None => device_for_reader env ip end).
  destruct (resume st) as [r|] eqn:Er;
    [destruct (String.eqb (r_uid r) uid) |];
    match goal with
    | |- context [let '(_, _) := (if ?c then ?a else ?b) in _] =>
        destruct (if c then a else b)
    end;
    destruct (find_tonie_by_uid _ _ _) as [t|]; cbn zeta;
    (split;
     [match goal with
      | |- context [start_tonie ?e ?dv ?u ?a ?p ?s ?ep ?tr ?sp ?rs] =>
          destruct (start_tonie_calls e dv u a p s ep tr sp rs)
            as (H1 & H2 & H3 & H4);
          eexists; split; [reflexivity |]; split; [exact H1 |];
          split; [intros ? ? ? Hin; by destruct (H2 _ _ _ Hin) |];
          split; [exact H3 |];
          intros [Hs | [Hc | Hnone]];
          [apply H4; by left | apply H4; by right | done]
      | |- context [start_library ?e ?dv ?a] =>
          destruct (start_library_calls e dv a) as (H1 & H2 & H3);
          eexists; split; [reflexivity |]; split; [exact H1 |];
          split; [intros ? ? ? Hin; by destruct (H2 _ _ _ Hin) |];
          split; [exact H3 | intros _; exact H2]
      end |]);
    (split; [| by eexists]);
    (eexists _, _; split; [apply lookup_insert_eq |]);
    simpl; rewrite ?Er; done.
Qed.

(** X8. A stop through the playback endpoint saves the position, and the
    next scan of the same tag takes it up: the saved position becomes
    the start position of the new snapshot and the offset of the reader,
    and the saved resume is used up; a scan of any other tag starts at
    zero and leaves the saved resume of the first tag in place. Every
    call that the scan makes to start playback is made for the device of
    the scan, and every call of [play_on_device] among them carries that
    start position. A browser is not called at all, it gets the position
    as last reported position; a multi-room speaker or a cast device is
    not started through [play_on_device], and for a tag that is not
    found [play_on_device] is called without a position, so that no
    position goes to the device there. *)
Theorem stop_then_scan_resumes_at_saved_position
    (env env' : Env) (ip uid : string) (dov : option Device)
    (ovr : option Overrides)
    (srv : Server) (st : ReaderState) (current : TagSnapshot) :
  reader_states srv !! ip = Some st ->
  current_tag st = Some current ->
  client_ready env' = true ->
  let position := (get_resume_position env st (device_of env ip st)).1 in
  let saved :=
    {| r_uid := snap_uid current; r_position := position;
       r_device := device_of env ip st; r_paused := false |} in
  let srv1 :=
    {| reader_states := (reader_playback_stop env ip (reader_states srv)).1;
       connected_readers := connected_readers srv |} in
  let '(srv2, out, calls) := play_tonie_for_reader env' ip uid dov ovr srv1 in
  let start_position := if String.eqb (snap_uid current) uid then position else 0%Z in
  let d := match dov with Some d => d | None => device_for_reader env' ip end in
  Forall (made_for env' d) calls
  /\ (forall d' url p, In (StartPlayback d' url p) calls -> p = start_position)
  /\ (dev_type d = "browser" -> calls = [])
  /\ (dev_type d = "sonos" \/ dev_type d = "chromecast"
      \/ find_tonie_by_uid uid (tag_index env') (catalog env') = None ->
      forall d' url p, ~ In (StartPlayback d' url p) calls)
  /\ exists st2 t,
      reader_states srv2 !! ip = Some st2
      /\ current_tag st2 = Some t
      /\ snap_uid t = uid
      /\ snap_start_position t = start_position
      /\ current_offset st2 = start_position
      /\ current_started_at st2 = Some (now env')
      /\ last_reported_position st2
         = (if String.eqb (dev_type d) "browser" then start_position else 0%Z)
      /\ resume st2
         = if String.eqb (snap_uid current) uid then None else Some saved.
Proof.
  intros Hst Hcur Hready. cbn zeta.
  unfold reader_playback_stop, stop_reader_playback.
  rewrite (get_reader_state_present ip _ st Hst), Hcur.
  destruct (get_resume_position env st (device_of env ip st))
    as [position calls1] eqn:Hpos.
  cbn [fst snd].
  unfold play_tonie_for_reader. cbn [reader_states connected_readers].
  rewrite (get_reader_state_present ip _ _ (lookup_insert_eq _ _ _)).
  cbn [current_tag clear_playing].
  pose proof (play_fresh_start env' ip uid dov ovr
                (<[ip := clear_playing
                           (set_resume
                              (Some {| r_uid := snap_uid current;
                                       r_position := position;
                                       r_device := device_of env ip st;
                                       r_paused := false |}) st)]>
                   (reader_states srv))
                (touch_reader env' ip (connected_readers srv)) [] _
                Hready (lookup_insert_eq _ _ _)) as H.
  cbn [resume clear_playing set_resume r_uid r_position] in H.
  destruct (play_fresh env' ip uid dov ovr _ _ _) as [[srv2 out] calls].
  cbn zeta in H.
  destruct H as ((cs & -> & Hfor & Hpos' & Hb & Hs) & (st2 & t & Hstate) & _).
  cbn [app].
  destruct Hstate as (? & ? & ? & ? & ? & ? & ? & ? & ?).
  destruct (String.eqb (snap_uid current) uid);
    (split; [done |]); (split; [done |]); (split; [done |]);
    (split; [done |]); by exists st2, t.
Qed.

Lemma stop_then_scan_resumes_at_saved_position_witness :
  let srv1 :=
    {| reader_states :=
         (reader_playback_stop sample_env "192.0.2.10"
            (reader_states sample_playing_server)).1;
       connected_readers := connected_readers sample_playing_server |} in
  let '(srv2, out, calls) :=
    play_tonie_for_reader (sample_env_at 500) "192.0.2.10"
      "E0:04:03:50:13:16:80:4B"
      (Some {| dev_type := "airplay"; dev_id := "ap-1" |})
      (Some no_overrides) srv1 in
  let d := {| dev_type := "airplay"; dev_id := "ap-1" |} in
  Forall (made_for (sample_env_at 500) d) calls
  /\ (forall d' url p, In (StartPlayback d' url p) calls -> p = 42%Z)
  /\ (dev_type d = "browser" -> calls = [])
  /\ (dev_type d = "sonos" \/ dev_type d = "chromecast"
      \/ find_tonie_by_uid "E0:04:03:50:13:16:80:4B"
           (tag_index (sample_env_at 500)) (catalog (sample_env_at 500)) = None ->
      forall d' url p, ~ In (StartPlayback d' url p) calls)
  /\ exists st2 t,
      reader_states srv2 !! "192.0.2.10" = Some st2
      /\ current_tag st2 = Some t
      /\ snap_uid t = "E0:04:03:50:13:16:80:4B"
      /\ snap_start_position t = 42%Z
      /\ current_offset st2 = 42%Z
      /\ current_started_at st2 = Some 500%Z
      /\ last_reported_position st2 = 0%Z
      /\ resume st2 = None.
Proof.
  apply (stop_then_scan_resumes_at_saved_position sample_env (sample_env_at 500)
           "192.0.2.10" "E0:04:03:50:13:16:80:4B"
           (Some {| dev_type := "airplay"; dev_id := "ap-1" |})
           (Some no_overrides)
           sample_playing_server sample_playing sample_snapshot); reflexivity.
Defined.

(** The scan of the witness above starts the device through
    [play_on_device], at the saved position. *)
Example scan_after_stop_starts_at_42 :
  let srv1 :=
    {| reader_states :=
         (reader_playback_stop sample_env "192.0.2.10"
            (reader_states sample_playing_server)).1;
       connected_readers := connected_readers sample_playing_server |} in
  (play_tonie_for_reader (sample_env_at 500) "192.0.2.10"
     "E0:04:03:50:13:16:80:4B"
     (Some {| dev_type := "airplay"; dev_id := "ap-1" |})
     (Some no_overrides) srv1).2
  = [ StartPlayback {| dev_type := "airplay"; dev_id := "ap-1" |}
        "http://srv:8754/transcode.mp3?url=http://tc/content/E0:04:03:50:13:16:80:4B"
        42 ].
Proof. vm_compute. reflexivity. Qed.

(** ** [main.py]: the stale-stream check *)

Lemma touch_reader_last_seen (env : Env) (ip : string)
    (readers : gmap string ReaderInfo) :
  exists info,
    touch_reader env ip readers !! ip = Some info /\ last_seen info = now env.
Proof.
  unfold touch_reader. destruct (readers !! ip);
    eexists; (split; [apply lookup_insert_eq | done]).
Qed.

Lemma play_fresh_readers (env : Env) (ip uid : string) (dov : option Device)
    (ovr : option Overrides) (states : gmap string ReaderState)
    (readers : gmap string ReaderInfo) (calls : list DeviceCall) :
  connected_readers (play_fresh env ip uid dov ovr states readers calls).1.1
  = readers.
Proof.
  unfold play_fresh. destruct (client_ready env); cbn [negb]; [| done].
  match goal with
  | |- context [let '(_, _) := (if ?c then ?a else ?b) in _] =>
      destruct (if c then a else b)
  end.
  match goal with
  | |- context [let '(_, _) := (match ?c with Some _ => _ | None => _ end) in _] =>
      destruct c as [r|]; [destruct (String.eqb (r_uid r) uid) |]
  end; by destruct (find_tonie_by_uid _ _ _).
Qed.

Lemma play_tonie_for_reader_readers (env : Env) (ip uid : string)
    (dov : option Device) (ovr : option Overrides) (srv : Server) :
  connected_readers (play_tonie_for_reader env ip uid dov ovr srv).1.1
  = touch_reader env ip (connected_readers srv).
Proof.
  unfold play_tonie_for_reader.
  destruct (get_reader_state ip (reader_states srv)) as [states st].
  destruct (current_tag st) as [current|].
  - destruct (String.eqb (snap_uid current) uid).
    + by destruct (paused_for uid (resume st)).
    + destruct (stop_reader_playback env ip false false states).
      apply play_fresh_readers.
  - apply play_fresh_readers.
Qed.

Lemma handle_tonie_last_seen (env : Env) (ip : string) (request : TonieRequest)
    (srv : Server) :
  exists info,
    connected_readers (handle_tonie env ip request srv).1.1 !! ip = Some info
    /\ last_seen info = now env.
Proof.
  unfold handle_tonie. destruct (req_uid request) as [uid|].
  - destruct (get_reader_state ip (reader_states srv)) as [states st].
    rewrite play_tonie_for_reader_readers. apply touch_reader_last_seen.
  - destruct (stop_reader_playback env ip true true (reader_states srv)).
    apply touch_reader_last_seen.
Qed.

Lemma reap_recently_seen (env : Env) (readers : gmap string ReaderInfo)
    (ip : string) (st : ReaderState) (info : ReaderInfo) :
  readers !! ip = Some info ->
  (now env - last_seen info <= 180)%Z ->
  reap_stale_reader env readers ip st = st.
Proof.
  intros Hinfo Hseen. unfold reap_stale_reader. rewrite Hinfo.
  destruct (current_tag st); [| done].
  destruct (_ && _); [| done].
  by destruct (Z.gtb_spec (now env - last_seen info) 180); [lia |].
Qed.

(** X9. Any request of a reader to [POST /tonie], a scan or a removal,
    protects its stream from the stale-stream check for the next 180
    seconds: a stream listing within that time leaves the state of the
    reader as the request left it. *)
Theorem stream_survives_180s_after_request
    (env env' : Env) (ip : string) (request : TonieRequest) (srv : Server) :
  (now env' - now env <= 180)%Z ->
  let srv1 := (handle_tonie env ip request srv).1.1 in
  reader_states (get_streams env' srv1) !! ip = reader_states srv1 !! ip.
Proof.
  intros Hnow srv1. simpl. rewrite map_lookup_imap.
  destruct (reader_states srv1 !! ip) as [st1|]; [| done]. simpl.
  destruct (handle_tonie_last_seen env ip request srv) as (info & Hinfo & Hseen).
  f_equal. apply (reap_recently_seen env' _ ip st1 info); [exact Hinfo | lia].
Qed.

Lemma stream_survives_180s_after_request_witness :
  let srv1 :=
    (handle_tonie sample_env "192.0.2.10"
       (local_scan_request "E0:04:03:50:13:16:80:4B") initial_server).1.1 in
  reader_states (get_streams (sample_env_at 280) srv1) !! "192.0.2.10"
  = reader_states srv1 !! "192.0.2.10".
Proof.
  apply (stream_survives_180s_after_request sample_env (sample_env_at 280)
           "192.0.2.10" (local_scan_request "E0:04:03:50:13:16:80:4B")
           initial_server).
  simpl. lia.
Defined.

(** ** [main.py]: the liveness probe *)

(** The probe never returns a comparison. *)
Lemma probe_never_answers (ip uid : string) (reply : SettingsReply) (b : bool) :
  check_espuino_active_tag ip uid reply <> Returns (Some b).
Proof.
  unfold check_espuino_active_tag.
  destruct (negb (Py.truthy ip) || negb (Py.truthy uid)); [done |].
  destruct (negb (Py.truthy (uid_to_espuino_tag_id uid))); [done |].
  change (imported "aiohttp") with false. done.
Qed.

Lemma smart_ping_reader_returns (env : Env) (settings_of : string -> SettingsReply)
    (ip : string) (st : ReaderState) (readers readers' : gmap string ReaderInfo) :
  smart_ping_reader env settings_of ip st readers = Returns readers' ->
  readers' = readers.
Proof.
  unfold smart_ping_reader.
  destruct (current_tag st) as [current|]; [| by intros [= <-]].
  destruct (_is_virtual_reader ip); [by intros [= <-] |].
  destruct (negb (String.eqb _ _)); [by intros [= <-] |].
  destruct (negb (Py.truthy _)); [by intros [= <-] |].
  pose proof (probe_never_answers ip (snap_uid current) (settings_of ip) true)
    as Hnever.
  destruct (check_espuino_active_tag _ _ _) as [[[|]|]|e];
    try done; by intros [= <-].
Qed.

Lemma smart_ping_loop_unchanged (env : Env) (settings_of : string -> SettingsReply)
    (items : list (string * ReaderState)) (readers : gmap string ReaderInfo) :
  smart_ping_loop env settings_of items readers = readers.
Proof.
  revert readers. induction items as [| [ip st] items IH]; intros readers; [done |].
  cbn [smart_ping_loop].
  destruct (smart_ping_reader env settings_of ip st readers) as [readers'|e] eqn:E;
    [| done].
  apply smart_ping_reader_returns in E as ->. apply IH.
Qed.

(** X10. The liveness probe of SD players never refreshes [last_seen]:
    a pass over the readers, in any order and whatever the players
    answer, leaves the server state as it is, because the probe of a
    reader either returns [None] or ends in [NameError]. The stream of a
    physical SD player is therefore cleared by a stream listing more than
    180 seconds after the last request of the reader, also when a pass
    of the probe ran in between. *)
Theorem smart_ping_never_refreshes
    (env env' : Env) (settings_of : string -> SettingsReply) (srv : Server)
    (ip : string) (st : ReaderState) (info : ReaderInfo) :
  reader_states srv !! ip = Some st ->
  is_Some (current_tag st) ->
  connected_readers srv !! ip = Some info ->
  _is_virtual_reader ip = false ->
  dev_type (device_of env' ip st) = "espuino" ->
  (now env' - last_seen info > 180)%Z ->
  (forall items readers,
      smart_ping_loop env settings_of items readers = readers)
  /\ smart_ping_espuino_readers env settings_of srv = srv
  /\ reader_states
       (get_streams env' (smart_ping_espuino_readers env settings_of srv)) !! ip
     = Some (set_current_tag None st).
Proof.
  intros Hst [current Hcur] Hinfo Hvirt Hdev Hnow.
  assert (Hsame : smart_ping_espuino_readers env settings_of srv = srv).
  { unfold smart_ping_espuino_readers. rewrite smart_ping_loop_unchanged.
    by destruct srv. }
  split; [apply smart_ping_loop_unchanged |]. split; [exact Hsame |].
  rewrite Hsame. cbn [get_streams reader_states]. rewrite map_lookup_imap, Hst.
  simpl. f_equal.
  unfold reap_stale_reader. rewrite Hcur, Hdev, Hvirt, Hinfo.
  change (String.eqb "espuino" "espuino") with true. cbn [andb negb].
  by destruct (Z.gtb_spec (now env' - last_seen info) 180); [| lia].
Qed.

Lemma smart_ping_never_refreshes_witness :
  let srv :=
    (handle_tonie sample_env "192.0.2.10"
       (local_scan_request "E0:04:03:50:13:16:80:4B") initial_server).1.1 in
  let settings_of := fun _ : string => Settings (Some "075128022019") in
  (forall items readers,
      smart_ping_loop (sample_env_at 200) settings_of items readers = readers)
  /\ smart_ping_espuino_readers (sample_env_at 200) settings_of srv = srv
  /\ reader_states
       (get_streams (sample_env_at 281)
          (smart_ping_espuino_readers (sample_env_at 200) settings_of srv))
     !! "192.0.2.10"
     = Some (set_current_tag None (state_of (reader_states srv) "192.0.2.10")).
Proof.
  intros srv settings_of.
  apply (smart_ping_never_refreshes (sample_env_at 200) (sample_env_at 281)
           settings_of srv "192.0.2.10"
           (state_of (reader_states srv) "192.0.2.10")
           {| first_seen := 100; last_seen := 100; scan_count := 1;
              reader_name := "192.0.2.10" |}).
  - vm_compute. reflexivity.
  - vm_compute. by eexists.
  - vm_compute. reflexivity.
  - reflexivity.
  - vm_compute. reflexivity.
  - simpl. lia.
Defined.

(** ** [main.py]: positions reported, paused and sought *)

(** X11. For playback in the browser the resume position is the last one
    the page reported: after a position report for the current tag, a tag
    removal saves [max(0, position)] and asks the device for nothing but
    the pause. A report that names another tag is ignored. *)
Theorem browser_resume_uses_reported_position
    (env : Env) (ip uid : string) (position : Z) (request : TonieRequest)
    (srv : Server) (st : ReaderState) (current : TagSnapshot) :
  reader_states srv !! ip = Some st ->
  current_tag st = Some current ->
  dev_type (device_of env ip st) = "browser" ->
  req_uid request = None ->
  let '(states1, status) :=
    update_reader_position ip uid position (reader_states srv) in
  if String.eqb (snap_uid current) uid then
    status = "ok"
    /\ let '(srv2, out, calls) :=
         handle_tonie env ip request
           {| reader_states := states1;
              connected_readers := connected_readers srv |} in
       calls = [PauseDevice (device_of env ip st)]
       /\ exists st2,
           reader_states srv2 !! ip = Some st2
           /\ resume st2
              = Some {| r_uid := snap_uid current;
                        r_position := Z.max 0 position;
                        r_device := device_of env ip st;
                        r_paused := true |}
  else status = "ignored" /\ states1 = reader_states srv.
Proof.
  intros Hst Hcur Hdev Hremoval. unfold update_reader_position.
  rewrite (get_reader_state_present ip _ st Hst), Hcur.
  destruct (String.eqb (snap_uid current) uid); cbn [negb]; [| done].
  split; [done |].
  unfold handle_tonie. rewrite Hremoval. cbn [reader_states connected_readers].
  unfold stop_reader_playback.
  rewrite (get_reader_state_present ip _ _ (lookup_insert_eq _ _ _)).
  cbn [current_tag set_position]. rewrite Hcur.
  change (device_of env ip (set_position ?a ?b ?c ?d st))
    with (device_of env ip st).
  unfold get_resume_position. rewrite Hdev.
  change (String.eqb "browser" "browser") with true. cbn iota.
  cbn [last_reported_position set_position app].
  split; [done |]. eexists. split; [apply lookup_insert_eq |].
  cbn [resume set_resume]. f_equal. f_equal. lia.
Qed.

Lemma browser_resume_uses_reported_position_witness :
  let '(states1, status) :=
    update_reader_position "web-1" "E0:04:03:50:13:16:80:4B" 77
      {[ "web-1" := sample_browser_playing ]} in
  status = "ok"
  /\ let '(srv2, out, calls) :=
       handle_tonie sample_env "web-1" removal_request
         {| reader_states := states1; connected_readers := ∅ |} in
     calls = [PauseDevice {| dev_type := "browser"; dev_id := "web" |}]
     /\ exists st2,
         reader_states srv2 !! "web-1" = Some st2
         /\ resume st2
            = Some {| r_uid := "E0:04:03:50:13:16:80:4B";
                      r_position := Z.max 0 77;
                      r_device := {| dev_type := "browser"; dev_id := "web" |};
                      r_paused := true |}.
Proof.
  exact (browser_resume_uses_reported_position sample_env "web-1"
           "E0:04:03:50:13:16:80:4B" 77 removal_request
           {| reader_states := {[ "web-1" := sample_browser_playing ]};
              connected_readers := ∅ |}
           sample_browser_playing sample_snapshot
           eq_refl eq_refl eq_refl eq_refl).
Defined.

(** X12. Pause and play of a reader are inverse to each other as far as
    the position goes: when the device of the reader is the same at both
    requests and it resumes, or at least starts the stream again, playback
    goes on at the position saved by the pause, the tag stays current and
    nothing is left to resume. When the device does neither, the state of
    the paused reader is kept. *)
Theorem pause_then_play_restores
    (env env' : Env) (play_ok : Device -> string -> Z -> bool) (ip : string)
    (states : gmap string ReaderState) (st : ReaderState) (current : TagSnapshot) :
  states !! ip = Some st ->
  current_tag st = Some current ->
  device_of env' ip st = device_of env ip st ->
  let device := device_of env ip st in
  let position := (get_resume_position env st device).1 in
  let '(states1, calls1) := reader_playback_pause env ip states in
  let '(states2, success, calls2) :=
    reader_playback_play env' play_ok ip states1 in
  last calls1 = Some (PauseDevice device)
  /\ success
     = (resume_ok env' device
        || play_ok device (snap_playback_url current) position)
  /\ calls2
     = (if resume_ok env' device then [ResumeDevice device]
        else [ResumeDevice device;
              StartPlayback device (snap_playback_url current) position])
  /\ if success then
       exists st2,
         states2 !! ip = Some st2
         /\ current_tag st2 = Some current
         /\ resume st2 = None
         /\ current_offset st2 = position
         /\ last_reported_position st2 = position
         /\ current_started_at st2 = Some (now env')
     else states2 = states1.
Proof.
  intros Hst Hcur Hdev. cbn zeta. unfold reader_playback_pause.
  rewrite (get_reader_state_present ip _ st Hst), Hcur.
  destruct (get_resume_position env st (device_of env ip st))
    as [position calls] eqn:Hpos.
  cbn [fst]. unfold reader_playback_play.
  rewrite (get_reader_state_present ip _ _ (lookup_insert_eq _ _ _)).
  match goal with
  | |- context [device_of env' ip ?s] =>
      change (device_of env' ip s) with (device_of env' ip st)
  end.
  rewrite Hdev. cbn [current_tag resume]. rewrite ?Hcur.
  unfold should_resume. cbn [current_tag resume r_uid r_paused r_device].
  rewrite ?Hcur, !String.eqb_refl. cbn [andb r_position].
  destruct (resume_ok env' (device_of env ip st)); cbn [orb].
  - split; [by rewrite last_snoc |]. split; [done |]. split; [done |].
    eexists. split; [apply lookup_insert_eq |]. simpl. by rewrite ?Hcur.
  - destruct (play_ok _ _ _); (split; [by rewrite last_snoc |]);
      (split; [done |]); (split; [done |]); [| done].
    eexists. split; [apply lookup_insert_eq |]. simpl. by rewrite ?Hcur.
Qed.

Lemma pause_then_play_restores_witness :
  let device := {| dev_type := "sonos"; dev_id := "RINCON_1" |} in
  let '(states1, calls1) :=
    reader_playback_pause sample_env "192.0.2.10"
      (reader_states sample_playing_server) in
  let '(states2, success, calls2) :=
    reader_playback_play (sample_env_at 300) (fun _ _ _ => false)
      "192.0.2.10" states1 in
  last calls1 = Some (PauseDevice device)
  /\ success = true
  /\ calls2 = [ResumeDevice device]
  /\ exists st2,
      states2 !! "192.0.2.10" = Some st2
      /\ current_tag st2 = Some sample_snapshot
      /\ resume st2 = None
      /\ current_offset st2 = 42%Z
      /\ last_reported_position st2 = 42%Z
      /\ current_started_at st2 = Some 300%Z.
Proof.
  apply (pause_then_play_restores sample_env (sample_env_at 300)
           (fun _ _ _ => false) "192.0.2.10"
           (reader_states sample_playing_server) sample_playing sample_snapshot);
    reflexivity.
Defined.

(** X13. After a successful seek on a device that is not the browser and
    reports no position of its own, the resume position is estimated from
    the clock: the position sought plus the time gone by since, and never
    less than zero. A seek for a browser reader changes nothing on the
    server. *)
Theorem seek_then_resume_position
    (env env' : Env) (ip : string) (position : Z)
    (states : gmap string ReaderState) (st : ReaderState) :
  states !! ip = Some st ->
  let device := device_of env ip st in
  let '(states1, success, calls) := reader_playback_seek env ip position states in
  if String.eqb (dev_type device) "browser" then
    states1 = states /\ success = true /\ calls = []
  else
    calls = [SeekDevice device position]
    /\ success = seek_ok env device position
    /\ (success = true ->
        device_position env' device = None ->
        (get_resume_position env' (state_of states1 ip) device).1
        = Z.max 0 (position + (now env' - now env))).
Proof.
  intros Hst. cbn zeta. unfold reader_playback_seek.
  rewrite (get_reader_state_present ip _ st Hst).
  destruct (String.eqb (dev_type (device_of env ip st)) "browser") eqn:Hb;
    [done |].
  destruct (seek_ok env (device_of env ip st) position); [| done].
  split; [done |]. split; [done |]. intros _ Hnone.
  unfold state_of, get_reader_state. rewrite lookup_insert_eq. cbn [snd].
  unfold get_resume_position. rewrite Hb, Hnone. reflexivity.
Qed.

Lemma seek_then_resume_position_witness :
  let device := {| dev_type := "sonos"; dev_id := "RINCON_1" |} in
  let env' :=
    {| now := 160; device_for_reader := device_for_reader sample_env;
       device_position := fun _ => None; resume_ok := resume_ok sample_env;
       display_name := display_name sample_env; client_ready := true;
       tag_index := []; catalog := [];
       audio_url_for := audio_url_for sample_env;
       playback_url_for := playback_url_for sample_env;
       playlist_for := playlist_for sample_env;
       is_cached := is_cached sample_env;
       first_track_ready := first_track_ready sample_env;
       first_track_url_for := first_track_url_for sample_env;
       sonos_ip_of := sonos_ip_of sample_env;
       dest_folder_for := dest_folder_for sample_env;
       sd_ready := sd_ready sample_env;
       play_on_device_ok := play_on_device_ok sample_env;
       device_override_for := device_override_for sample_env;
       is_playing := is_playing sample_env; pause_ok := pause_ok sample_env;
       stop_ok := stop_ok sample_env; seek_ok := seek_ok sample_env |} in
  let '(states1, success, calls) :=
    reader_playback_seek sample_env "192.0.2.10" 30
      (reader_states sample_playing_server) in
  calls = [SeekDevice device 30]
  /\ success = true
  /\ (success = true ->
      device_position env' device = None ->
      (get_resume_position env' (state_of states1 "192.0.2.10") device).1
      = Z.max 0 (30 + (160 - 100))).
Proof.
  intros device env'.
  apply (seek_then_resume_position sample_env env' "192.0.2.10" 30
           (reader_states sample_playing_server) sample_playing).
  reflexivity.
Defined.

(** ** [transcoding.py]: the cache directory *)

Lemma lookup_entry_In (key : string) (c : list (string * CacheItem))
    (item : CacheItem) :
  lookup_entry key c = Some item -> In (key, item) c.
Proof.
  induction c as [| [k it] c IH]; simpl; [done |].
  destruct (String.eqb_spec k key) as [-> | Hne].
  - intros [= ->]. by left.
  - intros H. right. by apply IH.
Qed.

Lemma lookup_entry_None (key : string) (c : list (string * CacheItem)) :
  lookup_entry key c = None <-> ~ In key (map fst c).
Proof.
  induction c as [| [k it] c IH]; simpl; [by split; [intros _ [] |] |].
  destruct (String.eqb_spec k key) as [-> | Hne].
  - split; [done |]. intros H. exfalso. apply H. by left.
  - rewrite IH. split.
    + intros H [? | ?]; [done | by apply H].
    + intros H Hin. apply H. by right.
Qed.

Lemma lookup_entry_app (key : string) (c c' : list (string * CacheItem)) :
  lookup_entry key (c ++ c')%list
  = match lookup_entry key c with
    | Some item => Some item
    | None => lookup_entry key c'
    end.
Proof.
  induction c as [| [k it] c IH]; simpl; [done |].
  by destruct (String.eqb k key).
Qed.

Lemma folder_of_dir (key : string) (c : list (string * CacheItem))
    (item : CacheItem) :
  no_loose_file key c -> lookup_entry key c = Some item ->
  exists d, item = IsDir d /\ folder_of key c = Some d.
Proof.
  intros Hno Hitem. unfold folder_of. rewrite Hitem.
  destruct item as [d | s]; [by exists d |].
  exfalso. apply (Hno s). by apply lookup_entry_In.
Qed.

Lemma folder_of_mkdir (key : string) (c : list (string * CacheItem)) :
  no_loose_file key c ->
  folder_of key (mkdir key c) = Some (default empty_folder (folder_of key c)).
Proof.
  intros Hno. unfold mkdir.
  destruct (lookup_entry key c) as [item|] eqn:E.
  - destruct (folder_of_dir key c item Hno E) as (d & -> & Hd). by rewrite Hd.
  - unfold folder_of. rewrite lookup_entry_app, E. simpl.
    by rewrite String.eqb_refl.
Qed.

Lemma folder_of_mkdir_other (key key' : string) (c : list (string * CacheItem)) :
  key' <> key -> folder_of key' (mkdir key c) = folder_of key' c.
Proof.
  intros Hne. unfold mkdir. destruct (lookup_entry key c); [done |].
  unfold folder_of. rewrite lookup_entry_app. simpl.
  destruct (String.eqb_spec key key'); [congruence |].
  by destruct (lookup_entry key' c).
Qed.

Lemma folder_of_update_folder (key : string) (f : Folder -> Folder)
    (c : list (string * CacheItem)) :
  folder_of key (update_folder key f c) = f <$> folder_of key c.
Proof.
  unfold folder_of. induction c as [| [k it] c IH]; simpl; [done |].
  destruct (String.eqb_spec k key) as [-> | Hne].
  - destruct it; simpl; by rewrite String.eqb_refl.
  - simpl. destruct (String.eqb_spec k key); [done |]. exact IH.
Qed.

Lemma folder_of_update_folder_other (key key' : string) (f : Folder -> Folder)
    (c : list (string * CacheItem)) :
  key' <> key -> folder_of key' (update_folder key f c) = folder_of key' c.
Proof.
  intros Hne. unfold folder_of. induction c as [| [k it] c IH]; simpl; [done |].
  destruct (String.eqb_spec k key) as [-> | Hk].
  - destruct it; simpl; by destruct (String.eqb_spec key key').
  - simpl. by destruct (String.eqb k key').
Qed.

Lemma update_folder_keys (key : string) (f : Folder -> Folder)
    (c : list (string * CacheItem)) :
  map fst (update_folder key f c) = map fst c.
Proof.
  induction c as [| [k it] c IH]; simpl; [done |].
  destruct (String.eqb k key); [by destruct it | simpl; by f_equal].
Qed.

Lemma no_loose_update_folder (key : string) (f : Folder -> Folder)
    (c : list (string * CacheItem)) :
  no_loose_file key c -> no_loose_file key (update_folder key f c).
Proof.
  intros Hno s Hin. apply (Hno s). clear Hno.
  induction c as [| [k it] c IH]; simpl in *; [done |].
  destruct (String.eqb_spec k key) as [-> | Hk].
  - destruct it as [d | s']; [| done].
    destruct Hin as [[=] | Hin]. by right.
  - destruct Hin as [Heq | Hin]; [by left | right; by apply IH].
Qed.

Lemma no_loose_mkdir (key : string) (c : list (string * CacheItem)) :
  no_loose_file key c -> no_loose_file key (mkdir key c).
Proof.
  intros Hno s. unfold mkdir. destruct (lookup_entry key c); [apply Hno |].
  rewrite in_app_iff. intros [Hin | [[=] | []]]. by apply (Hno s).
Qed.

Lemma no_loose_filter (key : string) (p : string * CacheItem -> bool)
    (c : list (string * CacheItem)) :
  no_loose_file key c -> no_loose_file key (List.filter p c).
Proof. intros Hno s Hin. apply filter_In in Hin as [Hin _]. by apply (Hno s). Qed.

Lemma folder_of_write_track (key fname : string) (s : FileStat)
    (c : list (string * CacheItem)) :
  no_loose_file key c ->
  folder_of key (write_track key fname s c)
  = Some {| files := <[fname := s]> (files (default empty_folder (folder_of key c)));
            metadata := metadata (default empty_folder (folder_of key c)) |}.
Proof.
  intros Hno. unfold write_track.
  by rewrite folder_of_update_folder, folder_of_mkdir.
Qed.

Lemma no_loose_write_track (key fname : string) (s : FileStat)
    (c : list (string * CacheItem)) :
  no_loose_file key c -> no_loose_file key (write_track key fname s c).
Proof. intros Hno. by apply no_loose_update_folder, no_loose_mkdir. Qed.

Lemma write_track_exists (key fname : string) (s : FileStat)
    (c : list (string * CacheItem)) :
  no_loose_file key c ->
  folder_of key (write_track key fname s c) ≫= (fun d => files d !! fname) = Some s.
Proof.
  intros Hno. rewrite folder_of_write_track by done. simpl.
  apply lookup_insert_eq.
Qed.

Lemma write_track_keeps (key fname fname' : string) (s : FileStat)
    (c : list (string * CacheItem)) :
  no_loose_file key c ->
  file_exists key fname' c = true ->
  file_exists key fname' (write_track key fname s c) = true.
Proof.
  intros Hno. unfold file_exists. rewrite folder_of_write_track by done.
  destruct (folder_of key c) as [d|]; simpl; [| done].
  destruct (decide (fname' = fname)) as [-> | Hne].
  - by rewrite lookup_insert_eq.
  - by rewrite lookup_insert_ne.
Qed.

Lemma write_track_metadata (key fname : string) (s : FileStat)
    (c : list (string * CacheItem)) :
  no_loose_file key c ->
  folder_of key (write_track key fname s c) ≫= metadata
  = folder_of key c ≫= metadata.
Proof.
  intros Hno. rewrite folder_of_write_track by done.
  by destruct (folder_of key c).
Qed.

Lemma mkdir_existing (key : string) (c : list (string * CacheItem)) (d : Folder) :
  folder_of key c = Some d -> mkdir key c = c.
Proof.
  unfold folder_of, mkdir. by destruct (lookup_entry key c).
Qed.

(** What fetching the cover does to a cache in which the directory of the
    album exists: nothing, or it writes one cover file into it. *)
Lemma fetch_cover_image_existing (env : EncoderEnv) (cover_url key : string)
    (c : list (string * CacheItem)) (d : Folder) :
  folder_of key c = Some d ->
  let c' := (fetch_cover_image env cover_url key c).1 in
  (c' = c
   \/ exists png data,
        cover_url <> ""
        /\ List.find (fun fname => exists_nonempty key fname c) cover_candidates
           = None
        /\ cover_download env cover_url = Some (png, data)
        /\ st_size data <> 0%Z
        /\ (st_size data <= 5 * 1024 * 1024)%Z
        /\ c' = update_folder key
                  (fun d =>
                     {| files :=
                          <[(if png then "cover.png" else "cover.jpg") := data]>
                            (files d);
                        metadata := metadata d |}) c)
  /\ (cover_url = "" -> c' = c).
Proof.
  intros Hd. cbn zeta. unfold fetch_cover_image.
  destruct cover_url as [| ch cover_url]; cbn [Py.truthy negb]; [by split; [left |] |].
  rewrite (mkdir_existing key c d Hd).
  split; [| done].
  destruct (List.find _ cover_candidates) eqn:Hfind; [by left |].
  destruct (cover_download env _) as [[png data]|] eqn:Hdl; [| by left].
  destruct (_ || _) eqn:Hsize; [by left |].
  apply orb_false_iff in Hsize as [Hzero Hbig].
  right. exists png, data.
  split; [done |]. split; [done |]. split; [done |].
  split; [by apply Z.eqb_neq |]. split; [| done].
  rewrite Z.gtb_ltb in Hbig. by apply Z.ltb_ge.
Qed.

(** In general it may make the directory as well; the metadata of the
    album are not touched. *)
Lemma fetch_cover_image_spec (env : EncoderEnv) (cover_url key : string)
    (c : list (string * CacheItem)) :
  no_loose_file key c ->
  let c' := (fetch_cover_image env cover_url key c).1 in
  no_loose_file key c'
  /\ folder_of key c' ≫= metadata = folder_of key c ≫= metadata
  /\ (forall fname, ~ In fname cover_candidates ->
        exists_nonempty key fname c' = exists_nonempty key fname c).
Proof.
  intros Hno. cbn zeta. unfold fetch_cover_image.
  assert (Hmk : no_loose_file key (mkdir key c)
                /\ folder_of key (mkdir key c) ≫= metadata
                   = folder_of key c ≫= metadata
                /\ (forall fname,
                      exists_nonempty key fname (mkdir key c)
                      = exists_nonempty key fname c)).
  { split; [by apply no_loose_mkdir |]. unfold exists_nonempty.
    rewrite folder_of_mkdir by done.
    by destruct (folder_of key c). }
  destruct Hmk as (Hno1 & Hm1 & Hex1).
  destruct (negb (Py.truthy cover_url)); [done |].
  destruct (List.find _ cover_candidates); [by split; [| split] |].
  destruct (cover_download env _) as [[png data]|]; [| by split; [| split]].
  destruct (_ || _); [by split; [| split] |].
  cbn [fst]. split; [by apply no_loose_update_folder |].
  unfold exists_nonempty in *. rewrite folder_of_update_folder.
  split.
  - rewrite <- Hm1. by destruct (folder_of key (mkdir key c)).
  - intros fname Hfname. rewrite <- Hex1.
    destruct (folder_of key (mkdir key c)) as [d|]; [| done].
    cbn [fmap option_fmap option_map mbind option_bind files].
    rewrite lookup_insert_ne; [done |].
    intros <-. apply Hfname. unfold cover_candidates.
    destruct png; simpl; auto.
Qed.

Lemma track_filename_not_cover (i : nat) : ~ In (track_filename i) cover_candidates.
Proof.
  assert (Hend : Py.endswith (track_filename i) ".mp3" = true).
  { apply endswith_iff. by eexists. }
  unfold cover_candidates.
  intros [E | [E | [E | []]]]; rewrite <- E in Hend; by vm_compute in Hend.
Qed.

Lemma track_info_filename (i : nat) (track : Track) :
  TrackInfo.filename (track_info_of i track)
  = track_filename (TrackInfo.index (track_info_of i track)).
Proof. done. Qed.

(** What the encoding loop leaves behind, whether it fails or not. *)
Lemma encode_all_spec (env : EncoderEnv) (key : string)
    (its : list (nat * Track)) :
  forall (infos : list TrackInfo.t) (c c' : list (string * CacheItem))
         (r : option (list TrackInfo.t)),
    no_loose_file key c ->
    encode_all env key its infos c = (c', r) ->
    no_loose_file key c'
    /\ folder_of key c' ≫= metadata = folder_of key c ≫= metadata
    /\ (forall fname, file_exists key fname c = true ->
                      file_exists key fname c' = true)
    /\ (forall infos', r = Some infos' ->
        exists new,
          infos' = (infos ++ new)%list
          /\ Forall (fun t =>
               is_track_cached key (TrackInfo.index t) c' = true
               /\ TrackInfo.filename t = track_filename (TrackInfo.index t)) new).
Proof.
  induction its as [| [i track] its IH]; intros infos c c' r Hno; simpl.
  - intros [= <- <-]. repeat split; try done.
    intros infos' [= <-]. exists []. by rewrite app_nil_r.
  - destruct (default 0%Z (duration track) <=? 0)%Z; [by apply IH |].
    destruct (ffmpeg env i) as [s|].
    + intros Hrun.
      destruct (IH _ _ _ _ (no_loose_write_track key _ s c Hno) Hrun)
        as (Hno' & Hmeta & Hkeep & Hnew).
      split; [done |]. split; [by rewrite Hmeta, write_track_metadata |].
      split; [intros fname Hf; by apply Hkeep, write_track_keeps |].
      intros infos' ->. destruct (Hnew _ eq_refl) as (new & -> & Hall).
      exists (track_info_of i track :: new).
      split; [by rewrite <- app_assoc |].
      constructor; [| done]. split; [| done].
      apply Hkeep. unfold file_exists. simpl.
      by rewrite write_track_exists.
    + intros [= <- <-]. repeat split; try done.
Qed.

Lemma filter_all {A} (l : list A) : List.filter (fun _ => true) l = l.
Proof. induction l; simpl; by f_equal. Qed.

Lemma filter_twice {A} (f g : A -> bool) (l : list A) :
  List.filter f (List.filter g l) = List.filter (fun x => g x && f x) l.
Proof.
  induction l as [| x l IH]; simpl; [done |].
  destruct (g x); simpl; [destruct (f x); [by f_equal | done] | done].
Qed.

Lemma evict_loop_filter (target : Z) (items : list EvictItem) :
  forall (current : Z) (c : list (string * CacheItem)),
    (evict_loop current target items c).1
    = List.filter
        (fun entry =>
           negb (existsb (String.eqb (fst entry))
                   (evict_loop current target items c).2))
        c.
Proof.
  induction items as [| item items IH]; intros current c; simpl.
  - by rewrite filter_all.
  - destruct (current >? target)%Z; simpl; [| by rewrite filter_all].
    specialize (IH (current - item_size item)%Z (remove_entry (item_name item) c)).
    destruct (evict_loop _ target items _) as [c' evicted]. simpl in *.
    rewrite IH. unfold remove_entry. rewrite filter_twice.
    apply filter_ext. intros entry. by rewrite negb_orb.
Qed.

Lemma ensure_cache_space_filter (env : EncoderEnv) (needed : Z) (st : Transcoding) :
  cache (ensure_cache_space env needed st).1
  = List.filter
      (fun entry =>
         negb (existsb (String.eqb (fst entry))
                 (ensure_cache_space env needed st).2))
      (cache st)
  /\ held (ensure_cache_space env needed st).1 = held st.
Proof.
  unfold ensure_cache_space.
  destruct (_ >? _)%Z; simpl; [| by rewrite filter_all].
  unfold cleanup_cache.
  pose proof (evict_loop_filter (max_bytes env - needed)
                (sort_items (collect_items (cache st)))
                (get_cache_size (cache st)) (cache st)) as H.
  by destruct (evict_loop _ _ _ _) as [c' evicted].
Qed.

Lemma lookup_entry_filter_name (p : string -> bool) (key : string)
    (c : list (string * CacheItem)) :
  lookup_entry key (List.filter (fun entry => p (fst entry)) c)
  = if p key then lookup_entry key c else None.
Proof.
  induction c as [| [k it] c IH]; simpl; [by destruct (p key) |].
  destruct (String.eqb_spec k key) as [-> | Hne].
  - destruct (p key) eqn:E; simpl; [by rewrite String.eqb_refl |].
    exact IH.
  - destruct (p k); simpl; [| done].
    by destruct (String.eqb_spec k key).
Qed.

(** X14. Making room removes the evicted entries and nothing else: the
    cache afterwards is the cache before without the entries of the
    evicted names, in the same order, so that a fingerprint directory is
    either gone or exactly as it was, with every file and its metadata;
    the encoding locks are not touched. *)
Theorem eviction_leaves_the_rest_untouched
    (env : EncoderEnv) (needed_bytes : Z) (st : Transcoding) :
  let '(st', evicted) := ensure_cache_space env needed_bytes st in
  cache st'
  = List.filter
      (fun entry => negb (existsb (String.eqb (fst entry)) evicted)) (cache st)
  /\ (forall key,
        folder_of key (cache st')
        = if existsb (String.eqb key) evicted then None
          else folder_of key (cache st))
  /\ held st' = held st.
Proof.
  destruct (ensure_cache_space_filter env needed_bytes st) as [Hc Hh].
  destruct (ensure_cache_space env needed_bytes st) as [st' evicted].
  simpl in *. split; [done |]. split; [| done].
  intros key. unfold folder_of. rewrite Hc.
  rewrite (lookup_entry_filter_name
             (fun n => negb (existsb (String.eqb n) evicted))).
  by destruct (existsb (String.eqb key) evicted).
Qed.

Lemma ensure_cache_space_key (env : EncoderEnv) (needed : Z) (key : string)
    (st : Transcoding) :
  no_loose_file key (cache st) ->
  folder_of key (cache st) ≫= metadata = None ->
  no_loose_file key (cache (ensure_cache_space env needed st).1)
  /\ folder_of key (cache (ensure_cache_space env needed st).1) ≫= metadata = None
  /\ held (ensure_cache_space env needed st).1 = held st.
Proof.
  intros Hno Hmeta.
  destruct (ensure_cache_space_filter env needed st) as [Hc Hh].
  split; [rewrite Hc; by apply no_loose_filter |]. split; [| done].
  unfold folder_of. rewrite Hc.
  rewrite (lookup_entry_filter_name
             (fun n => negb (existsb (String.eqb n)
                               (ensure_cache_space env needed st).2))).
  by destruct (negb _).
Qed.

Lemma lock_released (key : string) (locks : gset string) :
  key ∉ locks -> ({[key]} ∪ locks) ∖ {[key]} = locks.
Proof.
  intros Hkey. apply set_eq. intros x.
  rewrite elem_of_difference, elem_of_union, elem_of_singleton.
  split; [by intros [[? | ?] ?] |].
  intros Hx. split; [by right | by intros ->].
Qed.

(** The album encoder after the cover has been fetched. *)
Lemma encode_album_metadata
    (env : EncoderEnv) (key source_url : string) (tracks : list Track)
    (series episode year : string) (st : Transcoding) :
  no_loose_file key (cache st) ->
  get_cached_tracks key (cache st) = None ->
  let '(st', r) :=
    encode_album env key source_url tracks series episode year st in
  get_cached_tracks key (cache st')
  = match r with Encoded m => Some m | _ => None end
  /\ held st' = held st.
Proof.
  intros Hno Hmeta. unfold get_cached_tracks in *. unfold encode_album.
  destruct tracks as [| t tracks']; [done |].
  rewrite Hmeta. destruct (decide (key ∈ held st)) as [Hheld | Hfree]; [done |].
  set (st1 := {| cache := mkdir key (cache st); held := {[key]} ∪ held st |}).
  assert (Hno1 : no_loose_file key (cache st1)) by by apply no_loose_mkdir.
  assert (Hmeta1 : folder_of key (cache st1) ≫= metadata = None).
  { simpl. rewrite folder_of_mkdir by done. by destruct (folder_of key (cache st)). }
  destruct (ensure_cache_space_key env
              (estimated_size env (total_duration_of (t :: tracks'))) key st1
              Hno1 Hmeta1) as (Hno2 & Hmeta2 & Hheld2).
  destruct (ensure_cache_space env _ st1) as [st2 evicted]. simpl in Hno2, Hmeta2, Hheld2.
  destruct (encode_all env key (enumerate_from 0 (t :: tracks')) [] (cache st2))
    as [c3 encoded] eqn:Hrun.
  destruct (encode_all_spec env key _ _ _ _ _ Hno2 Hrun) as (Hno3 & Hmeta3 & _ & _).
  rewrite Hheld2. simpl held. rewrite (lock_released key _ Hfree).
  destruct encoded as [track_infos|]; simpl.
  - unfold write_metadata.
    destruct (folder_of key c3) as [d|] eqn:Hd; simpl.
    + split; [| done]. rewrite folder_of_update_folder, Hd. done.
    + by rewrite Hd.
  - by rewrite Hmeta3, Hmeta2.
Qed.

(** X15. [metadata.json] is written last, and on success only. A call of
    the album encoder that does not find the album cached leaves its
    metadata in the cache exactly when it returns it; a call that returns
    [None], raises or finds the lock taken leaves none, so that no later
    call takes a partial album for a complete one. Every path gives the
    lock back. This holds with and without a cover to fetch. *)
Theorem metadata_is_written_on_success_only
    (env : EncoderEnv) (key source_url : string) (tracks : list Track)
    (series episode year cover_url : string) (st : Transcoding) :
  no_loose_file key (cache st) ->
  get_cached_tracks key (cache st) = None ->
  let '(st', r) :=
    encode_tonie_tracks env key source_url tracks series episode year
      cover_url st in
  get_cached_tracks key (cache st')
  = match r with Encoded m => Some m | _ => None end
  /\ held st' = held st.
Proof.
  intros Hno Hmeta. unfold encode_tonie_tracks.
  destruct tracks as [| t tracks']; [done |].
  destruct (fetch_cover_image_spec env cover_url key (cache st) Hno)
    as (Hno0 & Hmeta0 & _).
  destruct (fetch_cover_image env cover_url key (cache st)) as [c cover_path].
  cbn [fst] in Hno0, Hmeta0.
  apply (encode_album_metadata env key source_url (t :: tracks') series episode
           year {| cache := c; held := held st |}); [done |].
  unfold get_cached_tracks in *. cbn [cache]. by rewrite Hmeta0.
Qed.

Lemma metadata_is_written_on_success_only_witness :
  let '(st', r) :=
    encode_tonie_tracks sample_encoder "k" "http://tc/content/x"
      three_tracks "Series" "Episode" "" "http://tc/cover.jpg"
      empty_transcoding in
  get_cached_tracks "k" (cache st')
  = match r with Encoded m => Some m | _ => None end
  /\ held st' = held empty_transcoding.
Proof.
  apply (metadata_is_written_on_success_only sample_encoder "k"
           "http://tc/content/x" three_tracks "Series" "Episode" ""
           "http://tc/cover.jpg" empty_transcoding).
  - intros s [].
  - reflexivity.
Defined.

Lemma write_metadata_spec (key : string) (m : TonieMetadata.t)
    (c c' : list (string * CacheItem)) :
  write_metadata key m c = Some c' ->
  folder_of key c' ≫= metadata = Some m
  /\ (forall fname, file_exists key fname c' = file_exists key fname c)
  /\ (forall fname, exists_nonempty key fname c' = exists_nonempty key fname c).
Proof.
  unfold write_metadata. destruct (folder_of key c) as [d|] eqn:Hd; [| done].
  intros [= <-]. unfold file_exists, exists_nonempty.
  rewrite folder_of_update_folder, Hd. done.
Qed.

(** The album encoder on an album that is not cached yet. *)
Lemma encode_album_fresh
    (env : EncoderEnv) (key source_url : string) (tracks : list Track)
    (series episode year : string) (st st' : Transcoding) (m : TonieMetadata.t) :
  no_loose_file key (cache st) ->
  folder_of key (cache st) ≫= metadata = None ->
  encode_album env key source_url tracks series episode year st
  = (st', Encoded m) ->
  folder_of key (cache st') ≫= metadata = Some m
  /\ Forall (fun t =>
       is_track_cached key (TrackInfo.index t) (cache st') = true
       /\ TrackInfo.filename t = track_filename (TrackInfo.index t))
       (TonieMetadata.tracks m)
  /\ map TrackInfo.index (TonieMetadata.tracks m)
     = kept_positions (enumerate_from 0 tracks)
  /\ TonieMetadata.total_duration m = total_duration_of tracks
  /\ TonieMetadata.source_url m = source_url.
Proof.
  intros Hno Hmeta. unfold encode_album.
  destruct tracks as [| t tracks']; [done |].
  rewrite Hmeta. destruct (decide (key ∈ held st)) as [Hheld | Hfree]; [done |].
  set (st1 := {| cache := mkdir key (cache st); held := {[key]} ∪ held st |}).
  assert (Hno1 : no_loose_file key (cache st1)) by by apply no_loose_mkdir.
  assert (Hmeta1 : folder_of key (cache st1) ≫= metadata = None).
  { simpl. rewrite folder_of_mkdir by done. by destruct (folder_of key (cache st)). }
  destruct (ensure_cache_space_key env
              (estimated_size env (total_duration_of (t :: tracks'))) key st1
              Hno1 Hmeta1) as (Hno2 & Hmeta2 & Hheld2).
  destruct (ensure_cache_space env _ st1) as [st2 evicted]. simpl in Hno2, Hmeta2, Hheld2.
  destruct (encode_all env key (enumerate_from 0 (t :: tracks')) [] (cache st2))
    as [c3 encoded] eqn:Hrun.
  destruct (encode_all_spec env key _ _ _ _ _ Hno2 Hrun) as (Hno3 & _ & _ & Hnew).
  destruct encoded as [track_infos|]; [| done].
  destruct (Hnew _ eq_refl) as (new & Hnew' & Hall).
  cbn [app] in Hnew'. subst track_infos.
  pose proof (encode_all_indices env key _ _ _ _ _ Hrun) as Hidx.
  cbn [map app] in Hidx.
  destruct (write_metadata key _ c3) as [c4|] eqn:Hw; [| done].
  destruct (write_metadata_spec _ _ _ _ Hw) as (Hm & Hfiles & _).
  intros [= <- <-]. simpl.
  split; [exact Hm |]. split; [| done].
  eapply Forall_impl; [exact Hall |]. intros ti [Hex Hname]. split; [| done].
  unfold is_track_cached in *. by rewrite Hfiles.
Qed.

(** The same for the whole call, which fetches the cover first. *)
Lemma encode_fresh_spec
    (env : EncoderEnv) (key source_url : string) (tracks : list Track)
    (series episode year cover_url : string) (st st' : Transcoding)
    (m : TonieMetadata.t) :
  no_loose_file key (cache st) ->
  folder_of key (cache st) ≫= metadata = None ->
  encode_tonie_tracks env key source_url tracks series episode year cover_url st
  = (st', Encoded m) ->
  folder_of key (cache st') ≫= metadata = Some m
  /\ Forall (fun t =>
       is_track_cached key (TrackInfo.index t) (cache st') = true
       /\ TrackInfo.filename t = track_filename (TrackInfo.index t))
       (TonieMetadata.tracks m)
  /\ map TrackInfo.index (TonieMetadata.tracks m)
     = kept_positions (enumerate_from 0 tracks)
  /\ TonieMetadata.total_duration m = total_duration_of tracks
  /\ TonieMetadata.source_url m = source_url.
Proof.
  intros Hno Hmeta. unfold encode_tonie_tracks.
  destruct tracks as [| t tracks']; [done |].
  destruct (fetch_cover_image_spec env cover_url key (cache st) Hno)
    as (Hno0 & Hmeta0 & _).
  destruct (fetch_cover_image env cover_url key (cache st)) as [c cover_path].
  cbn [fst] in Hno0, Hmeta0.
  apply encode_album_fresh; [done |]. cbn [cache]. by rewrite Hmeta0.
Qed.

(** Without a skipped track, the indices written by [encode_tonie_tracks]
    are contiguous from 0. *)
Lemma encoded_indices_contiguous (env : EncoderEnv) (key url : string)
    (tracks : list Track) (series episode year cover_url : string)
    (st st' : Transcoding) (m : TonieMetadata.t) :
  no_loose_file key (cache st) ->
  folder_of key (cache st) ≫= metadata = None ->
  Forall (fun t => (0 < default 0 (duration t))%Z) tracks ->
  encode_tonie_tracks env key url tracks series episode year cover_url st
  = (st', Encoded m) ->
  map TrackInfo.index (TonieMetadata.tracks m) = seq 0 (length tracks).
Proof.
  intros Hno Hfresh Hpos Hrun.
  destruct (encode_fresh_spec env key url tracks series episode year cover_url
              st st' m Hno Hfresh Hrun) as (_ & _ & Hidx & _).
  rewrite Hidx. by apply kept_positions_all.
Qed.

(** X16. An album that the encoder returns after encoding it is complete:
    every track listed in its metadata has its file in the cache, under
    the name made of its index plus one on two digits; the indices are the
    input positions of the tracks of positive duration, in order, and the
    total duration is the sum over all tracks given, skipped or not. *)
Theorem encoded_album_is_complete
    (env : EncoderEnv) (key source_url : string) (tracks : list Track)
    (series episode year cover_url : string) (st st' : Transcoding)
    (m : TonieMetadata.t) :
  no_loose_file key (cache st) ->
  get_cached_tracks key (cache st) = None ->
  encode_tonie_tracks env key source_url tracks series episode year cover_url st
  = (st', Encoded m) ->
  Forall (fun t =>
       is_track_cached key (TrackInfo.index t) (cache st') = true
       /\ TrackInfo.filename t = track_filename (TrackInfo.index t))
    (TonieMetadata.tracks m)
  /\ map TrackInfo.index (TonieMetadata.tracks m)
     = kept_positions (enumerate_from 0 tracks)
  /\ TonieMetadata.total_duration m = total_duration_of tracks
  /\ TonieMetadata.source_url m = source_url.
Proof.
  intros Hno Hmeta Hrun.
  by destruct (encode_fresh_spec env key source_url tracks series episode year
                 cover_url st st' m Hno Hmeta Hrun) as (_ & ? & ? & ? & ?).
Qed.

Lemma encoded_album_is_complete_witness :
  let run :=
    encode_tonie_tracks sample_encoder "k" "http://tc/content/x"
      tracks_with_gap "Series" "Episode" "" "" empty_transcoding in
  let m := match run.2 with Encoded m => m | _ => TonieMetadata.mk "" "" "" "" [] "" 0 end in
  Forall (fun t =>
       is_track_cached "k" (TrackInfo.index t) (cache run.1) = true
       /\ TrackInfo.filename t = track_filename (TrackInfo.index t))
    (TonieMetadata.tracks m)
  /\ map TrackInfo.index (TonieMetadata.tracks m)
     = kept_positions (enumerate_from 0 tracks_with_gap)
  /\ TonieMetadata.total_duration m = total_duration_of tracks_with_gap
  /\ TonieMetadata.source_url m = "http://tc/content/x".
Proof.
  intros run m.
  apply (encoded_album_is_complete sample_encoder "k" "http://tc/content/x"
           tracks_with_gap "Series" "Episode" "" "" empty_transcoding run.1 m).
  - intros s [].
  - reflexivity.
  - vm_compute. reflexivity.
Defined.

(** An encoder call that returns metadata leaves them in the cache. *)
Lemma encoded_metadata_cached
    (env : EncoderEnv) (key source_url : string) (tracks : list Track)
    (series episode year cover_url : string) (st st' : Transcoding)
    (m : TonieMetadata.t) :
  encode_tonie_tracks env key source_url tracks series episode year cover_url st
  = (st', Encoded m) ->
  folder_of key (cache st') ≫= metadata = Some m.
Proof.
  unfold encode_tonie_tracks. destruct tracks as [| t tracks0]; [done |].
  destruct (fetch_cover_image env cover_url key (cache st)) as [c cover_path].
  unfold encode_album. cbn [cache held].
  destruct (folder_of key c ≫= metadata) as [m0|] eqn:Hmeta.
  - by intros [= <- <-].
  - destruct (decide (key ∈ held st)); [done |].
    destruct (ensure_cache_space env _ _) as [st2 evicted].
    destruct (encode_all env key _ _ _) as [c3 [track_infos|]]; [| done].
    destruct (write_metadata key _ c3) as [c4|] eqn:Hw; [| done].
    destruct (write_metadata_spec _ _ _ _ Hw) as (Hm & _).
    by intros [= <- <-].
Qed.

(** X17. Once an album is in the cache, the encoder serves it: whatever
    encoder call returned the metadata, any later call for the same
    cache key returns the same metadata and leaves the locks alone,
    whatever tracks, titles or source it is given and whether or not
    ffmpeg would work. The later call does not encode and does not write
    the metadata again, but it fetches the cover before it looks at the
    cache. So the cache stays as it is, or the later call has written
    the cover that it downloaded into the directory of the album, as
    [cover.png] or [cover.jpg] by its content type; it writes it only
    when it is given a cover URL, no non-empty cover file of the album
    is there, and the download gives an image that is not empty and of
    5 MiB at most. Without a cover URL nothing changes. *)
Theorem cached_album_is_served
    (env env' : EncoderEnv) (key source_url source_url' : string)
    (tracks tracks' : list Track)
    (series episode year cover_url series' episode' year' cover_url' : string)
    (st st' : Transcoding) (m : TonieMetadata.t) :
  encode_tonie_tracks env key source_url tracks series episode year cover_url st
  = (st', Encoded m) ->
  tracks' <> [] ->
  let '(st'', r) :=
    encode_tonie_tracks env' key source_url' tracks' series' episode' year'
      cover_url' st' in
  r = Encoded m
  /\ held st'' = held st'
  /\ get_cached_tracks key (cache st'') = Some m
  /\ (cache st'' = cache st'
      \/ exists png data,
           cover_url' <> ""
           /\ List.find (fun fname => exists_nonempty key fname (cache st'))
                cover_candidates = None
           /\ cover_download env' cover_url' = Some (png, data)
           /\ st_size data <> 0%Z
           /\ (st_size data <= 5 * 1024 * 1024)%Z
           /\ cache st''
              = update_folder key
                  (fun d =>
                     {| files :=
                          <[(if png then "cover.png" else "cover.jpg") := data]>
                            (files d);
                        metadata := metadata d |}) (cache st'))
  /\ (cover_url' = "" -> st'' = st').
Proof.
  intros Hrun Htracks.
  pose proof (encoded_metadata_cached _ _ _ _ _ _ _ _ _ _ _ Hrun) as Hm.
  destruct (folder_of key (cache st')) as [d|] eqn:Hd; [| done].
  unfold encode_tonie_tracks. destruct tracks' as [| t' tracks0]; [done |].
  pose proof (fetch_cover_image_existing env' cover_url' key (cache st') d Hd)
    as Hcases.
  destruct (fetch_cover_image env' cover_url' key (cache st')) as [c cover_path].
  cbn zeta in Hcases. cbn [fst] in Hcases. destruct Hcases as [Hc Hnone].
  assert (Hmc : folder_of key c ≫= metadata = Some m).
  { destruct Hc as [-> | (png & data & _ & _ & _ & _ & _ & ->)];
      [by rewrite Hd |].
    rewrite folder_of_update_folder, Hd. exact Hm. }
  unfold encode_album. cbn [cache held]. rewrite Hmc.
  cbn [cache held]. split; [done |]. split; [done |]. split; [exact Hmc |].
  split; [exact Hc |].
  intros E. rewrite (Hnone E). by destruct st'.
Qed.

Lemma cached_album_is_served_witness :
  let run :=
    encode_tonie_tracks sample_encoder "k" "http://tc/content/x"
      three_tracks "Series" "Episode" "" "" empty_transcoding in
  let m := match run.2 with Encoded m => m | _ => TonieMetadata.mk "" "" "" "" [] "" 0 end in
  let '(st'', r) :=
    encode_tonie_tracks cover_encoder "k" "http://tc/content/other"
      tracks_with_gap "" "" "2024" "http://tc/cover.png" run.1 in
  r = Encoded m
  /\ held st'' = held run.1
  /\ get_cached_tracks "k" (cache st'') = Some m
  /\ (cache st'' = cache run.1
      \/ exists png data,
           "http://tc/cover.png" <> ""
           /\ List.find (fun fname => exists_nonempty "k" fname (cache run.1))
                cover_candidates = None
           /\ cover_download cover_encoder "http://tc/cover.png"
              = Some (png, data)
           /\ st_size data <> 0%Z
           /\ (st_size data <= 5 * 1024 * 1024)%Z
           /\ cache st''
              = update_folder "k"
                  (fun d =>
                     {| files :=
                          <[(if png then "cover.png" else "cover.jpg") := data]>
                            (files d);
                        metadata := metadata d |}) (cache run.1))
  /\ ("http://tc/cover.png" = "" -> st'' = run.1).
Proof.
  intros run m.
  apply (cached_album_is_served sample_encoder cover_encoder "k"
           "http://tc/content/x" "http://tc/content/other"
           three_tracks tracks_with_gap "Series" "Episode" "" ""
           "" "" "2024" "http://tc/cover.png"
           empty_transcoding run.1 m).
  - vm_compute. reflexivity.
  - discriminate.
Defined.

(** The later call of the witness above does write a cover into the
    cached album. *)
Example cached_album_gets_cover :
  let st' :=
    (encode_tonie_tracks sample_encoder "k" "http://tc/content/x"
       three_tracks "Series" "Episode" "" "" empty_transcoding).1 in
  let st'' :=
    (encode_tonie_tracks cover_encoder "k" "http://tc/content/other"
       tracks_with_gap "" "" "2024" "http://tc/cover.png" st').1 in
  file_exists "k" "cover.png" (cache st') = false
  /\ file_exists "k" "cover.png" (cache st'') = true.
Proof. vm_compute. by split. Qed.

Lemma collect_track_files_all (key : string) (c : list (string * CacheItem))
    (l : list TrackInfo.t) :
  forall first,
    (forall i, (first <= i < first + length l)%nat ->
               file_exists key (track_filename i) c = true) ->
    collect_track_files key c (enumerate_from first l)
    = Some (map track_filename (seq first (length l))).
Proof.
  unfold enumerate_from.
  induction l as [| t l IH]; intros first Hall; simpl; [done |].
  cbn [length] in Hall.
  rewrite Hall by lia. rewrite IH; [done |].
  intros i Hi. apply Hall. lia.
Qed.

(** X18. When no track is skipped, the album that the encoder returns can
    be served as one file: the concatenation finds the file of every
    position, in order. *)
Theorem unskipped_album_concatenates
    (env : EncoderEnv) (key source_url : string) (tracks : list Track)
    (series episode year cover_url : string) (st st' : Transcoding)
    (m : TonieMetadata.t) :
  no_loose_file key (cache st) ->
  get_cached_tracks key (cache st) = None ->
  Forall (fun t => (0 < default 0 (duration t))%Z) tracks ->
  encode_tonie_tracks env key source_url tracks series episode year cover_url st
  = (st', Encoded m) ->
  concat_track_files key (cache st')
  = Some (map track_filename (seq 0 (length tracks)))
  /\ map TrackInfo.filename (TonieMetadata.tracks m)
     = map track_filename (seq 0 (length tracks)).
Proof.
  intros Hno Hmeta Hpos Hrun.
  destruct (encode_fresh_spec env key source_url tracks series episode year
              cover_url st st' m Hno Hmeta Hrun) as (Hm & Hall & Hidx & _).
  rewrite kept_positions_all in Hidx by done.
  assert (Hlen : length (TonieMetadata.tracks m) = length tracks).
  { rewrite <- (length_map TrackInfo.index), Hidx. apply length_seq. }
  split.
  - unfold concat_track_files. rewrite Hm.
    rewrite collect_track_files_all; [by rewrite Hlen |].
    intros i Hi. rewrite Hlen in Hi.
    destruct (lookup_lt_is_Some_2 (TonieMetadata.tracks m) i) as [t Ht]; [lia |].
    rewrite Forall_forall in Hall.
    destruct (Hall t) as [Hex _]; [by eapply list_elem_of_lookup_2 |].
    assert (Hi' : TrackInfo.index t = i).
    { assert (H : map TrackInfo.index (TonieMetadata.tracks m) !! i = Some i).
      { rewrite Hidx. apply lookup_seq_lt. lia. }
      change (map TrackInfo.index ?l) with (TrackInfo.index <$> l) in H.
      rewrite list_lookup_fmap, Ht in H. by injection H. }
    by rewrite <- Hi'.
  - rewrite <- Hidx, map_map. apply map_ext_Forall.
    eapply Forall_impl; [exact Hall |]. by intros t [_ ?].
Qed.

Lemma unskipped_album_concatenates_witness :
  let run :=
    encode_tonie_tracks sample_encoder "k" "http://tc/content/x"
      three_tracks "Series" "Episode" "" "" empty_transcoding in
  let m := match run.2 with Encoded m => m | _ => TonieMetadata.mk "" "" "" "" [] "" 0 end in
  concat_track_files "k" (cache run.1)
  = Some (map track_filename (seq 0 (length three_tracks)))
  /\ map TrackInfo.filename (TonieMetadata.tracks m)
     = map track_filename (seq 0 (length three_tracks)).
Proof.
  intros run m.
  apply (unskipped_album_concatenates sample_encoder "k" "http://tc/content/x"
           three_tracks "Series" "Episode" "" "" empty_transcoding run.1 m).
  - intros s [].
  - reflexivity.
  - repeat constructor.
  - vm_compute. reflexivity.
Defined.

(** The first-track encoder after the cover has been fetched. *)
Lemma encode_first_file_ready
    (env : EncoderEnv) (key : string) (tracks : list Track)
    (st st' : Transcoding) :
  no_loose_file key (cache st) ->
  (forall s, ffmpeg env 0 = Some s -> (0 < st_size s)%Z) ->
  encode_first_file env key tracks st = (st', FirstReady) ->
  is_first_track_ready key (cache st') = true /\ held st' = held st.
Proof.
  intros Hno Hsize. unfold encode_first_file, is_first_track_ready.
  destruct tracks as [| first_track tracks0]; [done |].
  destruct (exists_nonempty key (track_filename 0) (cache st)) eqn:Hex;
    [by intros [= <-] |].
  destruct (decide (key ∈ held st)) as [Hheld | Hfree]; [done |].
  set (st1 := {| cache := mkdir key (cache st); held := {[key]} ∪ held st |}).
  destruct (ensure_cache_space_filter env
              (estimated_size env (default 60%Z (duration first_track))) st1)
    as [Hc Hh].
  destruct (ensure_cache_space env _ st1) as [st2 evicted]. simpl in Hc, Hh.
  destruct (ffmpeg env 0) as [s|] eqn:Hs; [| done].
  intros [= <-]. simpl. rewrite Hh. split; [| by apply lock_released].
  unfold exists_nonempty. rewrite write_track_exists.
  - apply Z.gtb_lt. by apply Hsize.
  - rewrite Hc. by apply no_loose_filter, no_loose_mkdir.
Qed.

(** X19. Once the first track of an album is ready it stays ready: the
    call that returns it leaves a non-empty [01.mp3] in the cache, provided
    ffmpeg does not produce an empty file, and gives the lock back; any
    later call for the first track returns it without encoding anything,
    leaves the locks alone and keeps the first track ready. The later
    call fetches the cover before it looks for the first track. So the
    cache stays as it is, or the later call has written the cover that
    it downloaded into the directory of the album, as [cover.png] or
    [cover.jpg] by its content type; it writes it only when it is given
    a cover URL, no non-empty cover file of the album is there, and the
    download gives an image that is not empty and of 5 MiB at most.
    Without a cover URL nothing changes. *)
Theorem first_track_stays_ready
    (env env' : EncoderEnv) (key : string) (tracks tracks' : list Track)
    (cover_url cover_url' : string) (st st' : Transcoding) :
  no_loose_file key (cache st) ->
  (forall s, ffmpeg env 0 = Some s -> (0 < st_size s)%Z) ->
  encode_first_track env key tracks cover_url st = (st', FirstReady) ->
  is_first_track_ready key (cache st') = true
  /\ held st' = held st
  /\ (tracks' <> [] ->
      let '(st'', r) := encode_first_track env' key tracks' cover_url' st' in
      r = FirstReady
      /\ held st'' = held st'
      /\ is_first_track_ready key (cache st'') = true
      /\ (cache st'' = cache st'
          \/ exists png data,
               cover_url' <> ""
               /\ List.find (fun fname => exists_nonempty key fname (cache st'))
                    cover_candidates = None
               /\ cover_download env' cover_url' = Some (png, data)
               /\ st_size data <> 0%Z
               /\ (st_size data <= 5 * 1024 * 1024)%Z
               /\ cache st''
                  = update_folder key
                      (fun d =>
                         {| files :=
                              <[(if png then "cover.png" else "cover.jpg")
                                  := data]> (files d);
                            metadata := metadata d |}) (cache st'))
      /\ (cover_url' = "" -> st'' = st')).
Proof.
  intros Hno Hsize Hrun.
  assert (Hready : is_first_track_ready key (cache st') = true
                   /\ held st' = held st).
  { revert Hrun. unfold encode_first_track.
    destruct tracks as [| first_track tracks0]; [done |].
    destruct (fetch_cover_image_spec env cover_url key (cache st) Hno)
      as (Hno0 & _ & _).
    destruct (fetch_cover_image env cover_url key (cache st)) as [c cover_path].
    cbn [fst] in Hno0. intros Hrun.
    by apply (encode_first_file_ready env key (first_track :: tracks0)
                {| cache := c; held := held st |} st' Hno0 Hsize Hrun). }
  destruct Hready as [Hready Hheld]. split; [done |]. split; [done |].
  intros Htracks. unfold encode_first_track.
  destruct tracks' as [| t tracks0]; [done |].
  unfold is_first_track_ready in Hready.
  assert (Hd : exists d, folder_of key (cache st') = Some d).
  { unfold exists_nonempty in Hready.
    destruct (folder_of key (cache st')) as [d|]; [by exists d | done]. }
  destruct Hd as [d Hd].
  pose proof (fetch_cover_image_existing env' cover_url' key (cache st') d Hd)
    as Hcases.
  destruct (fetch_cover_image env' cover_url' key (cache st')) as [c cover_path].
  cbn zeta in Hcases. cbn [fst] in Hcases. destruct Hcases as [Hc Hnone].
  assert (Hex : exists_nonempty key (track_filename 0) c = true).
  { destruct Hc as [-> | (png & data & _ & _ & _ & _ & _ & ->)]; [done |].
    unfold exists_nonempty in *. rewrite folder_of_update_folder, Hd in *.
    cbn [fmap option_fmap option_map mbind option_bind files] in *.
    rewrite lookup_insert_ne; [done |].
    intros E. apply (track_filename_not_cover 0). rewrite <- E.
    unfold cover_candidates. destruct png; simpl; auto. }
  unfold encode_first_file, is_first_track_ready. cbn [cache held]. rewrite Hex.
  cbn [cache held]. split; [done |]. split; [done |]. split; [exact Hex |].
  split.
  - destruct Hc as [-> | (png & data & ? & ? & ? & ? & ? & ->)]; [by left |].
    right. by exists png, data.
  - intros E. rewrite (Hnone E). by destruct st'.
Qed.

Lemma first_track_stays_ready_witness :
  let st' :=
    (encode_first_track sample_encoder "k" three_tracks "" empty_transcoding).1 in
  is_first_track_ready "k" (cache st') = true
  /\ held st' = held empty_transcoding
  /\ (tracks_with_gap <> [] ->
      let '(st'', r) :=
        encode_first_track cover_encoder "k" tracks_with_gap
          "http://tc/cover.png" st' in
      r = FirstReady
      /\ held st'' = held st'
      /\ is_first_track_ready "k" (cache st'') = true
      /\ (cache st'' = cache st'
          \/ exists png data,
               "http://tc/cover.png" <> ""
               /\ List.find (fun fname => exists_nonempty "k" fname (cache st'))
                    cover_candidates = None
               /\ cover_download cover_encoder "http://tc/cover.png"
                  = Some (png, data)
               /\ st_size data <> 0%Z
               /\ (st_size data <= 5 * 1024 * 1024)%Z
               /\ cache st''
                  = update_folder "k"
                      (fun d =>
                         {| files :=
                              <[(if png then "cover.png" else "cover.jpg")
                                  := data]> (files d);
                            metadata := metadata d |}) (cache st'))
      /\ ("http://tc/cover.png" = "" -> st'' = st')).
Proof.
  intros st'.
  apply (first_track_stays_ready sample_encoder cover_encoder "k"
           three_tracks tracks_with_gap "" "http://tc/cover.png"
           empty_transcoding st').
  - intros s [].
  - intros s [= <-]. simpl. lia.
  - vm_compute. reflexivity.
Defined.

Lemma clear_cache_sizes (c : list (string * CacheItem)) :
  let c' :=
    List.filter
      (fun entry =>
         match snd entry with
         | IsDir _ => false
         | IsFile _ => negb (is_mp3 (fst entry))
         end) c in
  get_cache_size c' = 0%Z /\ collect_items c' = [].
Proof.
  induction c as [| [n [d | s]] c [IHs IHi]]; simpl; [done | done |].
  destruct (is_mp3 n) eqn:E; simpl; [done |].
  rewrite E, IHs. done.
Qed.

(** X20. Clearing the cache leaves nothing that counts: no directory, no
    MP3 file, a cache size of zero and nothing to evict, so that no album
    and no first track is found afterwards. Loose files that are not MP3
    files stay, and the encoding locks are not touched. *)
Theorem clear_cache_leaves_nothing (st : Transcoding) :
  let '(st', n) := clear_cache st in
  get_cache_size (cache st') = 0%Z
  /\ collect_items (cache st') = []
  /\ (forall key, get_cached_tracks key (cache st') = None
                  /\ is_first_track_ready key (cache st') = false
                  /\ concat_track_files key (cache st') = None)
  /\ (forall fname s,
        In (fname, IsFile s) (cache st') <->
        In (fname, IsFile s) (cache st) /\ is_mp3 fname = false)
  /\ (forall fname d, ~ In (fname, IsDir d) (cache st'))
  /\ held st' = held st.
Proof.
  unfold clear_cache. cbn [cache held].
  destruct (clear_cache_sizes (cache st)) as [Hs Hi].
  split; [exact Hs |]. split; [exact Hi |].
  assert (Hdir : forall fname d,
            ~ In (fname, IsDir d)
                (List.filter
                   (fun entry =>
                      match snd entry with
                      | IsDir _ => false
                      | IsFile _ => negb (is_mp3 (fst entry))
                      end) (cache st))).
  { intros fname d Hin. by apply filter_In in Hin as [_ Hin]. }
  split.
  { intros key.
    assert (Hf : folder_of key
                   (List.filter
                      (fun entry =>
                         match snd entry with
                         | IsDir _ => false
                         | IsFile _ => negb (is_mp3 (fst entry))
                         end) (cache st)) = None).
    { unfold folder_of. destruct (lookup_entry key _) as [[d | s]|] eqn:E;
        [| done | done].
      exfalso. apply (Hdir key d). by apply lookup_entry_In. }
    unfold get_cached_tracks, is_first_track_ready, exists_nonempty,
      concat_track_files.
    by rewrite Hf. }
  split.
  { intros fname s. rewrite filter_In. simpl. by rewrite negb_true_iff. }
  split; [exact Hdir | done].
Qed.

(** ** [devices.py]: attempts of an upload *)

Lemma posts_head (k : nat) (evs : list UploadEvent) :
  posts ((if (0 <? k)%nat
          then [SetStatus "retrying"; Sleep (retry_delay k)] else [])
         ++ [SetStatus "uploading"; Post k] ++ evs)%list
  = k :: posts evs.
Proof. by destruct (0 <? k)%nat. Qed.

Lemma sleeps_head (k : nat) (evs : list UploadEvent) :
  sleeps ((if (0 <? k)%nat
           then [SetStatus "retrying"; Sleep (retry_delay k)] else [])
          ++ [SetStatus "uploading"; Post k] ++ evs)%list
  = ((if (0 <? k)%nat then [retry_delay k] else []) ++ sleeps evs)%list.
Proof. by destruct (0 <? k)%nat. Qed.

Lemma retry_loop_soft (env : UploadEnv) (k : nat) (rest : list nat)
    (last_error : option string) :
  soft_failure env k ->
  exists e,
    retry_loop env (k :: rest) last_error
    = ((retry_loop env rest (Some e)).1,
       ((if (0 <? k)%nat
         then [SetStatus "retrying"; Sleep (retry_delay k)] else [])
        ++ [SetStatus "uploading"; Post k]
        ++ (retry_loop env rest (Some e)).2)%list).
Proof.
  intros [Hc Hr]. simpl. rewrite Hc.
  destruct (outcome env k) as [| status text | | | message]; try done;
    [exists ("HTTP " +:+ Py.str_of_Z status +:+ ": " +:+ text)
    | exists "Timeout" | exists message];
    destruct (retry_loop env rest _) as [r evs];
    by rewrite <- app_assoc.
Qed.

Lemma retry_loop_all_soft (env : UploadEnv) (attempts : list nat) :
  forall last_error,
    Forall (soft_failure env) attempts ->
    success (retry_loop env attempts last_error).1 = false
    /\ posts (retry_loop env attempts last_error).2 = attempts
    /\ sleeps (retry_loop env attempts last_error).2
       = map retry_delay (List.filter (fun k => (0 <? k)%nat) attempts)
    /\ (attempts = [] -> error (retry_loop env attempts last_error).1 = last_error)
    /\ (attempts <> [] -> is_Some (error (retry_loop env attempts last_error).1)).
Proof.
  induction attempts as [| k rest IH]; intros last_error Hall; [done |].
  inversion Hall as [| ? ? Hk Hrest]; subst.
  destruct (retry_loop_soft env k rest last_error Hk) as [e ->].
  destruct (IH (Some e) Hrest) as (Hs & Hp & Hsl & Hnil & Hcons).
  cbn [fst snd]. rewrite posts_head, sleeps_head, Hp, Hsl.
  split; [done |]. split; [done |].
  split; [cbn [List.filter]; by destruct (0 <? k)%nat |].
  split; [done |]. intros _.
  destruct rest; [rewrite Hnil by done; by eexists | by apply Hcons].
Qed.

(** After attempts that all fail softly the error reported is that of
    the last one. *)
Lemma retry_loop_last_error (env : UploadEnv) (attempts : list nat) :
  forall last_error,
    Forall (soft_failure env) attempts ->
    error (retry_loop env attempts last_error).1
    = match last attempts with
      | Some k => last_error_of (outcome env k)
      | None => last_error
      end.
Proof.
  induction attempts as [| k rest IH]; intros last_error Hall; [done |].
  inversion Hall as [| ? ? Hk Hrest]; subst.
  destruct Hk as [Hc Hr]. cbn [retry_loop]. rewrite Hc.
  destruct (outcome env k) as [| status text | | | message] eqn:Ho; try done;
    match goal with
    | |- context [retry_loop env rest ?e] =>
        pose proof (IH e Hrest) as H; destruct (retry_loop env rest e) as [r evs]
    end;
    cbn [fst] in *; rewrite H.
  all: destruct rest as [| k' rest']; cbn [last]; [by rewrite Ho |].
  all: destruct (last (k' :: rest')) eqn:E; [done | by apply last_None in E].
Qed.

Lemma retry_loop_success (env : UploadEnv) (attempts : list nat) :
  forall last_error,
    success (retry_loop env attempts last_error).1 = true
    <-> exists before k after,
          attempts = (before ++ k :: after)%list
          /\ Forall (soft_failure env) before
          /\ cancel_at env k = false
          /\ outcome env k = Status200.
Proof.
  induction attempts as [| k rest IH]; intros last_error.
  - split; [done |]. intros (before & k & after & H & _). by destruct before.
  - split.
    + simpl. destruct (cancel_at env k) eqn:Hc; [done |].
      destruct (outcome env k) as [| status text | | | message] eqn:Ho.
      all: try done.
      * intros _. by exists [], k, rest.
      * pose proof (IH (Some ("HTTP " +:+ Py.str_of_Z status +:+ ": " +:+ text)))
          as IHe.
        destruct (retry_loop env rest _) as [r evs]. simpl in *. intros Hs.
        apply IHe in Hs as (before & k' & after & -> & Hb & Hk).
        exists (k :: before), k', after. split; [done |].
        split; [| done]. constructor; [| done]. split; [done | by rewrite Ho].
      * pose proof (IH (Some "Timeout")) as IHe.
        destruct (retry_loop env rest _) as [r evs]. simpl in *. intros Hs.
        apply IHe in Hs as (before & k' & after & -> & Hb & Hk).
        exists (k :: before), k', after. split; [done |].
        split; [| done]. constructor; [| done]. split; [done | by rewrite Ho].
      * pose proof (IH (Some message)) as IHe.
        destruct (retry_loop env rest _) as [r evs]. simpl in *. intros Hs.
        apply IHe in Hs as (before & k' & after & -> & Hb & Hk).
        exists (k :: before), k', after. split; [done |].
        split; [| done]. constructor; [| done]. split; [done | by rewrite Ho].
    + intros (before & k' & after & Heq & Hb & Hc & Ho).
      destruct before as [| b before]; simpl in Heq; injection Heq as <- ->.
      * simpl. by rewrite Hc, Ho.
      * inversion Hb as [| ? ? Hk Hrest]; subst.
        destruct (retry_loop_soft env k (before ++ k' :: after) last_error Hk)
          as [e ->].
        cbn [fst]. apply IH. by exists before, k', after.
Qed.

Lemma seq_split_at (n : nat) (before : list nat) (k : nat) (after : list nat) :
  seq 0 n = (before ++ k :: after)%list ->
  before = seq 0 k /\ (k < n)%nat.
Proof.
  intros H.
  assert (Hk : seq 0 n !! length before = Some k).
  { rewrite H. by rewrite list_lookup_middle. }
  apply lookup_seq in Hk as [Hk Hlt]. simpl in Hk. subst k.
  split; [| done].
  assert (Ht : take (length before) (seq 0 n) = before).
  { rewrite H. by rewrite take_app_length. }
  etransitivity; [symmetry; exact Ht |].
  rewrite take_seq. f_equal. lia.
Qed.

(** X21. An upload succeeds exactly when the file exists, no cancel is
    pending at the start, and among the [max_retries] attempts there is one
    answered by status 200 before which every attempt was made and failed
    with an error status, a time-out or an exception; a cancel request, a
    stall or the end of the attempts before that make it fail. *)
Theorem upload_succeeds_iff (env : UploadEnv) (max_retries : nat) :
  success (upload_to_espuino env max_retries).1 = true
  <-> source_exists env = true
      /\ cancel_before_start env = false
      /\ exists k,
          (k < max_retries)%nat
          /\ outcome env k = Status200
          /\ cancel_at env k = false
          /\ forall j, (j < k)%nat -> soft_failure env j.
Proof.
  unfold upload_to_espuino.
  destruct (source_exists env); cbn [negb]; [| by split; [| intros [? _]]].
  destruct (cancel_before_start env);
    [by split; [| intros (_ & ? & _)] |].
  pose proof (retry_loop_success env (seq 0 max_retries) None) as H.
  destruct (retry_loop env (seq 0 max_retries) None) as [r evs].
  cbn [fst] in *. rewrite H. split.
  - intros (before & k & after & Heq & Hb & Hc & Ho).
    destruct (seq_split_at _ _ _ _ Heq) as [-> Hlt].
    split; [done |]. split; [done |]. exists k.
    split; [done |]. split; [done |]. split; [done |].
    intros j Hj. rewrite Forall_forall in Hb. apply Hb.
    apply elem_of_seq. lia.
  - intros (_ & _ & k & Hlt & Ho & Hc & Hsoft).
    exists (seq 0 k), k, (seq (S k) (max_retries - S k)).
    split.
    { replace max_retries with (k + S (max_retries - S k))%nat at 1 by lia.
      by rewrite seq_app. }
    split; [| done]. apply Forall_forall. intros j Hj.
    apply elem_of_seq in Hj. apply Hsoft. lia.
Qed.

Lemma sum_retry_delays (n : nat) :
  fold_right Z.add 0%Z (map retry_delay (seq 1 n)) = (5 * (2 ^ Z.of_nat n - 1))%Z.
Proof.
  induction n as [| n IH]; [done |].
  rewrite seq_S, map_app, fold_right_app. simpl fold_right at 2.
  assert (Hgen : forall (l : list Z) (a : Z),
            fold_right Z.add a l = (fold_right Z.add 0 l + a)%Z).
  { induction l as [| x l IHl]; intros a; simpl; [lia |].
    rewrite (IHl a). lia. }
  rewrite Hgen, IH. unfold retry_delay.
  replace (Z.of_nat (S n) - 1)%Z with (Z.of_nat n) by lia.
  rewrite Nat2Z.inj_succ, Z.pow_succ_r by lia. lia.
Qed.

Lemma filter_positive_from (m a : nat) :
  (0 < a)%nat -> List.filter (fun k => (0 <? k)%nat) (seq a m) = seq a m.
Proof.
  revert a. induction m as [| m IH]; intros a Ha; simpl; [done |].
  destruct (Nat.ltb_spec 0 a); [| lia]. f_equal. apply IH. lia.
Qed.

Lemma filter_positive_seq (n : nat) :
  List.filter (fun k => (0 <? k)%nat) (seq 0 n) = seq 1 (n - 1).
Proof.
  destruct n as [| n]; [done |]. simpl. rewrite Nat.sub_0_r.
  apply filter_positive_from. lia.
Qed.

(** X22. An upload whose attempts all fail with an error status, a
    time-out or an exception, and which nobody cancels, makes exactly
    [max_retries] attempts, sleeps 5, 10, 20, ... seconds between them,
    that is [5 * (2 ^ (max_retries - 1) - 1)] seconds in all for at least
    one attempt, and reports the error of the last attempt: the status
    and the text of its answer, ["Timeout"], or the text of its
    exception. With [max_retries = 0] it posts nothing and reports no
    error text. *)
Theorem failing_upload_attempts_and_delay (env : UploadEnv) (max_retries : nat) :
  source_exists env = true ->
  cancel_before_start env = false ->
  (forall k, (k < max_retries)%nat -> soft_failure env k) ->
  let '(r, evs) := upload_to_espuino env max_retries in
  success r = false
  /\ posts evs = seq 0 max_retries
  /\ sleeps evs = map retry_delay (seq 1 (max_retries - 1))
  /\ total_sleep evs = (5 * (2 ^ Z.of_nat (max_retries - 1) - 1))%Z
  /\ (max_retries = 0%nat -> error r = None)
  /\ ((0 < max_retries)%nat ->
      error r = last_error_of (outcome env (max_retries - 1))
      /\ error r
         = Some match outcome env (max_retries - 1) with
                | StatusOther status text =>
                    "HTTP " +:+ Py.str_of_Z status +:+ ": " +:+ text
                | OtherError message => message
                | _ => "Timeout"
                end).
Proof.
  intros Hsrc Hcancel Hsoft. unfold upload_to_espuino.
  rewrite Hsrc, Hcancel. cbn [negb].
  assert (Hall : Forall (soft_failure env) (seq 0 max_retries)).
  { apply Forall_forall. intros k Hk. apply elem_of_seq in Hk.
    apply Hsoft. lia. }
  destruct (retry_loop_all_soft env _ None Hall) as (Hs & Hp & Hsl & Hnil & Hcons).
  pose proof (retry_loop_last_error env _ None Hall) as Herr.
  destruct (retry_loop env (seq 0 max_retries) None) as [r evs].
  cbn [fst snd] in *. rewrite filter_positive_seq in Hsl.
  split; [done |]. split; [done |]. split; [done |].
  split.
  { unfold total_sleep.
    change (sleeps (SetStatus "uploading" :: EnsureDir :: evs)) with (sleeps evs).
    rewrite Hsl. apply sum_retry_delays. }
  split.
  - intros ->. by apply Hnil.
  - intros Hpos.
    assert (Hlast : last (seq 0 max_retries) = Some (max_retries - 1)%nat).
    { destruct max_retries as [| n]; [lia |].
      rewrite seq_S, last_snoc. f_equal. simpl. lia. }
    rewrite Hlast in Herr. split; [exact Herr |].
    rewrite Herr.
    destruct (Hsoft (max_retries - 1)%nat ltac:(lia)) as [_ Hr].
    by destruct (outcome env (max_retries - 1)).
Qed.

Lemma failing_upload_attempts_and_delay_witness :
  let '(r, evs) := upload_to_espuino always_timeout 5 in
  success r = false
  /\ posts evs = seq 0 5
  /\ sleeps evs = map retry_delay (seq 1 (5 - 1))
  /\ total_sleep evs = (5 * (2 ^ Z.of_nat (5 - 1) - 1))%Z
  /\ (5%nat = 0%nat -> error r = None)
  /\ ((0 < 5)%nat ->
      error r = last_error_of (outcome always_timeout (5 - 1))
      /\ error r
         = Some match outcome always_timeout (5 - 1) with
                | StatusOther status text =>
                    "HTTP " +:+ Py.str_of_Z status +:+ ": " +:+ text
                | OtherError message => message
                | _ => "Timeout"
                end).
Proof.
  apply (failing_upload_attempts_and_delay always_timeout 5).
  - reflexivity.
  - reflexivity.
  - intros k _. split; reflexivity.
Defined.

(** Three attempts that are answered by status 500 report that status. *)
Example failing_upload_reports_status :
  error (upload_to_espuino always_500 3).1
  = Some "HTTP 500: Internal Server Error".
Proof. reflexivity. Qed.

Lemma retry_loop_stops (env : UploadEnv) (attempts : list nat) :
  forall last_error,
    exists made,
      posts (retry_loop env attempts last_error).2 = made
      /\ made `prefix_of` attempts
      /\ (forall i k, made !! i = Some k -> is_Some (made !! S i) ->
                      soft_failure env k)
      /\ (forall k, In k made -> cancel_at env k = false).
Proof.
  induction attempts as [| k rest IH]; intros last_error.
  - exists []. split; [done |]. split; [apply prefix_nil |].
    split; [intros i k Hk; by rewrite lookup_nil in Hk | by intros k []].
  - destruct (cancel_at env k) eqn:Hc.
    { exists []. simpl. rewrite Hc. split; [done |]. split; [apply prefix_nil |].
      split; [intros i k' Hk'; by rewrite lookup_nil in Hk' | by intros k' []]. }
    destruct (retryable (outcome env k)) eqn:Hr.
    + destruct (retry_loop_soft env k rest last_error (conj Hc Hr)) as [e ->].
      destruct (IH (Some e)) as (made & Hp & Hpre & Hsoft & Hcan).
      exists (k :: made). cbn [snd]. rewrite posts_head, Hp.
      split; [done |]. split; [by apply prefix_cons |]. split.
      * intros [| i] k' Hk' Hnext; simpl in *.
        -- injection Hk' as <-. by split.
        -- by apply (Hsoft i).
      * intros k' [<- | Hin]; [done | by apply Hcan].
    + exists [k]. simpl. rewrite Hc.
      destruct (outcome env k) as [| status text | | | message]; try done;
        cbn [snd]; (split; [by rewrite <- app_assoc, posts_head |]);
        (split; [apply prefix_cons, prefix_nil |]);
        (split; [intros [| i] k' Hk' [x Hx]; by simplify_eq/= |]);
        by intros k' [<- | []].
Qed.

(** X23. The attempts of an upload are numbered from zero without a gap,
    and no attempt follows one that succeeded, stalled or was cancelled:
    every attempt but the last one made ended with an error status, a
    time-out or an exception, and no attempt is made while a cancel request
    is pending. A cancel request that is pending at the start, or a
    missing file, means that nothing is posted at all. *)
Theorem upload_never_retries_after_the_end (env : UploadEnv) (max_retries : nat) :
  let evs := (upload_to_espuino env max_retries).2 in
  (exists made,
      (made <= max_retries)%nat
      /\ posts evs = seq 0 made
      /\ (forall k, (S k < made)%nat -> soft_failure env k)
      /\ (forall k, (k < made)%nat -> cancel_at env k = false))
  /\ (source_exists env = false \/ cancel_before_start env = true ->
      posts evs = [] /\ success (upload_to_espuino env max_retries).1 = false).
Proof.
  unfold upload_to_espuino.
  destruct (source_exists env); cbn [negb].
  2: { split; [| done]. exists 0%nat. repeat split; try done; intros; lia. }
  destruct (cancel_before_start env).
  { split; [| done]. exists 0%nat. repeat split; try done; intros; lia. }
  destruct (retry_loop_stops env (seq 0 max_retries) None)
    as (made & Hp & Hpre & Hsoft & Hcan).
  destruct (retry_loop env (seq 0 max_retries) None) as [r evs].
  cbn [snd] in *. split; [| by intros [? | ?]].
  destruct Hpre as [rest Hrest].
  assert (Hlen : (length made <= max_retries)%nat).
  { pose proof (f_equal length Hrest) as Hl.
    rewrite length_seq, length_app in Hl. lia. }
  assert (Hmade : made = seq 0 (length made)).
  { assert (Ht : take (length made) (seq 0 max_retries) = made)
      by (rewrite Hrest; by rewrite take_app_length).
    etransitivity; [symmetry; exact Ht |].
    rewrite take_seq. f_equal. lia. }
  exists (length made). split; [done |].
  split; [by rewrite <- Hmade |]. split.
  - intros k Hk. apply (Hsoft k k).
    + rewrite Hmade. apply lookup_seq_lt. lia.
    + apply lookup_lt_is_Some. lia.
  - intros k Hk. apply Hcan. rewrite Hmade. apply in_seq. lia.
Qed.

(** ** [devices.py]: time strings *)

Lemma field_facts_all : forallb field_facts (seq 0 100) = true.
Proof. vm_compute. reflexivity. Qed.

Lemma int10_short (max_str_digits : nat) (s : string) :
  (PyStr.count_digits s <= 640)%nat ->
  PyStr.int10 max_str_digits s = PyStr.int10 0 s.
Proof.
  intros Hlen. unfold PyStr.int10.
  destruct (Nat.ltb_spec 640 (PyStr.count_digits s)) as [? | _]; [lia |].
  reflexivity.
Qed.

Lemma field_facts_lt (max_str_digits : nat) (n : Z) :
  (0 <= n < 100)%Z ->
  PyStr.int10 max_str_digits (Py.format_0d 2 n) = Some n
  /\ Py.contains ":" (Py.format_0d 2 n) = false.
Proof.
  intros Hn. pose proof field_facts_all as H.
  rewrite forallb_forall in H. specialize (H (Z.to_nat n)).
  assert (Hin : In (Z.to_nat n) (seq 0 100)) by (apply in_seq; lia).
  apply H in Hin. unfold field_facts in Hin.
  rewrite Z2Nat.id in Hin by lia.
  apply andb_prop in Hin as [H12 H3]. apply andb_prop in H12 as [H1 H2].
  apply bool_decide_eq_true in H1. apply bool_decide_eq_true in H2.
  apply negb_true_iff in H3.
  split; [| done]. rewrite int10_short; [done | lia].
Qed.

Lemma time_of_day (p : Z) :
  ((p / 3600) mod 24 * 3600 + (p / 60) mod 60 * 60 + p mod 60 = p mod 86400)%Z.
Proof.
  assert (H3600 : (p / 60 / 60 = p / 3600)%Z)
    by (rewrite Z.div_div by lia; reflexivity).
  rewrite <- H3600.
  pose proof (Z.div_mod p 60 ltac:(lia)) as H1.
  pose proof (Z.mod_pos_bound p 60 ltac:(lia)) as B1.
  pose proof (Z.div_mod (p / 60) 60 ltac:(lia)) as H2.
  pose proof (Z.mod_pos_bound (p / 60) 60 ltac:(lia)) as B2.
  pose proof (Z.div_mod (p / 60 / 60) 24 ltac:(lia)) as H3.
  pose proof (Z.mod_pos_bound (p / 60 / 60) 24 ltac:(lia)) as B3.
  apply (Z.mod_unique_pos _ _ (p / 60 / 60 / 24)); lia.
Qed.

(** An [int] below [2 ^ 53] is a [float] as it is. *)
Lemma float_of_small_int (n : Z) :
  (0 <= n < 2 ^ 53)%Z -> float_of_int n = Returns (Finite n 0).
Proof.
  intros Hn. unfold float_of_int.
  assert (Hlog : (Z.log2 (Z.abs n) < 53)%Z).
  { rewrite Z.abs_eq by lia.
    destruct (Z.eq_dec n 0%Z) as [-> | Hne]; [done |].
    apply Z.log2_lt_pow2; lia. }
  destruct (Z.leb_spec (Z.log2 (Z.abs n) + 1 - 53) 0); [done | lia].
Qed.

(** The time string of an instant reads back as its time of day. *)
Lemma time_of_day_string_reads_back (max_str_digits : nat) (seconds : Z) :
  _parse_time_to_seconds max_str_digits (time_of_day_string seconds)
  = Returns (Finite (seconds mod 86400) 0).
Proof.
  pose proof (Z.mod_pos_bound (seconds / 3600) 24 ltac:(lia)) as Bh.
  pose proof (Z.mod_pos_bound (seconds / 60) 60 ltac:(lia)) as Bm.
  pose proof (Z.mod_pos_bound seconds 60 ltac:(lia)) as Bs.
  destruct (field_facts_lt max_str_digits ((seconds / 3600) mod 24))
    as [Hh Hhc]; [lia |].
  destruct (field_facts_lt max_str_digits ((seconds / 60) mod 60))
    as [Hm Hmc]; [lia |].
  destruct (field_facts_lt max_str_digits (seconds mod 60)) as [Hs Hsc]; [lia |].
  unfold _parse_time_to_seconds, time_of_day_string.
  set (h := Py.format_0d 2 ((seconds / 3600) mod 24)) in *.
  set (m := Py.format_0d 2 ((seconds / 60) mod 60)) in *.
  set (s := Py.format_0d 2 (seconds mod 60)) in *.
  assert (Hsplit : Py.split ":" (h +:+ ":" +:+ m +:+ ":" +:+ s) = [h; m; s]).
  { change (h +:+ ":" +:+ m +:+ ":" +:+ s)
      with (h +:+ String ":" (m +:+ String ":" s)).
    rewrite (split_app_sep ":" h _ Hhc), (split_app_sep ":" m _ Hmc).
    by rewrite (split_no_sep ":" s Hsc). }
  assert (Htruthy : Py.truthy (h +:+ ":" +:+ m +:+ ":" +:+ s) = true).
  { by destruct h. }
  rewrite Htruthy, Hsplit. cbn [negb length Nat.eqb].
  rewrite Hh, Hm, Hs, time_of_day.
  apply float_of_small_int.
  pose proof (Z.mod_pos_bound seconds 86400 ltac:(lia)). lia.
Qed.

(** X24. [seek_sonos] writes a position, a [float], as a time string,
    and [get_sonos_position] reads a time string back. The string is made
    of the floor of the position, so that a fractional part is dropped;
    read back, it gives the floor of the position as long as that is
    below 24 hours, and from there on its time of day, that is the floor
    modulo 86400 seconds. For a position that is not finite or that the
    [gmtime] of the platform refuses there is no time string, and no
    seek. A time string that is empty or has neither two nor three fields
    reads as zero. *)
Theorem seek_target_reads_back
    (gmtime_ok : Z -> bool) (max_str_digits : nat) (mantissa exponent : Z) :
  gmtime_ok (float_floor mantissa exponent) = true ->
  let seconds := float_floor mantissa exponent in
  ((0 <= exponent)%Z -> seconds = (mantissa * 2 ^ exponent)%Z)
  /\ ((exponent < 0)%Z -> seconds = (mantissa / 2 ^ (- exponent))%Z)
  /\ seek_target gmtime_ok (Finite mantissa exponent)
     = Some (time_of_day_string seconds)
  /\ _parse_time_to_seconds max_str_digits (time_of_day_string seconds)
     = Returns (Finite (seconds mod 86400) 0)
  /\ ((0 <= seconds < 86400)%Z ->
      _parse_time_to_seconds max_str_digits (time_of_day_string seconds)
      = Returns (Finite seconds 0))
  /\ seek_target gmtime_ok Infinite = None
  /\ seek_target gmtime_ok NaN = None
  /\ (forall m e, gmtime_ok (float_floor m e) = false ->
        seek_target gmtime_ok (Finite m e) = None)
  /\ _parse_time_to_seconds max_str_digits "" = Returns (Finite 0 0)
  /\ (forall s, length (Py.split ":" s) <> 2%nat ->
                length (Py.split ":" s) <> 3%nat ->
                _parse_time_to_seconds max_str_digits s = Returns (Finite 0 0)).
Proof.
  intros Hok seconds.
  split; [intros He; unfold seconds, float_floor; by apply Z.shiftl_mul_pow2 |].
  split; [intros He; unfold seconds, float_floor; apply Z.shiftl_div_pow2; lia |].
  split; [unfold seek_target; cbv zeta; by rewrite Hok |].
  split; [apply time_of_day_string_reads_back |].
  split.
  { intros Hlt. rewrite time_of_day_string_reads_back.
    by rewrite Z.mod_small by lia. }
  split; [done |]. split; [done |].
  split; [intros m e Hno; unfold seek_target; by rewrite Hno |].
  split; [done |].
  intros s H2 H3. unfold _parse_time_to_seconds.
  destruct (Py.truthy s); cbn [negb]; [| done].
  destruct (Nat.eqb_spec (length (Py.split ":" s)) 2); [done |].
  destruct (Py.split ":" s) as [| a [| b [| c [| d l]]]]; try done.
Qed.

Lemma seek_target_reads_back_witness :
  let gmtime_ok := fun seconds => (0 <=? seconds)%Z in
  let seconds := float_floor 180123 (-1) in
  ((0 <= -1)%Z -> seconds = (180123 * 2 ^ (-1))%Z)
  /\ ((-1 < 0)%Z -> seconds = (180123 / 2 ^ (- -1))%Z)
  /\ seek_target gmtime_ok (Finite 180123 (-1))
     = Some (time_of_day_string seconds)
  /\ _parse_time_to_seconds 4300 (time_of_day_string seconds)
     = Returns (Finite (seconds mod 86400) 0)
  /\ ((0 <= seconds < 86400)%Z ->
      _parse_time_to_seconds 4300 (time_of_day_string seconds)
      = Returns (Finite seconds 0))
  /\ seek_target gmtime_ok Infinite = None
  /\ seek_target gmtime_ok NaN = None
  /\ (forall m e, gmtime_ok (float_floor m e) = false ->
        seek_target gmtime_ok (Finite m e) = None)
  /\ _parse_time_to_seconds 4300 "" = Returns (Finite 0 0)
  /\ (forall s, length (Py.split ":" s) <> 2%nat ->
                length (Py.split ":" s) <> 3%nat ->
                _parse_time_to_seconds 4300 s = Returns (Finite 0 0)).
Proof.
  apply (seek_target_reads_back (fun seconds => (0 <=? seconds)%Z) 4300
           180123 (-1)).
  reflexivity.
Defined.

(** The position 90061.5 is written as the time of day of second 90061,
    which reads back as 3661. *)
Example seek_target_wraps :
  seek_target (fun seconds => (0 <=? seconds)%Z) (Finite 180123 (-1))
  = Some "01:01:01"
  /\ _parse_time_to_seconds 4300 "01:01:01" = Returns (Finite 3661 0).
Proof. split; reflexivity. Qed.

(** Rounding of a large [int], and the limit on the digits of a field. *)
Example float_of_int_rounds :
  float_of_int (2 ^ 53 + 1) = Returns (Finite (2 ^ 53) 0)
  /\ float_of_int (2 ^ 53 + 3) = Returns (Finite (2 ^ 53 + 4) 0)
  /\ float_of_int (2 ^ 1024) = Raises OverflowError.
Proof. repeat split; vm_compute; reflexivity. Qed.

(** ** [devices.py]: what is on the SD card *)

Lemma scan_json_end_bounds (s : string) :
  forall (count : Z) (i : nat),
    (0 < scan_json_end count i s)%nat ->
    (i < scan_json_end count i s <= i + String.length s)%nat
    /\ String.get (scan_json_end count i s - 1 - i) s = Some "]"%char.
Proof.
  induction s as [| c s IH]; intros count i; simpl; [lia |].
  destruct (Ascii.eqb_spec c "[").
  { intros H. destruct (IH _ _ H) as [Hb Hg]. split; [lia |].
    replace (scan_json_end (count + 1) (S i) s - 1 - i)%nat
      with (S (scan_json_end (count + 1) (S i) s - 1 - S i)) by lia.
    exact Hg. }
  destruct (Ascii.eqb_spec c "]").
  { destruct (count - 1 =? 0)%Z.
    - intros _. split; [lia |].
      replace (S i - 1 - i)%nat with 0%nat by lia. by subst c.
    - intros H. destruct (IH _ _ H) as [Hb Hg]. split; [lia |].
      replace (scan_json_end (count - 1) (S i) s - 1 - i)%nat
        with (S (scan_json_end (count - 1) (S i) s - 1 - S i)) by lia.
      exact Hg. }
  intros H. destruct (IH _ _ H) as [Hb Hg]. split; [lia |].
  replace (scan_json_end count (S i) s - 1 - i)%nat
    with (S (scan_json_end count (S i) s - 1 - S i)) by lia.
  exact Hg.
Qed.

Lemma scan_json_end_app (s junk : string) :
  forall (count : Z) (i : nat),
    (0 < scan_json_end count i s)%nat ->
    scan_json_end count i (s +:+ junk) = scan_json_end count i s.
Proof.
  induction s as [| c s IH]; intros count i; simpl; [lia |].
  destruct (Ascii.eqb c "["); [apply IH |].
  destruct (Ascii.eqb c "]"); [| apply IH].
  destruct (count - 1 =? 0)%Z; [done | apply IH].
Qed.

Lemma substring_app_l (s t : string) (n : nat) :
  (n <= String.length s)%nat -> substring 0 n (s +:+ t) = substring 0 n s.
Proof.
  revert n. induction s as [| c s IH]; intros n Hn; simpl in *.
  - assert (n = 0)%nat as -> by lia. by destruct t.
  - destruct n as [| n]; [done |]. simpl. f_equal. apply IH. lia.
Qed.

(** X25. Whatever follows the bracket that closes the first array of a
    directory listing is cut off before the listing is decoded: when the
    answer holds such a bracket, text appended to it changes neither the
    place of the cut nor the text that is decoded, and the decoded text
    ends with that bracket. *)
Theorem trailing_garbage_is_cut (raw_text junk : string) :
  (0 < json_end raw_text)%nat ->
  json_end (raw_text +:+ junk) = json_end raw_text
  /\ listing_text (raw_text +:+ junk) = listing_text raw_text
  /\ (json_end raw_text <= String.length raw_text)%nat
  /\ String.get (json_end raw_text - 1) raw_text = Some "]"%char.
Proof.
  intros Hend. unfold json_end in *.
  pose proof (scan_json_end_app raw_text junk 0 0 Hend) as Happ.
  destruct (scan_json_end_bounds raw_text 0 0 Hend) as [Hb Hg].
  split; [exact Happ |]. split.
  - unfold listing_text, json_end. rewrite Happ.
    destruct (Nat.ltb_spec 0 (scan_json_end 0 0 raw_text)); [| lia].
    unfold Py.slice. apply substring_app_l. lia.
  - split; [lia |]. by rewrite Nat.sub_0_r in Hg.
Qed.

Lemma trailing_garbage_is_cut_witness :
  json_end ("[[1],[2]]" +:+ "]x[") = json_end "[[1],[2]]"
  /\ listing_text ("[[1],[2]]" +:+ "]x[") = listing_text "[[1],[2]]"
  /\ (json_end "[[1],[2]]" <= String.length "[[1],[2]]")%nat
  /\ String.get (json_end "[[1],[2]]" - 1) "[[1],[2]]" = Some "]"%char.
Proof. apply (trailing_garbage_is_cut "[[1],[2]]" "]x["). vm_compute. lia. Defined.

Lemma file_index_snoc (files : list SdFile) (f : SdFile) :
  file_index (files ++ [f]) = <[sd_name f := f]> (file_index files).
Proof. unfold file_index. by rewrite fold_left_app. Qed.

Lemma file_index_lookup (files : list SdFile) (n : option string) (f : SdFile) :
  file_index files !! n = Some f
  <-> last (filter (fun f => sd_name f = n) files) = Some f.
Proof.
  induction files as [| g files IH] using rev_ind.
  - unfold file_index. simpl. by rewrite lookup_empty.
  - rewrite file_index_snoc, filter_app, filter_cons, filter_nil.
    destruct (decide (sd_name g = n)) as [Hg | Hg].
    + rewrite last_snoc. subst n. by rewrite lookup_insert_eq.
    + rewrite app_nil_r. by rewrite lookup_insert_ne.
Qed.

Lemma file_index_elem (files : list SdFile) (n : option string) (f : SdFile) :
  file_index files !! n = Some f -> f ∈ files /\ sd_name f = n.
Proof.
  rewrite file_index_lookup. intros Hlast.
  assert (Hin : f ∈ filter (fun f => sd_name f = n) files).
  { apply last_Some in Hlast as [l' ->]. apply elem_of_app. right.
    by apply list_elem_of_singleton. }
  by apply list_elem_of_filter in Hin as [? ?].
Qed.

Lemma verify_track_step (files : list SdFile) (result : Verification)
    (t : MetaTrack) :
  let result' := verify_track (file_index files) result t in
  total_tracks result' = total_tracks result
  /\ ((track_in_place files t
       /\ verified_tracks result' = S (verified_tracks result)
       /\ missing_tracks result' = missing_tracks result
       /\ size_mismatch result' = size_mismatch result)
      \/ (~ track_in_place files t
          /\ verified_tracks result' = verified_tracks result
          /\ (length (missing_tracks result') + length (size_mismatch result')
              = S (length (missing_tracks result) + length (size_mismatch result)))%nat
          /\ (length (missing_tracks result) <= length (missing_tracks result'))%nat
          /\ (length (size_mismatch result) <= length (size_mismatch result'))%nat)).
Proof.
  cbn zeta. unfold verify_track, track_in_place.
  destruct (file_index files !! mt_file t) as [f|] eqn:Hf.
  - destruct (Z.gtb_spec (default 0%Z (mt_size t)) 0) as [Hpos | Hnp];
      [destruct (Z.eqb_spec (default 0%Z (sd_size f)) (default 0%Z (mt_size t)))
         as [Heq | Hne] |];
      cbn [andb negb total_tracks verified_tracks missing_tracks size_mismatch].
    + split; [done |]. left. split; [| done]. exists f. by split.
    + split; [done |]. right. rewrite length_app. cbn [length].
      split; [| lia]. intros (f' & [= <-] & Hsz). apply Hne, Hsz. lia.
    + split; [done |]. left. split; [| done]. exists f. split; [done |]. lia.
  - cbn [total_tracks verified_tracks missing_tracks size_mismatch].
    split; [done |]. right. rewrite length_app. cbn [length].
    split; [| lia]. by intros (f' & [=] & _).
Qed.

(** The loop over the tracks, from any intermediate result. *)
Lemma verify_fold (files : list SdFile) (tracks : list MetaTrack) :
  forall result,
    let result' := fold_left (verify_track (file_index files)) tracks result in
    total_tracks result' = total_tracks result
    /\ (verified_tracks result' + length (missing_tracks result')
        + length (size_mismatch result')
        = verified_tracks result + length (missing_tracks result)
          + length (size_mismatch result) + length tracks)%nat
    /\ (length (missing_tracks result) <= length (missing_tracks result'))%nat
    /\ (length (size_mismatch result) <= length (size_mismatch result'))%nat
    /\ (length (missing_tracks result') = length (missing_tracks result)
        /\ length (size_mismatch result') = length (size_mismatch result)
        <-> Forall (track_in_place files) tracks).
Proof.
  induction tracks as [| t tracks IH]; intros result; cbn zeta; cbn [fold_left].
  - cbn [length]. repeat split; try lia. constructor.
  - destruct (IH (verify_track (file_index files) result t))
      as (Ht & Hsum & Hmiss & Hmis & Hiff).
    destruct (verify_track_step files result t) as [Ht' Hstep].
    rewrite Forall_cons. cbn [length].
    set (r1 := verify_track (file_index files) result t) in *.
    set (r' := fold_left (verify_track (file_index files)) tracks r1) in *.
    split; [congruence |].
    destruct Hstep as [(Hin & Hv & Hm & Hs) | (Hout & Hv & Hlen & Hm & Hs)].
    + rewrite Hm, Hs in *. split; [lia |]. split; [done |]. split; [done |].
      rewrite Hiff. by split; [intros ?; split | intros [_ ?]].
    + split; [lia |]. split; [lia |]. split; [lia |].
      split; [lia | by intros [? _]].
Qed.

Lemma upload_is_complete_iff_aux (files : list SdFile) (tracks : list MetaTrack) :
  let v := verify_espuino_upload files tracks in
  (complete v = true <-> Forall (track_in_place files) tracks)
  /\ (complete v = true <-> missing_tracks v = [] /\ size_mismatch v = [])
  /\ (verified_tracks v + length (missing_tracks v) + length (size_mismatch v)
      = length tracks)%nat
  /\ total_tracks v = length tracks.
Proof.
  cbn zeta. unfold verify_espuino_upload.
  destruct (verify_fold files tracks
              {| complete := false; total_tracks := length tracks;
                 verified_tracks := 0; missing_tracks := [];
                 size_mismatch := [] |}) as (Ht & Hsum & _ & _ & Hiff).
  cbn [complete total_tracks verified_tracks missing_tracks size_mismatch] in *.
  set (r := fold_left (verify_track (file_index files)) tracks _) in *.
  simpl in Hsum, Hiff.
  assert (Hc : (verified_tracks r =? total_tracks r)%nat
               && (length (missing_tracks r) =? 0)%nat
               && (length (size_mismatch r) =? 0)%nat = true
               <-> length (missing_tracks r) = 0%nat
                   /\ length (size_mismatch r) = 0%nat).
  { rewrite !andb_true_iff, !Nat.eqb_eq. split; [by intros [[_ ?] ?] |].
    intros [Hm Hs]. split; [split |]; [| done | done]. lia. }
  split; [by rewrite Hc, Hiff |]. split.
  { rewrite Hc. split; intros [Hm Hs].
    - by split; apply length_zero_iff_nil.
    - by rewrite Hm, Hs. }
  split; [lia | done].
Qed.

(** X26. An upload is verified as complete exactly when every track of the
    metadata is in place: the listing has a file of its name and, where
    the metadata gives a positive size, of exactly that size. Every track
    counts once, as verified, missing or of the wrong size. A track
    without a known size passes with any file of its name, of two listing
    entries with one name the later one counts, and metadata without
    tracks is complete. *)
Theorem upload_is_complete_iff (files : list SdFile) (tracks : list MetaTrack) :
  let v := verify_espuino_upload files tracks in
  (complete v = true <-> Forall (track_in_place files) tracks)
  /\ (complete v = true <-> missing_tracks v = [] /\ size_mismatch v = [])
  /\ (verified_tracks v + length (missing_tracks v) + length (size_mismatch v)
      = length tracks)%nat
  /\ total_tracks v = length tracks
  /\ (forall n f,
        file_index files !! n = Some f
        <-> last (filter (fun f => sd_name f = n) files) = Some f)
  /\ complete (verify_espuino_upload files []) = true.
Proof.
  destruct (upload_is_complete_iff_aux files tracks) as (H1 & H2 & H3 & H4).
  cbn zeta. split; [exact H1 |]. split; [exact H2 |]. split; [exact H3 |].
  split; [exact H4 |]. split; [apply file_index_lookup | done].
Qed.

(** X27. An upload that is verified as complete is ready for local
    playback: when the files of the tracks are MP3 files of distinct names
    and there is at least one track, the readiness check with the number
    of tracks as expectation finds at least that many MP3 files in the
    same listing, says ready and gives the folder as play path. *)
Theorem complete_upload_is_ready
    (folder_path : string) (files : list SdFile) (tracks : list MetaTrack) :
  complete (verify_espuino_upload files tracks) = true ->
  List.NoDup (map mt_file tracks) ->
  Forall (fun t =>
            Py.endswith (PyStr.lower (default "" (mt_file t))) ".mp3" = true)
    tracks ->
  tracks <> [] ->
  let r :=
    check_espuino_sd_ready folder_path (Z.of_nat (length tracks)) (Some files) in
  ready r = true
  /\ play_path r = Some folder_path
  /\ folder_exists r = true
  /\ (length tracks <= tracks_complete r)%nat.
Proof.
  intros Hcomplete Hnd Hmp3 Hne.
  destruct (upload_is_complete_iff_aux files tracks) as [Hiff _].
  apply Hiff in Hcomplete.
  set (mp3s := List.filter
                 (fun f => Py.endswith (PyStr.lower (default "" (sd_name f))) ".mp3")
                 files).
  assert (Hcount : (length tracks <= length mp3s)%nat).
  { rewrite <- (length_map mt_file tracks), <- (length_map sd_name mp3s).
    apply submseteq_length, NoDup_submseteq; [by apply NoDup_ListNoDup |].
    intros n Hn. apply list_elem_of_fmap in Hn as (t & -> & Ht).
    rewrite Forall_forall in Hcomplete, Hmp3.
    destruct (Hcomplete t Ht) as (f & Hf & _).
    apply file_index_elem in Hf as [Hin Hname].
    apply list_elem_of_fmap. exists f. split; [done |].
    apply list_elem_of_In, filter_In. split; [by apply list_elem_of_In |].
    rewrite Hname. by apply Hmp3. }
  cbn zeta. unfold check_espuino_sd_ready. fold mp3s.
  cbn [ready play_path folder_exists tracks_complete].
  assert (Hlen : (0 < length tracks)%nat) by (destruct tracks; simpl; [done | lia]).
  destruct (Z.gtb_spec (Z.of_nat (length tracks)) 0); [| lia].
  destruct (Z.geb_spec (Z.of_nat (length mp3s)) (Z.of_nat (length tracks)));
    [done | lia].
Qed.

Lemma complete_upload_is_ready_witness :
  let r :=
    check_espuino_sd_ready "/teddycloud/Series_Episode"
      (Z.of_nat (length sample_meta_tracks)) (Some sample_listing) in
  ready r = true
  /\ play_path r = Some "/teddycloud/Series_Episode"
  /\ folder_exists r = true
  /\ (length sample_meta_tracks <= tracks_complete r)%nat.
Proof.
  apply (complete_upload_is_ready "/teddycloud/Series_Episode"
           sample_listing sample_meta_tracks).
  - vm_compute. reflexivity.
  - repeat constructor; simpl; intros H; repeat destruct H as [H | H];
      try discriminate; done.
  - repeat constructor.
  - discriminate.
Defined.

(** ** [devices.py] and [main.py]: which device plays *)

(** X28. The device that a scan is played on, for a reader that shows no
    tag: the target named by a stream request; else the reader itself, as
    SD player, for a local request when no device is saved for the reader
    or the saved one is an SD player; else the device saved for the reader
    in the settings, also when a temporary device is set for it; else the
    temporary device of the reader, the temporary device of the server, or
    the default device. That device becomes the current device of the
    reader and the target of the answer, and every call that the scan
    makes to start playback is made for it; a browser is not called at
    all. *)
Theorem scan_plays_on_resolved_device
    (env : Env) (reg : DeviceService.t) (ip uid : string)
    (request : TonieRequest) (srv : Server) :
  device_for_reader env ip = DeviceService.get_device_for_reader ip reg ->
  device_override_for env ip = DeviceService.get_reader_device_override ip reg ->
  client_ready env = true ->
  req_uid request = Some uid ->
  current_tag_of srv ip = None ->
  let '(srv', out, calls) := handle_tonie env ip request srv in
  let d := scan_device reg ip request in
  Forall (made_for env d) calls
  /\ (dev_type d = "browser" -> calls = [])
  /\ (exists st',
        reader_states srv' !! ip = Some st'
        /\ current_device st' = Some d)
  /\ exists resp,
      out = Ok resp
      /\ resp_target resp = Some (dev_id d).
Proof.
  intros Hdev Hov Hready Hreq Hnone. unfold handle_tonie. rewrite Hreq, Hov.
  assert (Hcur : current_tag (get_reader_state ip (reader_states srv)).2 = None).
  { unfold current_tag_of in Hnone. unfold get_reader_state.
    by destruct (reader_states srv !! ip). }
  destruct (get_reader_state ip (reader_states srv)) as [states st].
  cbn [snd] in Hcur.
  unfold play_tonie_for_reader. cbn [reader_states connected_readers].
  rewrite (get_reader_state_present ip _ _ (lookup_insert_eq _ _ _)).
  cbn [current_tag set_stream_mode]. rewrite Hcur.
  match goal with
  | |- context [play_fresh env ip uid ?dov ?ovr ?s ?r []] =>
      pose proof (play_fresh_start env ip uid dov ovr s r [] _ Hready
                    (lookup_insert_eq _ _ _)) as H;
      destruct (play_fresh env ip uid dov ovr s r []) as [[srv' out] calls]
  end.
  assert (Hd : match
                 match req_target_device request with
                 | Some target =>
                     if String.eqb (req_mode request) "stream" then Some target
                     else if String.eqb (req_mode request) "local"
                             && match DeviceService.get_reader_device_override ip reg with
                                | Some d => String.eqb (dev_type d) "espuino"
                                | None => true
                                end
                     then Some {| dev_type := "espuino"; dev_id := ip |}
                     else DeviceService.get_reader_device_override ip reg
                 | None =>
                     if String.eqb (req_mode request) "local"
                        && match DeviceService.get_reader_device_override ip reg with
                           | Some d => String.eqb (dev_type d) "espuino"
                           | None => true
                           end
                     then Some {| dev_type := "espuino"; dev_id := ip |}
                     else DeviceService.get_reader_device_override ip reg
                 end
               with
               | Some d => d
               | None => device_for_reader env ip
               end = scan_device reg ip request).
  { unfold scan_device. rewrite Hdev. unfold DeviceService.get_device_for_reader.
    destruct (req_target_device request) as [target|];
      [destruct (String.eqb (req_mode request) "stream"); [done |] |];
      destruct (DeviceService.get_reader_device_override ip reg) as [saved|] eqn:Hs;
      destruct (String.eqb (req_mode request) "local"); cbn [andb];
      try destruct (String.eqb (dev_type saved) "espuino"); try done;
      destruct (DeviceService.reader_current_devices reg !! ip) eqn:Ht;
      try done.
    all: unfold DeviceService.get_reader_device_override in Hs;
      destruct (DeviceService.reader_devices reg !! ip) as [dev|];
      [destruct (_ && _) |]; done. }
  cbn zeta in H. rewrite Hd in H. cbn zeta.
  destruct H as ((cs & -> & Hfor & _ & Hb & _) & (st' & t & Hstate) & Hresp).
  cbn [app].
  split; [exact Hfor |]. split; [exact Hb |]. split; [| exact Hresp].
  exists st'. by destruct Hstate as (? & _ & _ & _ & _ & _ & ? & _).
Qed.

Lemma scan_plays_on_resolved_device_witness :
  let '(srv', out, calls) :=
    handle_tonie registry_env "192.0.2.10"
      (untargeted_scan_request "E0:04:03:50:13:16:80:4B") initial_server in
  let d :=
    scan_device sample_registry "192.0.2.10"
      (untargeted_scan_request "E0:04:03:50:13:16:80:4B") in
  Forall (made_for registry_env d) calls
  /\ (dev_type d = "browser" -> calls = [])
  /\ (exists st',
        reader_states srv' !! "192.0.2.10" = Some st'
        /\ current_device st' = Some d)
  /\ exists resp, out = Ok resp /\ resp_target resp = Some (dev_id d).
Proof.
  apply (scan_plays_on_resolved_device registry_env sample_registry "192.0.2.10"
           "E0:04:03:50:13:16:80:4B"
           (untargeted_scan_request "E0:04:03:50:13:16:80:4B") initial_server);
    reflexivity.
Defined.

(** In the witness above the device saved for the reader is started. *)
Example scan_starts_saved_device :
  scan_device sample_registry "192.0.2.10"
    (untargeted_scan_request "E0:04:03:50:13:16:80:4B")
  = {| dev_type := "airplay"; dev_id := "ap-1" |}
  /\ (handle_tonie registry_env "192.0.2.10"
        (untargeted_scan_request "E0:04:03:50:13:16:80:4B") initial_server).2
     = [ StartPlayback {| dev_type := "airplay"; dev_id := "ap-1" |}
           "http://srv:8754/transcode.mp3?url=http://tc/content/E0:04:03:50:13:16:80:4B"
           0 ].
Proof. split; vm_compute; reflexivity. Qed.

(** X29. A temporary device of a reader overrides everything else for that
    reader and for no other reader, also a device saved for the reader
    afterwards; clearing it brings back the registry as it was before it
    was set, and clearing where nothing is set changes nothing and says
    so. *)
Theorem temporary_device_round_trip
    (reg : DeviceService.t) (ip device_type device_id : string) :
  DeviceService.reader_current_devices reg !! ip = None ->
  let reg1 := DeviceService.set_reader_current_device ip device_type device_id reg in
  DeviceService.get_device_for_reader ip reg1
  = {| dev_type := device_type; dev_id := device_id |}
  /\ (forall ip', ip' <> ip ->
        DeviceService.get_device_for_reader ip' reg1
        = DeviceService.get_device_for_reader ip' reg)
  /\ (forall saved_type saved_id,
        DeviceService.get_device_for_reader ip
          (DeviceService.set_reader_device ip saved_type saved_id reg1)
        = {| dev_type := device_type; dev_id := device_id |})
  /\ DeviceService.clear_reader_current_device ip reg1 = (reg, true)
  /\ DeviceService.clear_reader_current_device ip reg = (reg, false).
Proof.
  intros Hnone. cbn zeta.
  unfold DeviceService.get_device_for_reader,
    DeviceService.clear_reader_current_device,
    DeviceService.set_reader_current_device, DeviceService.set_reader_device.
  cbn [DeviceService.reader_current_devices DeviceService.reader_devices
       DeviceService.current_device DeviceService.default_device].
  split; [by rewrite lookup_insert_eq |]. split.
  { intros ip' Hne. by rewrite lookup_insert_ne. }
  split; [intros ? ?; by rewrite lookup_insert_eq |]. split.
  - rewrite lookup_insert_eq, delete_insert_id by done. by destruct reg.
  - by rewrite Hnone.
Qed.

Lemma temporary_device_round_trip_witness :
  let reg :=
    {| DeviceService.default_device := {| dev_type := "sonos"; dev_id := "RINCON_1" |};
       DeviceService.current_device := None;
       DeviceService.reader_current_devices := ∅;
       DeviceService.reader_devices := ∅ |} in
  let reg1 := DeviceService.set_reader_current_device "192.0.2.10" "browser" "web" reg in
  DeviceService.get_device_for_reader "192.0.2.10" reg1
  = {| dev_type := "browser"; dev_id := "web" |}
  /\ (forall ip', ip' <> "192.0.2.10" ->
        DeviceService.get_device_for_reader ip' reg1
        = DeviceService.get_device_for_reader ip' reg)
  /\ (forall saved_type saved_id,
        DeviceService.get_device_for_reader "192.0.2.10"
          (DeviceService.set_reader_device "192.0.2.10" saved_type saved_id reg1)
        = {| dev_type := "browser"; dev_id := "web" |})
  /\ DeviceService.clear_reader_current_device "192.0.2.10" reg1 = (reg, true)
  /\ DeviceService.clear_reader_current_device "192.0.2.10" reg = (reg, false).
Proof.
  intros reg.
  apply (temporary_device_round_trip reg "192.0.2.10" "browser" "web").
  reflexivity.
Defined.

(** ** [main.py]: tag ids of UIDs without colons *)

Lemma keep_hex_chars (s : string) :
  Forall (fun c => Py.is_upper_hex c = true)
    (list_ascii_of_string (Py.keep Py.is_upper_hex s)).
Proof.
  induction s as [| c s IH]; simpl; [constructor |].
  destruct (Py.is_upper_hex c) eqn:E; simpl; [by constructor | done].
Qed.

Lemma hex_char_facts_all : forallb hex_char_facts (seq 0 256) = true.
Proof. vm_compute. reflexivity. Qed.

Lemma hex_char (c : ascii) :
  Py.is_upper_hex c = true ->
  (exists d, (d < 16)%nat /\ c = hex_digit_char d)
  /\ Ascii.eqb c ":" = false
  /\ Py.upper_ascii c = c.
Proof.
  intros Hc. pose proof hex_char_facts_all as H.
  rewrite forallb_forall in H. specialize (H (nat_of_ascii c)).
  assert (Hin : In (nat_of_ascii c) (seq 0 256)).
  { apply in_seq. pose proof (nat_ascii_bounded c). lia. }
  apply H in Hin. unfold hex_char_facts in Hin.
  rewrite ascii_nat_embedding, Hc in Hin. cbn [implb] in Hin.
  apply andb_prop in Hin as [Hin Hup]. apply andb_prop in Hin as [Hd Hcol].
  apply existsb_exists in Hd as (d & Hd & Heq).
  apply in_seq in Hd. apply Ascii.eqb_eq in Heq, Hup.
  apply negb_true_iff in Hcol.
  split; [exists d; split; [lia | done] | done].
Qed.

Lemma hex_pair_of_digits (d1 d2 : nat) :
  (d1 < 16)%nat -> (d2 < 16)%nat ->
  String (hex_digit_char d1) (String (hex_digit_char d2) "")
  = hex_pair (16 * d1 + d2)
  /\ (16 * d1 + d2 < 256)%nat.
Proof.
  intros H1 H2. unfold hex_pair. split; [| lia].
  replace ((16 * d1 + d2) / 16)%nat with d1.
  - replace ((16 * d1 + d2) mod 16)%nat with d2; [done |].
    rewrite Nat.add_comm, Nat.mul_comm, Nat.Div0.mod_add.
    symmetry. by apply Nat.mod_small.
  - rewrite Nat.add_comm, Nat.mul_comm, Nat.div_add by lia.
    rewrite Nat.div_small by done. lia.
Qed.

Lemma substring_two (P : ascii -> Prop) (h : string) :
  forall i,
    (i + 2 <= String.length h)%nat ->
    Forall P (list_ascii_of_string h) ->
    exists c1 c2, substring i 2 h = String c1 (String c2 "") /\ P c1 /\ P c2.
Proof.
  induction h as [| c h IH]; intros i Hi Hall; simpl in *; [lia |].
  inversion Hall as [| ? ? Hc Hrest]; subst.
  destruct i as [| i].
  - destruct h as [| c' h]; simpl in *; [lia |].
    inversion Hrest; subst. exists c, c'. by destruct h.
  - apply IH; [lia | done].
Qed.

Lemma map_choice {A B} (f : nat -> B) (g : A -> B) (P : A -> Prop) (n : nat) :
  (forall k, (k < n)%nat -> exists a, f k = g a /\ P a) ->
  exists l, map f (seq 0 n) = map g l /\ length l = n /\ Forall P l.
Proof.
  induction n as [| n IH]; intros H; [by exists [] |].
  destruct IH as (l & Hl & Hlen & Hall); [intros k Hk; apply H; lia |].
  destruct (H n ltac:(lia)) as (a & Ha & Pa).
  exists (l ++ [a])%list. rewrite seq_S, !map_app, Hl. simpl. rewrite Ha.
  split; [done |]. split; [rewrite length_app; simpl; lia |].
  apply Forall_app. split; [done | by constructor].
Qed.

Lemma last_four_pairs_bytes (h : string) :
  (8 <= String.length h)%nat ->
  Forall (fun c => Py.is_upper_hex c = true) (list_ascii_of_string h) ->
  exists bs,
    last_four_pairs h = map hex_pair bs
    /\ length bs = 4%nat
    /\ Forall (fun b => (b < 256)%nat) bs.
Proof.
  intros Hlen Hall. unfold last_four_pairs, Py.slice.
  apply map_choice. intros k Hk.
  replace (String.length h - 8 + 2 * k + 2 - (String.length h - 8 + 2 * k))%nat
    with 2%nat by lia.
  destruct (substring_two _ h (String.length h - 8 + 2 * k) ltac:(lia) Hall)
    as (c1 & c2 & -> & H1 & H2).
  destruct (hex_char c1 H1) as [(d1 & Hd1 & ->) _].
  destruct (hex_char c2 H2) as [(d2 & Hd2 & ->) _].
  destruct (hex_pair_of_digits d1 d2 Hd1 Hd2) as [-> Hb]. by eexists.
Qed.

Lemma keep_idempotent (p : ascii -> bool) (s : string) :
  Py.keep p (Py.keep p s) = Py.keep p s.
Proof.
  induction s as [| c s IH]; simpl; [done |].
  destruct (p c) eqn:E; simpl; [by rewrite E, IH | done].
Qed.

Lemma hex_string_facts (h : string) :
  Forall (fun c => Py.is_upper_hex c = true) (list_ascii_of_string h) ->
  Py.upper h = h /\ Py.contains ":" h = false.
Proof.
  induction h as [| c h IH]; simpl; [done |].
  intros Hall. inversion Hall as [| ? ? Hc Hrest]; subst.
  destruct (IH Hrest) as [-> ->]. destruct (hex_char c Hc) as (_ & -> & ->).
  done.
Qed.

Lemma tag_id_without_colon (raw : string) :
  Py.contains ":" (Py.upper raw) = false ->
  uid_to_espuino_tag_id raw
  = tag_id_of_hex_digits (Py.keep Py.is_upper_hex (Py.upper raw)).
Proof.
  intros Hcolon. unfold uid_to_espuino_tag_id, tag_id_of_hex_digits.
  destruct raw as [| c raw]; [done |].
  cbn [Py.truthy negb]. rewrite Hcolon.
  by destruct (_ <? 8)%nat.
Qed.

Lemma tag_id_of_hex_digits_shape (h : string) :
  Forall (fun c => Py.is_upper_hex c = true) (list_ascii_of_string h) ->
  (tag_id_of_hex_digits h = "" <-> (String.length h < 8)%nat)
  /\ ((8 <= String.length h)%nat ->
      String.length (tag_id_of_hex_digits h) = 12%nat).
Proof.
  intros Hall. unfold tag_id_of_hex_digits.
  destruct (Nat.ltb_spec (String.length h) 8) as [Hlt | Hge].
  - split; [done | lia].
  - destruct (last_four_pairs_bytes h Hge Hall) as (bs & Hbs & Hlen & Hb).
    rewrite Hbs, <- map_rev, triplets_pairs by by apply Forall_rev.
    destruct bs as [| a [| b [| c [| d [| e bs]]]]]; simpl in Hlen; try lia.
    split; [| done]. split; [done | lia].
Qed.

(** X30. For a UID written without colons only its hexadecimal digits
    count: the tag id is that of the digits alone, it is empty exactly when
    there are fewer than eight of them, and otherwise it has exactly twelve
    characters. With an empty tag id the liveness probe returns [None],
    so that it says nothing about the player, whatever the player
    answers. *)
Theorem plain_uid_tag_id_shape (uid : string) :
  Py.contains ":" (Py.upper uid) = false ->
  let hex_only := Py.keep Py.is_upper_hex (Py.upper uid) in
  uid_to_espuino_tag_id uid = uid_to_espuino_tag_id hex_only
  /\ (uid_to_espuino_tag_id uid = "" <-> (String.length hex_only < 8)%nat)
  /\ ((8 <= String.length hex_only)%nat ->
      String.length (uid_to_espuino_tag_id uid) = 12%nat)
  /\ (uid_to_espuino_tag_id uid = "" ->
      forall ip reply, check_espuino_active_tag ip uid reply = Returns None).
Proof.
  intros Hcolon. cbn zeta.
  pose proof (keep_hex_chars (Py.upper uid)) as Hall.
  set (hex_only := Py.keep Py.is_upper_hex (Py.upper uid)) in *.
  destruct (hex_string_facts hex_only Hall) as [Hup Hcol].
  destruct (tag_id_of_hex_digits_shape hex_only Hall) as [Hempty H12].
  rewrite (tag_id_without_colon uid Hcolon). fold hex_only.
  split.
  { rewrite (tag_id_without_colon hex_only) by by rewrite Hup.
    rewrite Hup. unfold hex_only at 2. by rewrite keep_idempotent. }
  split; [exact Hempty |]. split; [exact H12 |].
  intros Hid ip reply. unfold check_espuino_active_tag.
  rewrite (tag_id_without_colon uid Hcolon). fold hex_only. rewrite Hid.
  by destruct (_ || _).
Qed.

Lemma plain_uid_tag_id_shape_witness :
  let hex_only := Py.keep Py.is_upper_hex (Py.upper "0e-f4 d7/ac") in
  uid_to_espuino_tag_id "0e-f4 d7/ac" = uid_to_espuino_tag_id hex_only
  /\ (uid_to_espuino_tag_id "0e-f4 d7/ac" = "" <-> (String.length hex_only < 8)%nat)
  /\ ((8 <= String.length hex_only)%nat ->
      String.length (uid_to_espuino_tag_id "0e-f4 d7/ac") = 12%nat)
  /\ (uid_to_espuino_tag_id "0e-f4 d7/ac" = "" ->
      forall ip reply,
        check_espuino_active_tag ip "0e-f4 d7/ac" reply = Returns None).
Proof. apply (plain_uid_tag_id_shape "0e-f4 d7/ac"). reflexivity. Defined.
